(** * The docx report generator of the Motorola Scout Rapport Tool

    A shallow embedding of [docx_report.cpp] (together with the [Entry] record
    of [docx_report.h]) and the properties of its two functions,
    [replaceTokens] and [reportgen::generateDocx]; and, after it, of the
    string, path and placement functions of the image tool that prepares the
    pictures of a report.

    Conventions of the embedding.
    - An XML tree of tinyxml2 is the inductive type [XMLNode]; a node owns its
      children, so a subtree is a value.  Node identity, which the C++ code
      has through pointers, is kept where the generator needs it: an
      [XMLDocument] holds the linked tree and the pool of nodes that were
      created or cloned but not yet inserted, addressed by handles.
    - Text is [string]; the strings handed to tinyxml2 are C strings, so all
      strings are taken to be free of NUL characters.
    - tinyxml2, zipper and std::filesystem are libraries outside the
      repository; their functions are modelled by what they do on the tree and
      on the file system, under the names the code calls them by. *)

From stdpp Require Import gmap strings list fin_maps pretty.
From Stdlib Require Import ZArith Ascii.

#[local] Open Scope string_scope.
#[local] Open Scope list_scope.

(** ** tinyxml2: nodes *)

#[warnings="-register-all"]
Inductive XMLNode : Type :=
| XMLElement (name : string) (attributes : list (string * string)) (children : list XMLNode)
| XMLText (cdata : bool) (value : string)
| XMLComment (value : string)
| XMLDeclaration (value : string)
| XMLUnknown (value : string).

(** Induction over a tree whose children are a list of trees. *)
Section XMLNode_induction.
Variable P : XMLNode → Prop.
Hypothesis P_element : ∀ nm ats ch, Forall P ch → P (XMLElement nm ats ch).
Hypothesis P_text : ∀ c v, P (XMLText c v).
Hypothesis P_comment : ∀ v, P (XMLComment v).
Hypothesis P_declaration : ∀ v, P (XMLDeclaration v).
Hypothesis P_unknown : ∀ v, P (XMLUnknown v).

Fixpoint XMLNode_tree_ind (n : XMLNode) : P n :=
  match n with
  | XMLElement nm ats ch =>
      P_element nm ats ch
        ((fix all (l : list XMLNode) : Forall P l :=
            match l with
            | [] => @List.Forall_nil XMLNode P
            | x :: l' => @List.Forall_cons XMLNode P x l' (XMLNode_tree_ind x) (all l')
            end) ch)
  | XMLText c v => P_text c v
  | XMLComment v => P_comment v
  | XMLDeclaration v => P_declaration v
  | XMLUnknown v => P_unknown v
  end.
End XMLNode_induction.

(** [XMLNode::ToElement], [ToText], [ToComment]: the dynamic casts, as tests. *)
Definition ToElement (n : XMLNode) : bool :=
  match n with XMLElement _ _ _ => true | _ => false end.

Definition ToText (n : XMLNode) : bool :=
  match n with XMLText _ _ => true | _ => false end.

Definition ToComment (n : XMLNode) : bool :=
  match n with XMLComment _ => true | _ => false end.

(** [XMLNode::Value], which is [XMLElement::Name] on an element. *)
Definition Name (n : XMLNode) : string :=
  match n with
  | XMLElement nm _ _ => nm
  | XMLText _ v | XMLComment v | XMLDeclaration v | XMLUnknown v => v
  end.

Definition child_nodes (n : XMLNode) : list XMLNode :=
  match n with XMLElement _ _ ch => ch | _ => [] end.

(** [XMLNode::FirstChild]: null when there is no child. *)
Definition FirstChild (n : XMLNode) : option XMLNode := head (child_nodes n).

(** [XMLNode::FirstChildElement(name)] over a list of siblings: the position
    and the node of the first element with that name. *)
Fixpoint FirstChildElement_from (i : nat) (name : string) (l : list XMLNode)
  : option (nat * XMLNode) :=
  match l with
  | [] => None
  | n :: l' =>
      if ToElement n && String.eqb (Name n) name then Some (i, n)
      else FirstChildElement_from (S i) name l'
  end.

Definition FirstChildElement (name : string) (l : list XMLNode) : option (nat * XMLNode) :=
  FirstChildElement_from 0 name l.

(** [XMLElement::SetAttribute]: the attribute of that name is overwritten
    where it stands, a new one goes to the end of the attribute list. *)
Fixpoint set_attribute (name value : string) (ats : list (string * string))
  : list (string * string) :=
  match ats with
  | [] => [(name, value)]
  | (k, v) :: rest =>
      if String.eqb k name then (k, value) :: rest
      else (k, v) :: set_attribute name value rest
  end.

Definition SetAttribute (name value : string) (e : XMLNode) : XMLNode :=
  match e with
  | XMLElement nm ats ch => XMLElement nm (set_attribute name value ats) ch
  | _ => e
  end.

Fixpoint find_attribute (name : string) (ats : list (string * string)) : option string :=
  match ats with
  | [] => None
  | (k, v) :: rest => if String.eqb k name then Some v else find_attribute name rest
  end.

(** [XMLElement::Attribute(name)]. *)
Definition Attribute (name : string) (e : XMLNode) : option string :=
  match e with XMLElement _ ats _ => find_attribute name ats | _ => None end.

(** ** tinyxml2: the text of an element

    [XMLElement::GetText] returns the value of a leading text node of the
    element, or null.  The releases of tinyxml2 differ in what "leading"
    means: the older ones return the value of [FirstChild()] when that is a
    text node and null otherwise; the newer ones first step over comment
    nodes ([while (node) { if (node->ToComment()) { node = node->NextSibling();
    continue; } break; }]) and then test the node they stopped at.
    [XMLElement::SetText] is the same in all of them: when [FirstChild()] is
    a text node its value is overwritten, otherwise a new text node is made
    and inserted as first child.  The repository does not fix the release it
    is built with, so the development is carried out for both behaviours of
    [GetText]; every definition that depends on it takes the behaviour as
    its first argument. *)

Inductive GetTextPolicy := FirstChildOnly | SkipLeadingComments.

Fixpoint skip_comments (l : list XMLNode) : list XMLNode :=
  match l with
  | XMLComment _ :: l' => skip_comments l'
  | _ => l
  end.

Definition SetText (e : XMLNode) (inText : string) : XMLNode :=
  match e with
  | XMLElement nm ats (XMLText c _ :: rest) => XMLElement nm ats (XMLText c inText :: rest)
  | XMLElement nm ats ch => XMLElement nm ats (XMLText false inText :: ch)
  | _ => e
  end.

Section Tokens.
Variable policy : GetTextPolicy.

Definition GetText (e : XMLNode) : option string :=
  let node :=
    match policy with
    | FirstChildOnly => child_nodes e
    | SkipLeadingComments => skip_comments (child_nodes e)
    end in
  match node with
  | XMLText _ v :: _ => Some v
  | _ => None
  end.

(** ** replaceTokens (docx_report.cpp, lines 40-54)

    The test of lines 46-49 on a child element [e]:
    [std::string(e->Name()) == "w:t"], [t = e->GetText()], [t && key == t]. *)
Definition token_hit (key : string) (e : XMLNode) : bool :=
  String.eqb (Name e) "w:t" &&
  match GetText e with
  | Some t => String.eqb key t
  | None => false
  end.

(** The loop runs over the child elements of [node] in order; for each it
    sets the text on a hit (line 50) and recurses into the child (line 52).
    [SetText] touches only the leading text node of [e] and the recursion only
    the element children of [e], so the two commute; the definition recurses
    on the child as it stands in the tree, which is what structural recursion
    needs, and [replaceTokens_loop_body] below gives the equation in the order
    of the source: first [SetText], then the recursive call. *)
Fixpoint replaceTokens (key val : string) (node : XMLNode) : XMLNode :=
  match node with
  | XMLElement nm ats ch =>
      XMLElement nm ats
        (map (fun e =>
                if ToElement e then
                  let e' := replaceTokens key val e in
                  if token_hit key e then SetText e' val else e'
                else e) ch)
  | _ => node
  end.

(** One pass of the loop body of lines 46-52 on a child [e], in source order. *)
Definition visit_child (key val : string) (e : XMLNode) : XMLNode :=
  if ToElement e
  then replaceTokens key val (if token_hit key e then SetText e val else e)
  else e.

(** *** What the claims observe on a tree *)

(** The texts, in document order, of the elements named [w:t] below [node]
    (the node itself is not among them: the loop starts at its children). *)
Fixpoint run_texts (node : XMLNode) : list (option string) :=
  match node with
  | XMLElement _ _ ch =>
      flat_map (fun e =>
                  if ToElement e then
                    (if String.eqb (Name e) "w:t" then [GetText e] else []) ++ run_texts e
                  else []) ch
  | _ => []
  end.

(** The text-bearing leaves below [node]: the elements named [w:t] whose whole
    content is one text node; each is listed with that text. *)
Definition leaf_text (e : XMLNode) : list string :=
  match e with
  | XMLElement nm _ [XMLText _ s] => if String.eqb nm "w:t" then [s] else []
  | _ => []
  end.

Fixpoint leaf_texts (node : XMLNode) : list string :=
  match node with
  | XMLElement _ _ ch =>
      flat_map (fun e => if ToElement e then leaf_text e ++ leaf_texts e else []) ch
  | _ => []
  end.

(** A hit on an element whose first child is not a text node: [GetText] found
    the token behind leading comments, and [SetText] will insert a node. *)
Definition stray_hit (key : string) (e : XMLNode) : bool :=
  token_hit key e &&
  match child_nodes e with
  | XMLText _ _ :: _ => false
  | _ => true
  end.

Fixpoint has_stray_hit (key : string) (node : XMLNode) : bool :=
  match node with
  | XMLElement _ _ ch =>
      existsb (fun e => ToElement e && (stray_hit key e || has_stray_hit key e)) ch
  | _ => false
  end.

End Tokens.

(** What a token is replaced by. *)
Definition subst_text (key val : string) (t : option string) : option string :=
  match t with
  | Some s => if String.eqb key s then Some val else t
  | None => None
  end.

(** The tree with the leading text of every [w:t] element below it blanked:
    everything of a tree except the texts that [replaceTokens] may write. *)
Definition blank_leading_text (e : XMLNode) : XMLNode :=
  match e with
  | XMLElement nm ats (XMLText c _ :: rest) => XMLElement nm ats (XMLText c "" :: rest)
  | _ => e
  end.

Fixpoint outside_run_texts (node : XMLNode) : XMLNode :=
  match node with
  | XMLElement nm ats ch =>
      XMLElement nm ats
        (map (fun e =>
                if ToElement e then
                  let e' := outside_run_texts e in
                  if String.eqb (Name e) "w:t" then blank_leading_text e' else e'
                else e) ch)
  | _ => node
  end.

Fixpoint node_count (node : XMLNode) : nat :=
  match node with
  | XMLElement _ _ ch => S (list_sum (map node_count ch))
  | _ => 1
  end.

(** *** The substitution in the words of the specification

    The full text content of an element is the text of its text children,
    CDATA sections included, one after the other. *)
Definition text_content (e : XMLNode) : string :=
  fold_right (fun n s => match n with XMLText _ v => v +:+ s | _ => s end) ""
    (child_nodes e).

(** An element named [w:t] whose first child is a text node that reads
    exactly [key] gets that text node overwritten with [val]. *)
Definition overwrite_leading (key val : string) (e : XMLNode) : XMLNode :=
  match e with
  | XMLElement nm ats (XMLText c t :: rest) =>
      if String.eqb nm "w:t" && String.eqb key t
      then XMLElement nm ats (XMLText c val :: rest)
      else e
  | _ => e
  end.

(** The subtree with every descendant visited and every such element
    overwritten; nothing else is touched. *)
Fixpoint substituted (key val : string) (node : XMLNode) : XMLNode :=
  match node with
  | XMLElement nm ats ch =>
      XMLElement nm ats
        (map (fun e => overwrite_leading key val (substituted key val e)) ch)
  | _ => node
  end.

(** ** tinyxml2: documents and node pointers

    An [XMLDocument] owns every node it ever created.  [linked] is the tree
    below the document node; [unlinked] is the pool of nodes that
    [NewElement] or [DeepClone] created and that have no parent yet (the
    array [_unlinked] of tinyxml2), each under the handle it was given.  A
    pointer of the C++ code is a [NodePtr]: a path of child positions into
    the linked tree, or the handle of an unlinked node.  Writing through a
    pointer changes the node it points to and nothing else. *)

Record XMLDocument := mkXMLDocument {
  linked : list XMLNode;
  unlinked : gmap nat XMLNode;
  next_handle : nat
}.

Inductive NodePtr := Linked (path : list nat) | Unlinked (h : nat).

Definition with_children (f : list XMLNode → list XMLNode) (n : XMLNode) : XMLNode :=
  match n with
  | XMLElement nm ats ch => XMLElement nm ats (f ch)
  | _ => n
  end.

Fixpoint node_at (l : list XMLNode) (path : list nat) : option XMLNode :=
  match path with
  | [] => None
  | i :: rest =>
      match l !! i with
      | None => None
      | Some n => match rest with [] => Some n | _ => node_at (child_nodes n) rest end
      end
  end.

Fixpoint alter_at (f : XMLNode → XMLNode) (path : list nat) (l : list XMLNode)
  : list XMLNode :=
  match path with
  | [] => l
  | i :: rest =>
      match rest with
      | [] => alter f i l
      | _ => alter (with_children (alter_at f rest)) i l
      end
  end.

Definition deref (d : XMLDocument) (p : NodePtr) : option XMLNode :=
  match p with
  | Linked path => node_at (linked d) path
  | Unlinked h => unlinked d !! h
  end.

(** A write through pointer [p]: the node it points to becomes [f] of itself. *)
Definition update (p : NodePtr) (f : XMLNode → XMLNode) (d : XMLDocument) : XMLDocument :=
  match p with
  | Linked path => mkXMLDocument (alter_at f path (linked d)) (unlinked d) (next_handle d)
  | Unlinked h => mkXMLDocument (linked d) (alter f h (unlinked d)) (next_handle d)
  end.

(** A node that the document creates goes to the pool under a fresh handle. *)
Definition new_node (n : XMLNode) (d : XMLDocument) : nat * XMLDocument :=
  (next_handle d,
   mkXMLDocument (linked d) (<[next_handle d := n]> (unlinked d)) (S (next_handle d))).

(** [XMLDocument::NewElement(name)]. *)
Definition NewElement (name : string) (d : XMLDocument) : nat * XMLDocument :=
  new_node (XMLElement name [] []) d.

(** [XMLNode::DeepClone(&doc)] of the node [n]: a copy of the whole subtree,
    owned by [doc] and without a parent. *)
Definition DeepClone (n : XMLNode) (d : XMLDocument) : nat * XMLDocument :=
  new_node n d.

(** [parent->InsertEndChild(child)] for an unlinked [child]: the node leaves
    the pool and becomes the last child of [parent].  [None] stands for a
    pointer that points to nothing. *)
Definition InsertEndChild (parent : NodePtr) (child : nat) (d : XMLDocument)
  : option XMLDocument :=
  match unlinked d !! child with
  | None => None
  | Some c =>
      let d' := mkXMLDocument (linked d) (delete child (unlinked d)) (next_handle d) in
      match deref d' parent with
      | None => None
      | Some _ => Some (update parent (with_children (fun ch => ch ++ [c])) d')
      end
  end.

(** [body->DeleteChild(body->FirstChild())]. *)
Definition DeleteFirstChild (body : NodePtr) (d : XMLDocument) : XMLDocument :=
  update body (with_children (drop 1)) d.

(** The loop of lines 87-88, [while (body->FirstChild()) body->DeleteChild(...)].
    [rounds] bounds the number of iterations; [delete_all_children_linked]
    shows that the number of children at loop entry is enough: the loop ends
    with a body that has no child, that is, by its own test. *)
Fixpoint delete_all_children (rounds : nat) (body : NodePtr) (d : XMLDocument)
  : XMLDocument :=
  match rounds with
  | 0 => d
  | S r =>
      match deref d body ≫= FirstChild with
      | Some _ => delete_all_children r body (DeleteFirstChild body d)
      | None => d
      end
  end.

(** ** The file system

    A file is a well-formed XML file (given by the forest tinyxml2 parses it
    to and prints it from), any other file, or a zip archive of a directory
    tree.  The world is the files by path, the working directory
    [temp_directory_path() / "docx_tmp"] as a tree of its own with paths
    relative to it, and the set of paths at which no file can be created.
    The working directory is private to the call: the paths the caller passes
    lie outside it, and writing inside it succeeds. *)

#[warnings="-register-all"]
Inductive file :=
| XmlFile (nodes : list XMLNode)
| Blob (bytes : string)
| ZipFile (tree : gmap string file).

Record World := mkWorld {
  disk : gmap string file;
  workdir : gmap string file;
  locked : gset string
}.

(** [docx_report.h]: struct Entry. *)
Record Entry := mkEntry {
  header : string;
  description : string;
  imagePath : string
}.

Module fs.

(** The tool is built for Windows, where both the slash and the backslash
    separate the components of a path. *)
Definition is_separator (c : ascii) : bool :=
  Ascii.eqb c "/"%char || Ascii.eqb c "\"%char.

Definition is_period (c : ascii) : bool := Ascii.eqb c "."%char.

(** The part of [s] after the last character that satisfies [p]. *)
Fixpoint after_last (p : ascii → bool) (s : string) : option string :=
  match s with
  | EmptyString => None
  | String c rest =>
      match after_last p rest with
      | Some r => Some r
      | None => if p c then Some rest else None
      end
  end.

(** [path::filename]. *)
Definition filename (p : string) : string :=
  match after_last is_separator p with
  | Some f => f
  | None => p
  end.

(** [path::extension]: from the rightmost period of the file name on; empty
    for "." and "..", and a period in first position starts no extension. *)
Definition extension (p : string) : string :=
  let f := filename p in
  if String.eqb f "." || String.eqb f ".." then ""
  else
    match f with
    | EmptyString => ""
    | String _ rest =>
        match after_last is_period rest with
        | Some r => String "."%char r
        | None => ""
        end
    end.

(** The part of [s] up to and including the last character that satisfies
    [p]. *)
Fixpoint up_to_last (p : ascii → bool) (s : string) : option string :=
  match s with
  | EmptyString => None
  | String c rest =>
      match up_to_last p rest with
      | Some r => Some (String c r)
      | None => if p c then Some (String c "") else None
      end
  end.

(** The part of [s] before the last character that satisfies [p]. *)
Fixpoint before_last (p : ascii → bool) (s : string) : option string :=
  match s with
  | EmptyString => None
  | String c rest =>
      match before_last p rest with
      | Some r => Some (String c r)
      | None => if p c then Some "" else None
      end
  end.

(** [path::stem]: the file name without its extension. *)
Definition stem (p : string) : string :=
  let f := filename p in
  if String.eqb f "." || String.eqb f ".." then f
  else
    match f with
    | EmptyString => ""
    | String c rest =>
        match before_last is_period rest with
        | Some r => String c r
        | None => f
        end
    end.

(** [path::remove_filename]: what is left ends with a separator or is empty. *)
Definition remove_filename (p : string) : string :=
  default "" (up_to_last is_separator p).

(** [path::replace_filename(r)], which is [remove_filename] followed by
    [operator/=]: for a replacement that is a plain file name, [r] is appended
    to what [remove_filename] left. *)
Definition replace_filename (p r : string) : string :=
  remove_filename p +:+ r.

(** [fs::remove_all(tmp)]. *)
Definition remove_all_tmp (w : World) : World :=
  mkWorld (disk w) ∅ (locked w).

(** [fs::copy_file(from, tmp / to, overwrite_existing)]: throws when [from]
    is not there. *)
Definition copy_file (from to : string) (w : World) : option World :=
  match disk w !! from with
  | Some f => Some (mkWorld (disk w) (<[to := f]> (workdir w)) (locked w))
  | None => None
  end.

End fs.

(** [XMLDocument::LoadFile] on what is found at a path: an error for a missing
    file, for one that is not XML and for an empty document. *)
Definition LoadFile (f : option file) : option (list XMLNode) :=
  match f with
  | Some (XmlFile (n :: l)) => Some (n :: l)
  | _ => None
  end.

(** [XMLDocument::SaveFile] into the working directory; it prints the linked
    tree. *)
Definition SaveFile (path : string) (nodes : list XMLNode) (w : World) : World :=
  mkWorld (disk w) (<[path := XmlFile nodes]> (workdir w)) (locked w).

(** [unzip] (lines 13-24): false when the archive cannot be opened. *)
Definition unzip (archive : string) (w : World) : bool * World :=
  match disk w !! archive with
  | Some (ZipFile tree) => (true, mkWorld (disk w) tree (locked w))
  | _ => (false, w)
  end.

(** [rezip] (lines 26-37): false when the archive cannot be created;
    otherwise the archive holds the tree of the working directory.  (Under
    which names zipper stores the files of a folder, and what it does with
    an archive that is already there, is not modelled.) *)
Definition rezip (archive : string) (w : World) : bool * World :=
  if decide (archive ∈ locked w) then (false, w)
  else (true, mkWorld (<[archive := ZipFile (workdir w)]> (disk w)) (workdir w) (locked w)).

(** [std::to_string(int)]. *)
Definition to_string (n : Z) : string := pretty n.

Definition INT_MAX : Z := 2147483647.

(** [std::string::find(sub) != npos]. *)
Fixpoint contains (sub s : string) : bool :=
  String.prefix sub s ||
  match s with
  | EmptyString => false
  | String _ rest => contains sub rest
  end.

(** ** How a call ends

    [Return b] is a normal return.  [Throw] is an exception that leaves
    [generateDocx] (nothing in it catches the [filesystem_error] of
    [fs::copy_file]).  [Undefined] is undefined behaviour: a member call
    through a null pointer, or the overflow of the [int] counter. *)
Inductive Exit := Return (b : bool) | Throw | Undefined.

(** A step of the generator either goes on with a value or ends the call,
    leaving the world as it is at that point. *)
Inductive step (A : Type) : Type :=
| Continue (a : A)
| Exits (x : Exit) (w : World).
Arguments Continue {A} a.
Arguments Exits {A} x w.

#[global] Instance step_bind : MBind step := fun A B k m =>
  match m with
  | Continue a => k a
  | Exits x w => Exits x w
  end.

(** A pointer that must not be null where the code uses it. *)
Definition nonnull {A : Type} (w : World) (o : option A) : step A :=
  match o with
  | Some a => Continue a
  | None => Exits Undefined w
  end.

Module reportgen.

Definition docXml : string := "word/document.xml".
Definition relsXml : string := "word/_rels/document.xml.rels".
Definition mediaDir : string := "word/media".

Definition image_relationship_type : string :=
  "http://schemas.openxmlformats.org/officeDocument/2006/relationships/image".

(** Lines 110-115: the new relationship element and its three attributes. *)
Definition newRel (rId imgName : string) : XMLNode :=
  SetAttribute "Target" ("media/" +:+ imgName)
    (SetAttribute "Type" image_relationship_type
       (SetAttribute "Id" rId (XMLElement "Relationship" [] []))).

(** The relationship document as [rels.LoadFile] leaves it: the forest of
    the file, or an empty document when the file does not load. *)
Definition rels_of (tree : gmap string file) : list XMLNode :=
  default [] (LoadFile (tree !! relsXml)).

Definition loaded_rels (w : World) : list XMLNode := rels_of (workdir w).

(** Lines 106-117: load the relationship file, append the record to the
    first element named [Relationships], save the file.  When the file does
    not load the document stays empty and [root] is null. *)
Definition update_rels (rId imgName : string) (w : World) : step World :=
  let rels := loaded_rels w in
  '(i, _) ← nonnull w (FirstChildElement "Relationships" rels);
  let rels' := alter (with_children (fun ch => ch ++ [newRel rId imgName])) i rels in
  Continue (SaveFile relsXml rels' w).

(** Lines 120-124: every child element of the page whose name contains
    [a:blip] gets the new [r:embed]. *)
Definition rewire_images (rId : string) (page : XMLNode) : XMLNode :=
  with_children
    (map (fun e2 =>
            if ToElement e2 && contains "a:blip" (Name e2)
            then SetAttribute "r:embed" rId e2
            else e2)) page.

(** Line 101 and line 111: the names made from the counter. *)
Definition imgName (relId : Z) (e : Entry) : string :=
  "image" +:+ to_string relId +:+ fs.extension (imagePath e).

Definition rId (relId : Z) : string := "rId" +:+ to_string relId.

(** The state of the loop over the entries. *)
Record Assembler := mkAssembler {
  doc : XMLDocument;
  world : World;
  relId : Z
}.

Section Generator.
Variable policy : GetTextPolicy.

(** Lines 129-135: the page break, built from three new elements. *)
Definition append_page_break (body : NodePtr) (w : World) (d : XMLDocument)
  : step XMLDocument :=
  let '(br, d) := NewElement "w:p" d in
  let '(run, d) := NewElement "w:r" d in
  let '(breakTag, d) := NewElement "w:br" d in
  let d := update (Unlinked breakTag) (SetAttribute "w:type" "page") d in
  d ← nonnull w (InsertEndChild (Unlinked run) breakTag d);
  d ← nonnull w (InsertEndChild (Unlinked br) run d);
  nonnull w (InsertEndChild body br d).

(** Lines 93-137: the body of the loop, for the entry [e].
    [fs::create_directories(mediaDir)] has nothing to do in a file system
    that is a map from paths to files. *)
Definition assemble_entry (body : NodePtr) (templateBlock : nat)
    (st : Assembler) (e : Entry) : step Assembler :=
  let w := world st in
  block ← nonnull w (deref (doc st) (Unlinked templateBlock));
  let '(page, d) := DeepClone block (doc st) in
  let d := update (Unlinked page) (replaceTokens policy "{{HEADER}}" (header e)) d in
  let d := update (Unlinked page) (replaceTokens policy "{{DESCRIPTION}}" (description e)) d in
  let imgName := imgName (relId st) e in
  match fs.copy_file (imagePath e) (mediaDir +:+ "/" +:+ imgName) w with
  | None => Exits Throw w
  | Some w =>
      let rId := rId (relId st) in
      w ← update_rels rId imgName w;
      let d := update (Unlinked page) (rewire_images rId) d in
      d ← nonnull w (InsertEndChild body page d);
      d ← append_page_break body w d;
      if decide (relId st = INT_MAX) then Exits Undefined w
      else Continue (mkAssembler d w (relId st + 1))
  end.

(** Line 91: the loop over the entries, in order. *)
Fixpoint assemble (body : NodePtr) (templateBlock : nat)
    (st : Assembler) (entries : list Entry) : step Assembler :=
  match entries with
  | [] => Continue st
  | e :: rest =>
      st' ← assemble_entry body templateBlock st e;
      assemble body templateBlock st' rest
  end.

(** Lines 62-77: the working directory is emptied, the template is
    extracted into it and the main document is parsed. *)
Definition open_template (templateDocx : string) (w : World) : step (XMLDocument * World) :=
  let w := fs.remove_all_tmp w in
  let '(ok, w) := unzip templateDocx w in
  if negb ok then Exits (Return false) w
  else
    match LoadFile (workdir w !! docXml) with
    | None => Exits (Return false) w
    | Some nodes => Continue (mkXMLDocument nodes ∅ 0, w)
    end.

(** Lines 80-88: the body is looked up, its first child is cloned as the
    template block and the body is emptied.  The result is the pointer to
    the body, the handle of the template block and the document. *)
Definition capture_template (w : World) (d : XMLDocument)
  : step (NodePtr * nat * XMLDocument) :=
  '(i, root) ← nonnull w (FirstChildElement "w:document" (linked d));
  match FirstChildElement "w:body" (child_nodes root) with
  | None => Exits (Return false) w
  | Some (j, bodyNode) =>
      let body := Linked [i; j] in
      first ← nonnull w (FirstChild bodyNode);
      let '(templateBlock, d) := DeepClone first d in
      let d := delete_all_children (length (child_nodes bodyNode)) body d in
      Continue (body, templateBlock, d)
  end.

(** Lines 140-143: the document is saved, the working directory is packed
    into the output and removed; the result of [rezip] is not looked at. *)
Definition finalize (outputDocx : string) (st : Assembler) : Exit * World :=
  let w := SaveFile docXml (linked (doc st)) (world st) in
  let '(_, w) := rezip outputDocx w in
  let w := fs.remove_all_tmp w in
  (Return true, w).

(** Lines 62-138: everything up to the end of the loop. *)
Definition assembled (templateDocx : string) (entries : list Entry) (w : World)
  : step Assembler :=
  '(d, w) ← open_template templateDocx w;
  '(body, templateBlock, d) ← capture_template w d;
  assemble body templateBlock (mkAssembler d w 10) entries.

(** Lines 58-144. *)
Definition generateDocx (templateDocx outputDocx : string)
    (entries : list Entry) (w : World) : Exit * World :=
  match assembled templateDocx entries w with
  | Continue st => finalize outputDocx st
  | Exits x w => (x, w)
  end.

End Generator.

(** ** What the generator is expected to produce

    The definitions below say, in the words of the specification, what a run
    leaves behind; the theorems compare them with what the code computes. *)

(** The page-break block: a paragraph with one run holding one break of type
    [page]. *)
Definition page_break : XMLNode :=
  XMLElement "w:p" [] [XMLElement "w:r" [] [XMLElement "w:br" [("w:type", "page")] []]].

(** The block of entry [e] under counter [c]: the template block with the two
    tokens substituted and the image references rewritten. *)
Definition stamped (policy : GetTextPolicy) (block : XMLNode) (c : Z) (e : Entry) : XMLNode :=
  rewire_images (rId c)
    (replaceTokens policy "{{DESCRIPTION}}" (description e)
       (replaceTokens policy "{{HEADER}}" (header e) block)).

(** For each entry in order, counting from [c]: its block, then one page break. *)
Fixpoint expected_pages (policy : GetTextPolicy) (block : XMLNode) (c : Z)
    (entries : list Entry) : list XMLNode :=
  match entries with
  | [] => []
  | e :: rest => stamped policy block c e :: page_break :: expected_pages policy block (c + 1) rest
  end.

(** For each entry in order, counting from [c]: its relationship record. *)
Fixpoint expected_rels (c : Z) (entries : list Entry) : list XMLNode :=
  match entries with
  | [] => []
  | e :: rest =>
      XMLElement "Relationship"
        [("Id", rId c); ("Type", image_relationship_type); ("Target", "media/" +:+ imgName c e)] []
      :: expected_rels (c + 1) rest
  end.

(** Where the image of entry [e] goes under counter [c]. *)
Definition media_path (c : Z) (e : Entry) : string :=
  mediaDir +:+ "/" +:+ imgName c e.

Fixpoint media_paths (c : Z) (entries : list Entry) : list string :=
  match entries with
  | [] => []
  | e :: rest => media_path c e :: media_paths (c + 1) rest
  end.

(** The block of an entry in the words of the specification: the template
    block with the header token and then the description token substituted,
    and with the [r:embed] attribute of every child element that has
    [a:blip] in its name set to the identifier made from the counter. *)
Definition with_image_reference (id : string) (e2 : XMLNode) : XMLNode :=
  match e2 with
  | XMLElement nm ats ch =>
      if contains "a:blip" nm then XMLElement nm (set_attribute "r:embed" id ats) ch else e2
  | _ => e2
  end.

Definition substituted_clone (block : XMLNode) (c : Z) (e : Entry) : XMLNode :=
  match
    substituted "{{DESCRIPTION}}" (description e)
      (substituted "{{HEADER}}" (header e) block)
  with
  | XMLElement nm ats ch =>
      XMLElement nm ats (map (with_image_reference ("rId" +:+ to_string c)) ch)
  | n => n
  end.

(** The body the specification asks for: for each entry in order, counting
    from [c], its block and then a paragraph that holds a page break. *)
Fixpoint expected_body (block : XMLNode) (c : Z) (entries : list Entry) : list XMLNode :=
  match entries with
  | [] => []
  | e :: rest =>
      substituted_clone block c e
      :: XMLElement "w:p" [] [XMLElement "w:r" [] [XMLElement "w:br" [("w:type", "page")] []]]
      :: expected_body block (c + 1) rest
  end.

(** The children of the body of a main document. *)
Definition document_body (nodes : list XMLNode) : option (list XMLNode) :=
  match FirstChildElement "w:document" nodes with
  | None => None
  | Some (_, root) =>
      match FirstChildElement "w:body" (child_nodes root) with
      | None => None
      | Some (_, body) => Some (child_nodes body)
      end
  end.

(** The records of a relationship file, and their identifiers. *)
Definition relationship_table (nodes : list XMLNode) : option (list XMLNode) :=
  match FirstChildElement "Relationships" nodes with
  | None => None
  | Some (_, root) => Some (child_nodes root)
  end.

Definition relationship_ids (table : list XMLNode) : list string :=
  omap (Attribute "Id") table.

(** The files of the archive at [path]. *)
Definition archive_at (path : string) (w : World) : option (gmap string file) :=
  match disk w !! path with
  | Some (ZipFile tree) => Some tree
  | _ => None
  end.

(** Every handle of the pool was given out before [next_handle]. *)
Definition pool_ok (d : XMLDocument) : Prop :=
  ∀ h : nat, (next_handle d ≤ h)%nat → unlinked d !! h = None.

(** The loop is under way: the pool is in order, the template block is in it
    under [tb], and the body pointer points to an element. *)
Definition ready (p : list nat) (tb : nat) (block : XMLNode) (st : Assembler) : Prop :=
  pool_ok (doc st) ∧
  unlinked (doc st) !! tb = Some block ∧
  ∃ nm ats ch, node_at (linked (doc st)) p = Some (XMLElement nm ats ch).

(** The state after an iteration that goes on: the block of the entry and a
    page break at the end of the body, the image [f] in the media directory,
    the record at the end of the relationship element at position [i]. *)
Definition after_entry (policy : GetTextPolicy) (p : list nat) (block : XMLNode)
    (st : Assembler) (e : Entry) (f : file) (i : nat) : Assembler :=
  let c := relId st in
  let w := world st in
  mkAssembler
    (mkXMLDocument
       (alter_at (with_children (fun ch => ch ++ [stamped policy block c e; page_break]))
          p (linked (doc st)))
       (unlinked (doc st)) (4 + next_handle (doc st)))
    (mkWorld (disk w)
       (<[relsXml :=
            XmlFile (alter (with_children (fun ch => ch ++ expected_rels c [e])) i
                       (loaded_rels w))]>
          (<[media_path c e := f]> (workdir w)))
       (locked w))
    (c + 1).

(** The document after [capture_template]: the body emptied, its first child
    in the pool under handle 0. *)
Definition captured (nodes : list XMLNode) (i j : nat) (first : XMLNode) : XMLDocument :=
  mkXMLDocument (alter_at (with_children (fun _ => [])) [i; j] nodes) (<[0%nat := first]> ∅) 1.

(** The world after the template was extracted. *)
Definition extracted (tree : gmap string file) (w : World) : World :=
  mkWorld (disk w) tree (locked w).

End reportgen.

(** A function on siblings that keeps every node that is not an element and
    maps elements to elements. *)
Definition keeps_leaves (g : XMLNode → XMLNode) : Prop :=
  ∀ e, if ToElement e then ToElement (g e) = true else g e = e.

(** What a token is replaced by, on the text of a leaf. *)
Definition subst_string (key val s : string) : string :=
  if String.eqb key s then val else s.

(** Decimal digits, for the names made from the counter. *)
Definition is_digit (c : ascii) : bool :=
  existsb (Ascii.eqb c)
    ["0"; "1"; "2"; "3"; "4"; "5"; "6"; "7"; "8"; "9"]%char.

Fixpoint all_digits (s : string) : bool :=
  match s with
  | EmptyString => true
  | String c rest => is_digit c && all_digits rest
  end.

Definition starts_with_digit (s : string) : bool :=
  match s with
  | EmptyString => false
  | String c _ => is_digit c
  end.

(** No character of [s] satisfies [p]. *)
Fixpoint free_of (p : ascii → bool) (s : string) : bool :=
  match s with
  | EmptyString => true
  | String c rest => negb (p c) && free_of p rest
  end.

(** ** Sample inputs

    The scenario of the specification: a template whose block holds the two
    tokens and one image reference, two entries with their images on disk,
    and variations of it. *)
Module sample.

Definition run (text : string) : XMLNode :=
  XMLElement "w:r" [] [XMLElement "w:t" [] [XMLText false text]].

Definition blip (id : string) : XMLNode :=
  XMLElement "a:blip" [("r:embed", id)] [].

(** The template block: the image reference is a child of the block. *)
Definition block : XMLNode :=
  XMLElement "w:p" [] [run "{{HEADER}}"; run "{{DESCRIPTION}}"; blip "rId5"].

(** A block with two image references among its children. *)
Definition two_image_block : XMLNode :=
  XMLElement "w:p" [] [run "{{HEADER}}"; blip "rId5"; blip "rId6"].

(** A block as Word writes it: the image reference lies inside a drawing. *)
Definition drawing_block : XMLNode :=
  XMLElement "w:p" []
    [run "{{HEADER}}";
     XMLElement "w:r" [] [XMLElement "w:drawing" [] [blip "rId5"]]].

(** A text run that holds a comment before the token. *)
Definition commented_run : XMLNode :=
  XMLElement "w:r" [] [XMLElement "w:t" [] [XMLComment "title"; XMLText false "{{HEADER}}"]].

(** A text run whose token is followed by more text, in a CDATA section. *)
Definition mixed_run : XMLNode :=
  XMLElement "w:r" []
    [XMLElement "w:t" [] [XMLText false "{{HEADER}}"; XMLText true " and more"]].

Definition document (blocks : list XMLNode) : list XMLNode :=
  [XMLDeclaration "xml version=1.0";
   XMLElement "w:document" [] [XMLElement "w:body" [] blocks]].

Definition relationship (id target : string) : XMLNode :=
  XMLElement "Relationship"
    [("Id", id); ("Type", reportgen.image_relationship_type); ("Target", target)] [].

Definition rels (records : list XMLNode) : list XMLNode :=
  [XMLElement "Relationships" [] records].

Definition template (blocks records : list XMLNode) : gmap string file :=
  <[reportgen.docXml := XmlFile (document blocks)]>
    (<[reportgen.relsXml := XmlFile (rels records)]> ∅).

Definition world (tree : gmap string file) (locked : gset string) : World :=
  mkWorld
    (<["template.docx" := ZipFile tree]>
       (<["a.png" := Blob "A"]> (<["b.jpg" := Blob "B"]> ∅)))
    ∅ locked.

Definition entries : list Entry :=
  [mkEntry "A" "d1" "a.png"; mkEntry "B" "d2" "b.jpg"].

(** The template of the scenario, with a section block after the page block
    and one relationship of its own. *)
Definition scenario : World :=
  world (template [block; XMLElement "w:sectPr" [] []]
           [relationship "rId5" "media/image1.png"]) ∅.

(** The loop state right after the template of [scenario] was captured. *)
Definition scenario_state : reportgen.Assembler :=
  reportgen.mkAssembler
    (reportgen.captured (document [block; XMLElement "w:sectPr" [] []]) 1 0 block)
    (reportgen.extracted
       (template [block; XMLElement "w:sectPr" [] []]
          [relationship "rId5" "media/image1.png"]) scenario)
    10.

(** The run of the scenario. *)
Definition outcome : Exit * World :=
  reportgen.generateDocx SkipLeadingComments "template.docx" "out.docx" entries scenario.

(** The state after the first entry was assembled from [scenario_state]. *)
Definition scenario_next : reportgen.Assembler :=
  match
    reportgen.assemble_entry SkipLeadingComments (Linked [1; 0]%nat) 0 scenario_state
      (mkEntry "A" "d1" "a.png")
  with
  | Continue st => st
  | Exits _ _ => scenario_state
  end.

(** A template whose body has no children. *)
Definition empty_body : World :=
  world (template [] [relationship "rId5" "media/image1.png"]) ∅.

(** The scenario with an output path at which no file can be created. *)
Definition locked_output : World :=
  world (template [block] [relationship "rId5" "media/image1.png"]) {["out.docx"]}.

(** The scenario without a relationship file in the template. *)
Definition no_relationships : World :=
  world (<[reportgen.docXml := XmlFile (document [block])]> ∅) ∅.

(** A template that already has a relationship with the identifier rId10. *)
Definition clash : World :=
  world (template [block]
           [relationship "rId5" "media/image1.png";
            relationship "rId10" "media/image2.png"]) ∅.

(** A template whose main document has no body element. *)
Definition no_body : World :=
  world (<[reportgen.docXml := XmlFile [XMLElement "w:document" [] []]]> ∅) ∅.

(** A template whose main document is not a Word document. *)
Definition no_document : World :=
  world (<[reportgen.docXml := XmlFile [XMLElement "html" [] []]]> ∅) ∅.

(** The scenario with a style sheet among the parts of the template. *)
Definition styled : World :=
  world (<["word/styles.xml" := Blob "styles"]>
           (template [block] [relationship "rId5" "media/image1.png"])) ∅.

End sample.

(** ** The image tool

    The two programs of the repository that prepare the images of a report,
    [Motorola Scout Rapport Tool V1.cpp] and its later revision (both have the
    header [img_modulate_tool.cpp]): they walk the folder of the executable,
    list its PNG files, write a filtered copy [<stem>_GreyFilter<ext>] next
    to each, and lay a scale or legend image over the copies, written as
    [<stem>_GreyFilter_WithScale<ext>].  The functions that both files have
    in the same form come first.  The paths are those the directory
    iterator yields below the folder of the executable: each ends in a
    separator followed by the file name, and no file name holds a colon. *)
Module img_modulate_tool.

(** [std::tolower] on an [unsigned char], in the "C" locale the programs run
    in: the letters A to Z go to a to z, every other character stays. *)
Definition tolower (c : ascii) : ascii :=
  let n := nat_of_ascii c in
  if (65 <=? n)%nat && (n <=? 90)%nat then ascii_of_nat (n + 32) else c.

(** [std::transform(ext.begin(), ext.end(), ext.begin(), tolower)]. *)
Fixpoint lower (s : string) : string :=
  match s with
  | EmptyString => EmptyString
  | String c rest => String (tolower c) (lower rest)
  end.

(** The loop of [iequals] over the positions of two strings of one size. *)
Fixpoint same_lower (a b : string) : bool :=
  match a, b with
  | String x a', String y b' => Ascii.eqb (tolower x) (tolower y) && same_lower a' b'
  | _, _ => true
  end.

(** [iequals]: the sizes are compared first, then the characters. *)
Definition iequals (a b : string) : bool :=
  if negb (String.length a =? String.length b)%nat then false
  else same_lower a b.

(** [has_png_ext]. *)
Definition has_png_ext (p : string) : bool :=
  String.eqb (lower (fs.extension p)) ".png".

(** The console: the lines still to be read from [std::cin], and what was
    written to [std::cout]. *)
Record Console := mkConsole {
  cin : list string;
  cout : list string
}.

(** [ask]: the prompt is written, one line is read; at the end of the input
    [std::getline] leaves the line empty. *)
Definition ask (prompt : string) (c : Console) : string * Console :=
  (hd "" (cin c), mkConsole (tl (cin c)) (cout c ++ [prompt])).

(** [yesno]. *)
Definition yesno (prompt : string) (def : bool) (c : Console) : bool * Console :=
  let '(line, c) := ask (prompt +:+ (if def then " [Y/n] " else " [y/N] ")) c in
  (match line with
   | EmptyString => def
   | String c0 _ =>
       let ch := tolower c0 in
       Ascii.eqb ch "y" || Ascii.eqb ch "1" || iequals line "yes"
   end, c).

(** [output_grey_name] and [output_scaled_name]. *)
Definition output_grey_name (p : string) : string :=
  fs.replace_filename p (fs.stem p +:+ "_GreyFilter" +:+ fs.extension p).

Definition output_scaled_name (grey : string) : string :=
  fs.replace_filename grey (fs.stem grey +:+ "_WithScale" +:+ fs.extension grey).

(** *** Motorola Scout Rapport Tool V1.cpp *)
Module v1.

(** [list_folders_and_pngs], lines 98-108: of the regular files that the
    directory iterator yields, in its order, those with a PNG extension are
    appended to [pngs].  (The count per folder is only printed.) *)
Fixpoint list_folders_and_pngs (files pngs : list string) : list string :=
  match files with
  | [] => pngs
  | p :: rest =>
      if has_png_ext p then list_folders_and_pngs rest (pngs ++ [p])
      else list_folders_and_pngs rest pngs
  end.

Inductive Edge := Top | Right | Bottom | Left.

(** A value of type [ssize_t], which has [bits] bits (64 in a 64-bit build,
    32 in a 32-bit one); arithmetic that leaves the range is undefined. *)
Definition ssize_t (bits : Z) (z : Z) : option Z :=
  if decide (- 2 ^ (bits - 1) ≤ z < 2 ^ (bits - 1))%Z then Some z else None.

(** [std::max<ssize_t>(0, z)]. *)
Definition max0 (z : Z) : Z := Z.max 0 z.

(** [static_cast<ssize_t>] of a [size_t] value: the value modulo 2^bits,
    read as a signed number. *)
Definition to_ssize_t (bits : Z) (n : Z) : Z :=
  ((n + 2 ^ (bits - 1)) mod 2 ^ bits - 2 ^ (bits - 1))%Z.

(** [composite_scale_on_edge], lines 196-221: where the overlay of [sW] by
    [sH] pixels is put on a canvas of [bW] by [bH] pixels.  The four sizes
    are [size_t] values and are cast to [ssize_t] first (lines 197-200).
    The division of C++ truncates towards zero. *)
Definition overlay_offset (bits : Z) (edge : Edge) (bW bH sW sH : Z) : option (Z * Z) :=
  let pad := 10%Z in
  let sW := to_ssize_t bits sW in
  let sH := to_ssize_t bits sH in
  let bW := to_ssize_t bits bW in
  let bH := to_ssize_t bits bH in
  let centred (b s : Z) : option Z :=
    d ← ssize_t bits (b - s); Some (max0 (Z.quot d 2)) in
  let far (b s : Z) : option Z :=
    d ← ssize_t bits (b - s); d ← ssize_t bits (d - pad); Some (max0 d) in
  match edge with
  | Right => x ← far bW sW; y ← centred bH sH; Some (x, y)
  | Left => y ← centred bH sH; Some (pad, y)
  | Top => x ← centred bW sW; Some (x, pad)
  | Bottom => x ← centred bW sW; y ← far bH sH; Some (x, y)
  end.

End v1.

(** *** The later revision (src/unnamed/part_000) *)
Module v2.

(** [short_path], lines 65-75.  [find_last_of] looks for the last slash or
    backslash, and [substr(pos + 1)] is what follows it. *)
Definition short_path (full : string) : string :=
  let s := full in
  if (String.length s <=? 60)%nat then s
  else
    match fs.after_last fs.is_separator s with
    | Some name => ".../" +:+ name
    | None => ".../" +:+ String.substring (String.length s - 20) 20 s
    end.

(** [list_folders_and_pngs], lines 185-203: as before, but a file whose stem
    contains [_GreyFilter] or [_WithScale] is passed over. *)
Fixpoint list_folders_and_pngs (files pngs : list string) : list string :=
  match files with
  | [] => pngs
  | p :: rest =>
      if negb (has_png_ext p) then list_folders_and_pngs rest pngs
      else if contains "_GreyFilter" (fs.stem p) || contains "_WithScale" (fs.stem p)
      then list_folders_and_pngs rest pngs
      else list_folders_and_pngs rest (pngs ++ [p])
  end.

(** [std::string::rfind(sub)]: the last position at which [sub] occurs. *)
Fixpoint rfind (sub s : string) : option nat :=
  match s with
  | EmptyString => if String.prefix sub "" then Some 0%nat else None
  | String _ rest =>
      match rfind sub rest with
      | Some i => Some (S i)
      | None => if String.prefix sub s then Some 0%nat else None
      end
  end.

(** [main], lines 463-468: the stem of the image that a [_GreyFilter] file
    was made from. *)
Definition baseStem (greyStem : string) : string :=
  let suffix := "_GreyFilter" in
  if (String.length suffix <? String.length greyStem)%nat
     && bool_decide (rfind suffix greyStem
                     = Some (String.length greyStem - String.length suffix)%nat)
  then String.substring 0 (String.length greyStem - String.length suffix) greyStem
  else greyStem.

End v2.

End img_modulate_tool.

(** * Properties *)

Import reportgen.

(** ** replaceTokens *)

Section TokenFacts.
Variable policy : GetTextPolicy.
Implicit Types (key val : string) (n e : XMLNode).

Lemma replaceTokens_ToElement key val n :
  ToElement (replaceTokens policy key val n) = ToElement n.
Proof. by destruct n. Qed.

Lemma replaceTokens_Name key val n :
  Name (replaceTokens policy key val n) = Name n.
Proof. by destruct n. Qed.

Lemma SetText_ToElement e v : ToElement (SetText e v) = ToElement e.
Proof. destruct e as [nm ats [|[] ?]| | | |]; done. Qed.

Lemma SetText_Name e v : Name (SetText e v) = Name e.
Proof. destruct e as [nm ats [|[] ?]| | | |]; done. Qed.

Lemma SetText_children e v :
  ToElement e = true →
  child_nodes (SetText e v) =
    match child_nodes e with
    | XMLText c _ :: rest => XMLText c v :: rest
    | ch => XMLText false v :: ch
    end.
Proof. destruct e as [nm ats [|[] ?]| | | |]; done. Qed.

Lemma skip_comments_map g l :
  keeps_leaves g → skip_comments (map g l) = map g (skip_comments l).
Proof.
  intros Hg. induction l as [|x l IH]; [done|].
  specialize (Hg x). destruct x; simpl in *; try (rewrite Hg; done).
  destruct (g _); done.
Qed.

Lemma head_text_map g l :
  keeps_leaves g →
  match map g l with XMLText _ v :: _ => Some v | _ => None end =
  match l with XMLText _ v :: _ => Some v | _ => None end.
Proof.
  intros Hg. destruct l as [|x l]; [done|].
  specialize (Hg x). destruct x; simpl in *; try (rewrite Hg; done).
  destruct (g _); done.
Qed.

Lemma replace_child_keeps key val :
  keeps_leaves (fun e =>
    if ToElement e then
      if token_hit policy key e then SetText (replaceTokens policy key val e) val
      else replaceTokens policy key val e
    else e).
Proof.
  intros e. destruct (ToElement e) eqn:He; [|done].
  simpl. destruct (token_hit _ _ _);
    rewrite ?SetText_ToElement, replaceTokens_ToElement; done.
Qed.

Lemma GetText_replaceTokens key val n :
  GetText policy (replaceTokens policy key val n) = GetText policy n.
Proof.
  destruct n as [nm ats ch| | | |]; try done.
  pose proof (replace_child_keeps key val) as Hk.
  unfold GetText. simpl. destruct policy.
  - by apply head_text_map.
  - rewrite skip_comments_map by done. by apply head_text_map.
Qed.

Lemma GetText_SetText e v :
  ToElement e = true → GetText policy (SetText e v) = Some v.
Proof.
  intros He. unfold GetText. rewrite SetText_children by done.
  destruct policy, (child_nodes e) as [|[] ?]; done.
Qed.

Lemma SetText_cons nm ats x l v :
  SetText (XMLElement nm ats (x :: l)) v =
  if ToText x then XMLElement nm ats (XMLText (match x with XMLText c _ => c | _ => false end) v :: l)
  else XMLElement nm ats (XMLText false v :: x :: l).
Proof. by destruct x. Qed.

Lemma keeps_leaves_ToText g x : keeps_leaves g → ToText (g x) = ToText x.
Proof.
  intros Hg. specialize (Hg x). destruct x; simpl in *; try (by rewrite Hg).
  by destruct (g _).
Qed.

Lemma replaceTokens_SetText key val e v :
  ToElement e = true →
  replaceTokens policy key val (SetText e v) = SetText (replaceTokens policy key val e) v.
Proof.
  destruct e as [nm ats ch| | | |]; try done. intros _.
  destruct ch as [|x r]; [done|].
  pose proof (replace_child_keeps key val) as Hk.
  cbn [replaceTokens map]. rewrite !SetText_cons.
  rewrite (keeps_leaves_ToText _ x Hk).
  destruct (ToText x) eqn:Hx.
  - destruct x; try done.
  - done.
Qed.

(** The loop of [replaceTokens] in the order of the source. *)
Lemma replaceTokens_loop_body key val nm ats ch :
  replaceTokens policy key val (XMLElement nm ats ch) =
  XMLElement nm ats (map (visit_child policy key val) ch).
Proof.
  simpl. f_equal. apply map_ext. intros e. unfold visit_child.
  destruct (ToElement e) eqn:He; [|done].
  destruct (token_hit policy key e); [|done].
  by rewrite replaceTokens_SetText.
Qed.

Lemma run_texts_SetText e v :
  ToElement e = true → run_texts policy (SetText e v) = run_texts policy e.
Proof.
  destruct e as [nm ats ch| | | |]; try done. intros _.
  destruct ch as [|x r]; [done|]. rewrite SetText_cons.
  destruct x; done.
Qed.

Lemma token_hit_spec key e :
  token_hit policy key e = true ↔
  Name e = "w:t" ∧ GetText policy e = Some key.
Proof.
  unfold token_hit. rewrite andb_true_iff, String.eqb_eq.
  destruct (GetText policy e) as [t|].
  - rewrite String.eqb_eq. split; intros [? ?]; split; congruence.
  - split; intros [? ?]; discriminate.
Qed.

Lemma subst_text_miss key val e :
  Name e = "w:t" → token_hit policy key e = false →
  subst_text key val (GetText policy e) = GetText policy e.
Proof.
  unfold token_hit. intros ->. simpl.
  destruct (GetText policy e) as [t|]; [|done]. simpl. by intros ->.
Qed.

Lemma run_texts_replaceTokens key val n :
  run_texts policy (replaceTokens policy key val n) =
  map (subst_text key val) (run_texts policy n).
Proof.
  induction n as [nm ats ch IH| | | |] using XMLNode_tree_ind; try done.
  cbn [replaceTokens run_texts].
  induction IH as [|e ch He _ IHch]; [done|].
  cbn [map flat_map]. rewrite map_app, <- IHch. f_equal.
  destruct (ToElement e) eqn:Hel; [|by rewrite Hel].
  destruct (token_hit policy key e) eqn:Hhit.
  - rewrite SetText_ToElement, replaceTokens_ToElement, Hel.
    rewrite SetText_Name, replaceTokens_Name.
    rewrite GetText_SetText by (by rewrite replaceTokens_ToElement).
    rewrite run_texts_SetText by (by rewrite replaceTokens_ToElement).
    rewrite map_app, He.
    apply token_hit_spec in Hhit as Hh. destruct Hh as [-> Hg].
    simpl. rewrite Hg. simpl. by rewrite String.eqb_refl.
  - rewrite replaceTokens_ToElement, Hel, replaceTokens_Name, GetText_replaceTokens.
    rewrite map_app, He. f_equal.
    destruct (String.eqb (Name e) "w:t") eqn:Hn; [|done].
    apply String.eqb_eq in Hn. simpl. by rewrite subst_text_miss.
Qed.

(** Without a hit below [n] the call changes nothing. *)
Lemma replaceTokens_no_hit key val n :
  Some key ∉ run_texts policy n → replaceTokens policy key val n = n.
Proof.
  induction n as [nm ats ch IH| | | |] using XMLNode_tree_ind; try done.
  cbn [replaceTokens run_texts]. intros Hnot. f_equal.
  induction IH as [|e ch He _ IHch]; [done|].
  cbn [flat_map] in Hnot. rewrite elem_of_app in Hnot.
  cbn [map]. rewrite IHch by tauto. f_equal.
  destruct (ToElement e) eqn:Hel; [|done].
  assert (Some key ∉ (if String.eqb (Name e) "w:t" then [GetText policy e] else []) ++
                      run_texts policy e) as Hne by tauto.
  rewrite elem_of_app in Hne.
  rewrite He by tauto.
  destruct (token_hit policy key e) eqn:Hhit; [|done].
  apply token_hit_spec in Hhit as [Hn Hg]. exfalso. apply Hne. left.
  rewrite Hn, Hg. simpl. apply list_elem_of_singleton. done.
Qed.

Lemma leaf_text_cons2 nm ats a b l : leaf_text (XMLElement nm ats (a :: b :: l)) = [].
Proof. by destruct a. Qed.

Lemma leaf_text_nontext nm ats a l :
  ToText a = false → leaf_text (XMLElement nm ats (a :: l)) = [].
Proof. by destruct a. Qed.

Lemma leaf_text_replace_child key val e :
  ToElement e = true →
  leaf_text (if token_hit policy key e then SetText (replaceTokens policy key val e) val
             else replaceTokens policy key val e)
  = map (subst_string key val) (leaf_text e).
Proof.
  destruct e as [nm ats ch| | | |]; try done. intros _.
  pose proof (replace_child_keeps key val) as Hk.
  destruct ch as [|x [|y r]].
  - unfold token_hit, GetText. simpl. destruct policy; simpl; by rewrite andb_false_r.
  - destruct (ToText x) eqn:Hx.
    + destruct x; try done. unfold token_hit, GetText, subst_string.
      cbn [replaceTokens map ToElement Name child_nodes skip_comments leaf_text].
      assert (match policy with
              | FirstChildOnly => [XMLText cdata value]
              | SkipLeadingComments => [XMLText cdata value] end = [XMLText cdata value]) as ->
        by (by destruct policy).
      destruct (String.eqb nm "w:t") eqn:Hn; simpl; rewrite ?Hn; [|done].
      destruct (String.eqb key value); simpl; by rewrite Hn.
    + cbn [replaceTokens map].
      pose proof (keeps_leaves_ToText _ x Hk) as Hx'. rewrite Hx in Hx'.
      rewrite (leaf_text_nontext _ _ x) by done.
      match goal with |- context [if ?b then _ else _] => destruct b end.
      * rewrite SetText_cons, Hx'. apply leaf_text_cons2.
      * by apply leaf_text_nontext.
  - cbn [replaceTokens map]. rewrite (leaf_text_cons2 _ _ x).
    match goal with |- context [if ?b then _ else _] => destruct b end.
    + rewrite SetText_cons.
      match goal with |- context [ToText ?t] => destruct (ToText t) end;
        apply leaf_text_cons2.
    + apply leaf_text_cons2.
Qed.

Lemma leaf_texts_SetText e v :
  ToElement e = true → leaf_texts (SetText e v) = leaf_texts e.
Proof.
  destruct e as [nm ats ch| | | |]; try done. intros _.
  destruct ch as [|x r]; [done|]. rewrite SetText_cons.
  destruct x; done.
Qed.

Lemma leaf_texts_replaceTokens key val n :
  leaf_texts (replaceTokens policy key val n) =
  map (subst_string key val) (leaf_texts n).
Proof.
  induction n as [nm ats ch IH| | | |] using XMLNode_tree_ind; try done.
  cbn [replaceTokens leaf_texts].
  induction IH as [|e ch He _ IHch]; [done|].
  cbn [map flat_map]. rewrite map_app, <- IHch. f_equal.
  destruct (ToElement e) eqn:Hel; [|by rewrite Hel].
  assert (ToElement (if token_hit policy key e
                     then SetText (replaceTokens policy key val e) val
                     else replaceTokens policy key val e) = true) as ->.
  { destruct (token_hit _ _ _); by rewrite ?SetText_ToElement, replaceTokens_ToElement. }
  rewrite leaf_text_replace_child by done.
  rewrite map_app. f_equal. rewrite <- He.
  destruct (token_hit _ _ _); [|done].
  apply leaf_texts_SetText. by rewrite replaceTokens_ToElement.
Qed.

Lemma frame_replaceTokens key val n :
  has_stray_hit policy key n = false →
  outside_run_texts (replaceTokens policy key val n) = outside_run_texts n.
Proof.
  induction n as [nm ats ch IH| | | |] using XMLNode_tree_ind; try done.
  cbn [replaceTokens outside_run_texts has_stray_hit]. intros Hs. f_equal.
  induction IH as [|e ch He _ IHch]; [done|].
  cbn [existsb] in Hs. apply orb_false_iff in Hs as [Hse Hsch].
  cbn [map]. rewrite IHch by done. f_equal.
  destruct (ToElement e) eqn:Hel; [|by rewrite Hel].
  simpl in Hse. apply orb_false_iff in Hse as [Hstray Hdeep].
  specialize (He Hdeep).
  destruct (token_hit policy key e) eqn:Hhit.
  - rewrite SetText_ToElement, replaceTokens_ToElement, Hel.
    rewrite SetText_Name, replaceTokens_Name.
    apply token_hit_spec in Hhit as Hh. destruct Hh as [Hn _]. rewrite Hn. simpl.
    unfold stray_hit in Hstray. rewrite Hhit in Hstray. simpl in Hstray.
    destruct e as [enm eats [|[] er]| | | |]; try done.
    rewrite <- He. done.
  - rewrite replaceTokens_ToElement, Hel, replaceTokens_Name. by rewrite He.
Qed.

Lemma node_count_blank e : node_count (blank_leading_text e) = node_count e.
Proof. destruct e as [nm ats [|[] r]| | | |]; done. Qed.

Lemma node_count_outside n : node_count (outside_run_texts n) = node_count n.
Proof.
  induction n as [nm ats ch IH| | | |] using XMLNode_tree_ind; try done.
  cbn [outside_run_texts node_count]. f_equal. f_equal.
  induction IH as [|e ch He _ IHch]; [done|].
  cbn [map]. rewrite IHch. f_equal.
  destruct (ToElement e); [|done].
  destruct (String.eqb _ _); by rewrite ?node_count_blank.
Qed.

Lemma node_count_replaceTokens key val n :
  has_stray_hit policy key n = false →
  node_count (replaceTokens policy key val n) = node_count n.
Proof.
  intros Hs. rewrite <- node_count_outside, frame_replaceTokens by done.
  apply node_count_outside.
Qed.
End TokenFacts.

Lemma stray_hit_first_child_only key e : stray_hit FirstChildOnly key e = false.
Proof.
  unfold stray_hit, token_hit, GetText.
  destruct (child_nodes e) as [|[] ?]; simpl; by rewrite ?andb_false_r.
Qed.

Lemma no_stray_hit_first_child_only key n : has_stray_hit FirstChildOnly key n = false.
Proof.
  induction n as [nm ats ch IH| | | |] using XMLNode_tree_ind; try done.
  cbn [has_stray_hit]. induction IH as [|e ch He _ IHch]; [done|].
  cbn [existsb]. rewrite IHch, He, stray_hit_first_child_only.
  by destruct (ToElement e).
Qed.

(** *** The code and the substitution of the specification *)

Section SubstitutionFacts.
Variable policy : GetTextPolicy.
Implicit Types (key val : string) (n e : XMLNode).

(** On a child element without a stray hit, the loop body of the code is the
    overwriting of the specification. *)
Lemma visit_overwrite key val e :
  ToElement e = true → stray_hit policy key e = false →
  (if token_hit policy key e then SetText (replaceTokens policy key val e) val
   else replaceTokens policy key val e)
  = overwrite_leading key val (replaceTokens policy key val e).
Proof.
  destruct e as [nm ats ch| | | |]; try done. intros _.
  unfold stray_hit, token_hit, GetText. cbn [Name child_nodes replaceTokens].
  destruct ch as [|x ch].
  - destruct policy; cbn; by rewrite andb_false_r.
  - pose proof (keeps_leaves_ToText _ x (replace_child_keeps policy key val)) as Hx.
    cbn [map]. destruct x as [? ? ?|c t| | |]; cbn [ToText] in Hx.
    + rewrite andb_true_r. intros ->.
      by destruct (if ToElement _ then _ else _).
    + assert ((if ToElement (XMLText c t) then
                 if token_hit policy key (XMLText c t)
                 then SetText (replaceTokens policy key val (XMLText c t)) val
                 else replaceTokens policy key val (XMLText c t)
               else XMLText c t) = XMLText c t) as -> by done.
      intros _. cbn [overwrite_leading SetText].
      assert (match policy with
              | FirstChildOnly => XMLText c t :: ch
              | SkipLeadingComments => skip_comments (XMLText c t :: ch)
              end = XMLText c t :: ch) as -> by (by destruct policy).
      by destruct (String.eqb nm "w:t" && String.eqb key t).
    + rewrite andb_true_r. intros ->.
      by destruct (if ToElement _ then _ else _).
    + rewrite andb_true_r. intros ->.
      by destruct (if ToElement _ then _ else _).
    + rewrite andb_true_r. intros ->.
      by destruct (if ToElement _ then _ else _).
Qed.

Lemma overwrite_leading_leaf key val e : ToElement e = false → overwrite_leading key val e = e.
Proof. by destruct e. Qed.

Lemma replaceTokens_substituted key val n :
  has_stray_hit policy key n = false →
  replaceTokens policy key val n = substituted key val n.
Proof.
  induction n as [nm ats ch IH| | | |] using XMLNode_tree_ind; try done.
  cbn [has_stray_hit replaceTokens substituted]. intros Hs. f_equal.
  induction IH as [|e ch He _ IHch]; [done|].
  cbn [existsb] in Hs. apply orb_false_iff in Hs as [Hse Hs].
  cbn [map]. rewrite (IHch Hs). f_equal.
  destruct (ToElement e) eqn:Hel.
  - cbn [andb] in Hse. apply orb_false_iff in Hse as [Hstray Hdeep].
    rewrite visit_overwrite by done. by rewrite (He Hdeep).
  - destruct e; try done.
Qed.

Lemma substituted_child_keeps key val :
  keeps_leaves (fun e => overwrite_leading key val (substituted key val e)).
Proof.
  intros e. destruct e as [nm ats ch| | | |]; try done. cbn.
  destruct (map _ ch) as [|[] ?]; try done. by destruct (_ && _).
Qed.

Lemma has_stray_hit_overwrite_leading key key' val e :
  has_stray_hit policy key' (overwrite_leading key val e) = has_stray_hit policy key' e.
Proof.
  destruct e as [nm ats [|[] ch]| | | |]; try done.
  cbn [overwrite_leading]. by destruct (_ && _).
Qed.

Lemma stray_hit_substituted_child key key' val e :
  stray_hit policy key' (overwrite_leading key val (substituted key val e))
  = stray_hit policy key' e.
Proof.
  destruct e as [nm ats ch| | | |]; try done. cbn [substituted].
  destruct ch as [|x ch]; [done|].
  pose proof (substituted_child_keeps key val x) as Hx. cbn beta in Hx.
  cbn [map].
  destruct x as [xn xa xc|c t|v|v|v]; cbn [ToElement] in Hx; rewrite ?Hx.
  - destruct (overwrite_leading key val (substituted key val (XMLElement xn xa xc)))
      as [yn ya yc| | | |]; try done.
    cbn [overwrite_leading]. unfold stray_hit, token_hit, GetText.
    cbn [Name child_nodes]. by destruct policy.
  - cbn [overwrite_leading]. unfold stray_hit.
    destruct (String.eqb nm "w:t" && String.eqb key t); cbn [child_nodes];
      by rewrite !andb_false_r.
  - cbn [overwrite_leading]. unfold stray_hit, token_hit, GetText.
    cbn [Name child_nodes]. destruct policy; [done|]. cbn [skip_comments].
    rewrite (skip_comments_map _ _ (substituted_child_keeps key val)).
    by rewrite (head_text_map _ _ (substituted_child_keeps key val)).
  - cbn [overwrite_leading]. unfold stray_hit, token_hit, GetText.
    cbn [Name child_nodes]. by destruct policy.
  - cbn [overwrite_leading]. unfold stray_hit, token_hit, GetText.
    cbn [Name child_nodes]. by destruct policy.
Qed.

(** The substitution of the specification makes no stray hit and removes
    none, for any token. *)
Lemma has_stray_hit_substituted key key' val n :
  has_stray_hit policy key' (substituted key val n) = has_stray_hit policy key' n.
Proof.
  induction n as [nm ats ch IH| | | |] using XMLNode_tree_ind; try done.
  cbn [has_stray_hit substituted].
  induction IH as [|e ch He _ IHch]; [done|].
  cbn [map existsb]. rewrite IHch. f_equal.
  pose proof (substituted_child_keeps key val e) as Hk. cbn beta in Hk.
  destruct (ToElement e) eqn:Hel; [|by rewrite Hk, Hel].
  by rewrite Hk, stray_hit_substituted_child, has_stray_hit_overwrite_leading, He.
Qed.

End SubstitutionFacts.

(** *** The claims about replaceTokens *)

(** C7 (as amended).  For every subtree, token and value, the substitution
    reaches every descendant element of the subtree and compares the token,
    exactly and with case, with the leading text node of every element named
    [w:t], which is the text [GetText] returns, not with the full text
    content of the element.  Where every [w:t] element that matches has the
    matching text as its first child, the result is the subtree in which
    exactly those elements have that text node overwritten with the value and
    nothing else is touched ([substituted]).  In every case the texts of the
    text-bearing leaves (the [w:t] elements whose whole content is one text
    node, so that the leading text is the full text) are the texts before
    with the token replaced by the value, in the same order, so every
    occurrence in a leaf is replaced and every other leaf keeps its text; the
    same holds for the text [GetText] returns for every [w:t] element; and a
    subtree in which no [w:t] element matches comes back unchanged (the
    function is total: there is no error to raise). *)
Theorem replaceTokens_substitutes (policy : GetTextPolicy) (key val : string)
    (subtree : XMLNode) :
  (has_stray_hit policy key subtree = false →
   replaceTokens policy key val subtree = substituted key val subtree) ∧
  leaf_texts (replaceTokens policy key val subtree)
    = map (subst_string key val) (leaf_texts subtree) ∧
  run_texts policy (replaceTokens policy key val subtree)
    = map (subst_text key val) (run_texts policy subtree) ∧
  (Some key ∉ run_texts policy subtree → replaceTokens policy key val subtree = subtree).
Proof.
  split; [apply replaceTokens_substituted|].
  split; [apply leaf_texts_replaceTokens|].
  split; [apply run_texts_replaceTokens|apply replaceTokens_no_hit].
Qed.

Lemma replaceTokens_substitutes_witness :
  has_stray_hit SkipLeadingComments "{{HEADER}}" sample.block = false ∧
  replaceTokens SkipLeadingComments "{{HEADER}}" "A" sample.block
    = substituted "{{HEADER}}" "A" sample.block ∧
  leaf_texts (replaceTokens SkipLeadingComments "{{HEADER}}" "A" sample.block)
    = map (subst_string "{{HEADER}}" "A") (leaf_texts sample.block) ∧
  run_texts SkipLeadingComments (replaceTokens SkipLeadingComments "{{HEADER}}" "A" sample.block)
    = map (subst_text "{{HEADER}}" "A") (run_texts SkipLeadingComments sample.block).
Proof.
  assert (has_stray_hit SkipLeadingComments "{{HEADER}}" sample.block = false) as Hs
    by reflexivity.
  split; [exact Hs|].
  split; [exact (proj1 (replaceTokens_substitutes SkipLeadingComments "{{HEADER}}" "A"
                          sample.block) Hs)|].
  split.
  - exact (proj1 (proj2 (replaceTokens_substitutes SkipLeadingComments "{{HEADER}}" "A"
                           sample.block))).
  - exact (proj1 (proj2 (proj2 (replaceTokens_substitutes SkipLeadingComments "{{HEADER}}"
                                  "A" sample.block)))).
Defined.

(** C7, counterexample.  A [w:t] element whose token is followed by more
    text, in a CDATA section: its full text content is not the token, yet
    the element is rewritten, because the comparison is with the leading
    text node and only that node is overwritten.  This is so for both
    behaviours of [GetText]. *)
Lemma replaceTokens_rewrites_leading_text :
  text_content (XMLElement "w:t" [] [XMLText false "{{HEADER}}"; XMLText true " and more"])
    = "{{HEADER}} and more" ∧
  "{{HEADER}} and more" ≠ "{{HEADER}}" ∧
  replaceTokens FirstChildOnly "{{HEADER}}" "A" sample.mixed_run
    = XMLElement "w:r" []
        [XMLElement "w:t" [] [XMLText false "A"; XMLText true " and more"]] ∧
  replaceTokens SkipLeadingComments "{{HEADER}}" "A" sample.mixed_run
    = XMLElement "w:r" []
        [XMLElement "w:t" [] [XMLText false "A"; XMLText true " and more"]] ∧
  text_content (XMLElement "w:t" [] [XMLText false "A"; XMLText true " and more"])
    = "A and more".
Proof. vm_compute. done. Qed.

(** The comparison is exact: a text that only contains the token, or spells
    it in another case, stays. *)
Lemma replaceTokens_exact_match policy :
  replaceTokens policy "{{HEADER}}" "A"
    (XMLElement "w:p" []
       [sample.run "{{HEADER}}"; sample.run "x{{HEADER}}"; sample.run "{{header}}"])
  = XMLElement "w:p" []
      [sample.run "A"; sample.run "x{{HEADER}}"; sample.run "{{header}}"].
Proof. by destruct policy. Qed.

(** What the substitution leaves alone.  For every subtree, token and value
    in which every [w:t] element that matches the token has the matching
    text as its first child, the substitution changes nothing but the
    leading text of [w:t] elements, and that only where it equals the token:
    the tree with those texts blanked is the same before and after (same
    nodes, same parent/child structure, same names, attributes and other
    texts), the number of nodes is the same, and the texts of the [w:t]
    elements are the old ones with the token replaced. *)
Theorem replaceTokens_frame (policy : GetTextPolicy) (key val : string)
    (subtree : XMLNode) :
  has_stray_hit policy key subtree = false →
  outside_run_texts (replaceTokens policy key val subtree) = outside_run_texts subtree ∧
  node_count (replaceTokens policy key val subtree) = node_count subtree ∧
  run_texts policy (replaceTokens policy key val subtree)
    = map (subst_text key val) (run_texts policy subtree).
Proof.
  intros Hs. split; [by apply frame_replaceTokens|].
  split; [by apply node_count_replaceTokens|apply run_texts_replaceTokens].
Qed.

Lemma replaceTokens_frame_witness :
  has_stray_hit SkipLeadingComments "{{HEADER}}" sample.block = false ∧
  outside_run_texts (replaceTokens SkipLeadingComments "{{HEADER}}" "A" sample.block)
    = outside_run_texts sample.block ∧
  node_count (replaceTokens SkipLeadingComments "{{HEADER}}" "A" sample.block)
    = node_count sample.block ∧
  run_texts SkipLeadingComments (replaceTokens SkipLeadingComments "{{HEADER}}" "A" sample.block)
    = map (subst_text "{{HEADER}}" "A") (run_texts SkipLeadingComments sample.block).
Proof.
  split; [reflexivity|].
  apply (replaceTokens_frame SkipLeadingComments "{{HEADER}}" "A" sample.block).
  reflexivity.
Defined.

(** With a [GetText] that looks at the first child only no hit is stray, and
    the frame property holds for every subtree. *)
Lemma replaceTokens_frame_first_child_only key val subtree :
  outside_run_texts (replaceTokens FirstChildOnly key val subtree) = outside_run_texts subtree ∧
  node_count (replaceTokens FirstChildOnly key val subtree) = node_count subtree.
Proof.
  split.
  - apply frame_replaceTokens, no_stray_hit_first_child_only.
  - apply node_count_replaceTokens, no_stray_hit_first_child_only.
Qed.

(** C10.  The test of line 48 reads the text with [GetText], the write of
    line 50 goes through [SetText], and the two do not look at the same
    node: with a [GetText] that steps over leading comments, a [w:t] element
    that holds a comment before the token is a hit, and [SetText], which
    finds no text node in first position, inserts a new one.  The tree gains
    a node, its shape changes, and the token text stays where it was: the
    substitution does not only change the text of the matching element. *)
Lemma replaceTokens_inserts_a_node :
  replaceTokens SkipLeadingComments "{{HEADER}}" "A" sample.commented_run
  = XMLElement "w:r" []
      [XMLElement "w:t" []
         [XMLText false "A"; XMLComment "title"; XMLText false "{{HEADER}}"]] ∧
  node_count (replaceTokens SkipLeadingComments "{{HEADER}}" "A" sample.commented_run) = 5%nat ∧
  node_count sample.commented_run = 4%nat.
Proof. vm_compute. done. Qed.

(** ** Siblings and paths *)

Lemma FirstChildElement_from_Some k name l i n :
  FirstChildElement_from k name l = Some (i, n) →
  (k ≤ i)%nat ∧ l !! (i - k)%nat = Some n ∧ ToElement n = true ∧ Name n = name.
Proof.
  revert k. induction l as [|x l IH]; intros k; [done|].
  cbn [FirstChildElement_from].
  destruct (ToElement x && String.eqb (Name x) name) eqn:Hx.
  - intros [= <- <-]. apply andb_true_iff in Hx as [? ?%String.eqb_eq].
    rewrite Nat.sub_diag. done.
  - intros H. apply IH in H as (Hle & Hl & ? & ?).
    split; [lia|]. split; [|done].
    replace (i - k)%nat with (S (i - S k)) by lia. done.
Qed.

Lemma FirstChildElement_Some name l i n :
  FirstChildElement name l = Some (i, n) →
  l !! i = Some n ∧ ToElement n = true ∧ Name n = name.
Proof.
  intros H. apply FirstChildElement_from_Some in H as (_ & Hl & ? & ?).
  rewrite Nat.sub_0_r in Hl. done.
Qed.

Lemma FirstChildElement_from_alter f k name l i n :
  FirstChildElement_from k name l = Some (i, n) →
  ToElement (f n) = true → Name (f n) = Name n →
  FirstChildElement_from k name (alter f (i - k)%nat l) = Some (i, f n).
Proof.
  revert k. induction l as [|x l IH]; intros k; [done|].
  cbn [FirstChildElement_from].
  destruct (ToElement x && String.eqb (Name x) name) eqn:Hx.
  - intros [= <- <-] He Hn. rewrite Nat.sub_diag. cbn.
    apply andb_true_iff in Hx as [_ Hx]. by rewrite He, Hn, Hx.
  - intros H He Hn.
    pose proof (FirstChildElement_from_Some _ _ _ _ _ H) as (Hle & _).
    replace (i - k)%nat with (S (i - S k)) by lia. cbn.
    rewrite Hx. by apply IH.
Qed.

Lemma FirstChildElement_alter f name l i n :
  FirstChildElement name l = Some (i, n) →
  ToElement (f n) = true → Name (f n) = Name n →
  FirstChildElement name (alter f i l) = Some (i, f n).
Proof.
  intros H He Hn. unfold FirstChildElement.
  rewrite <- (Nat.sub_0_r i) at 1. by apply FirstChildElement_from_alter.
Qed.

Lemma with_children_ToElement g n : ToElement (with_children g n) = ToElement n.
Proof. by destruct n. Qed.

Lemma with_children_Name g n : Name (with_children g n) = Name n.
Proof. by destruct n. Qed.

Lemma node_at_cons l i rest :
  node_at l (i :: rest) =
  match l !! i with
  | None => None
  | Some n => match rest with [] => Some n | _ => node_at (child_nodes n) rest end
  end.
Proof. done. Qed.

Lemma alter_at_cons f i rest l :
  alter_at f (i :: rest) l =
  match rest with
  | [] => alter f i l
  | _ => alter (with_children (alter_at f rest)) i l
  end.
Proof. done. Qed.

Lemma node_at_alter_at f p l :
  node_at (alter_at f p l) p = f <$> node_at l p.
Proof.
  revert l. induction p as [|i rest IH]; intros l; [done|].
  rewrite alter_at_cons, !node_at_cons.
  destruct rest as [|j r].
  - rewrite list_lookup_alter_eq. by destruct (l !! i).
  - rewrite list_lookup_alter_eq. destruct (l !! i) as [n|]; [|done].
    cbn [fmap option_fmap option_map].
    destruct n; try done. cbn [with_children child_nodes]. apply IH.
Qed.

Lemma alter_at_alter_at f g p l :
  alter_at g p (alter_at f p l) = alter_at (g ∘ f) p l.
Proof.
  revert l. induction p as [|i rest IH]; intros l; [done|].
  rewrite !alter_at_cons. destruct rest as [|j r].
  - apply list_alter_alter_eq.
  - rewrite list_alter_alter_eq. apply list_alter_ext; [|done].
    intros n _. destruct n; try done. cbn. f_equal. apply IH.
Qed.

Lemma alter_at_ext f g p l :
  (∀ n, node_at l p = Some n → f n = g n) →
  alter_at f p l = alter_at g p l.
Proof.
  revert l. induction p as [|i rest IH]; intros l Hfg; [done|].
  rewrite !alter_at_cons. rewrite node_at_cons in Hfg.
  destruct rest as [|j r].
  - apply list_alter_ext; [|done]. intros n Hn. rewrite Hn in Hfg. by apply Hfg.
  - apply list_alter_ext; [|done]. intros n Hn. rewrite Hn in Hfg.
    destruct n; try done. cbn. f_equal. apply IH. done.
Qed.

Lemma alter_at_id p l : alter_at (fun n => n) p l = l.
Proof.
  revert l. induction p as [|i rest IH]; intros l; [done|].
  rewrite alter_at_cons. destruct rest as [|j r].
  - by apply list_alter_id.
  - apply list_alter_id. intros n. destruct n; try done. cbn. f_equal. apply IH.
Qed.

(** ** Documents *)

Lemma InsertEndChild_linked_new p h L U N c nm ats ch :
  U !! h = None →
  node_at L p = Some (XMLElement nm ats ch) →
  InsertEndChild (Linked p) h (mkXMLDocument L (<[h := c]> U) N)
  = Some (mkXMLDocument (alter_at (with_children (fun ch => ch ++ [c])) p L) U N).
Proof.
  intros HU Hp. unfold InsertEndChild. cbn.
  rewrite lookup_insert_eq. rewrite Hp. by rewrite delete_insert_id.
Qed.

Lemma InsertEndChild_unlinked_new h' h L U N c par :
  h' ≠ h → U !! h = None →
  InsertEndChild (Unlinked h') h (mkXMLDocument L (<[h := c]> (<[h' := par]> U)) N)
  = Some (mkXMLDocument L (<[h' := with_children (fun ch => ch ++ [c]) par]> U) N).
Proof.
  intros Hne HU. unfold InsertEndChild. cbn.
  rewrite lookup_insert_eq.
  rewrite delete_insert_id by (by rewrite lookup_insert_ne).
  rewrite lookup_insert_eq. by rewrite alter_insert_eq.
Qed.

(** Reading back through the pointer that was written through gives the new
    node; the nodes under other handles are as they were. *)
Lemma deref_update p f d : deref (update p f d) p = f <$> deref d p.
Proof.
  destruct p as [path|h]; cbn.
  - apply node_at_alter_at.
  - apply lookup_alter_eq.
Qed.

Lemma deref_update_other h h' f d :
  h ≠ h' → deref (update (Unlinked h) f d) (Unlinked h') = deref d (Unlinked h').
Proof. intros Hne. cbn. by apply lookup_alter_ne. Qed.

Section GeneratorFacts.
Variable policy : GetTextPolicy.

Lemma append_page_break_linked p w d nm ats ch :
  pool_ok d →
  node_at (linked d) p = Some (XMLElement nm ats ch) →
  append_page_break (Linked p) w d =
  Continue (mkXMLDocument
              (alter_at (with_children (fun ch => ch ++ [page_break])) p (linked d))
              (unlinked d) (3 + next_handle d)).
Proof.
  intros Hok Hp. destruct d as [L U N]. unfold pool_ok in Hok. cbn in *.
  unfold append_page_break, NewElement, new_node.
  cbn -[InsertEndChild alter_at].
  rewrite alter_insert_eq.
  rewrite InsertEndChild_unlinked_new; [|lia|].
  2:{ rewrite lookup_insert_ne by lia. apply Hok. lia. }
  cbn -[InsertEndChild alter_at].
  rewrite InsertEndChild_unlinked_new; [|lia|].
  2:{ apply Hok. lia. }
  cbn -[InsertEndChild alter_at].
  erewrite InsertEndChild_linked_new; [done| |done].
  apply Hok. lia.
Qed.

Lemma delete_all_children_linked p d nm ats ch :
  node_at (linked d) p = Some (XMLElement nm ats ch) →
  delete_all_children (length ch) (Linked p) d
  = update (Linked p) (with_children (fun _ => [])) d.
Proof.
  revert d. induction ch as [|x ch IH]; intros d Hp.
  - cbn. destruct d as [L U N]. cbn in *. f_equal.
    rewrite <- (alter_at_id p L) at 1. apply alter_at_ext.
    intros n Hn. rewrite Hp in Hn. by injection Hn as <-.
  - cbn [length delete_all_children]. cbn [deref]. rewrite Hp. cbn.
    rewrite IH.
    + destruct d as [L U N]. cbn. f_equal. rewrite alter_at_alter_at.
      apply alter_at_ext. intros n Hn. by destruct n.
    + cbn. rewrite node_at_alter_at, Hp. done.
Qed.
End GeneratorFacts.

(** ** One iteration of the loop *)

Lemma media_path_not_rels c e : media_path c e ≠ relsXml.
Proof. unfold media_path, relsXml, mediaDir. cbn. discriminate. Qed.

Lemma media_path_not_doc c e : media_path c e ≠ docXml.
Proof. unfold media_path, docXml, mediaDir. cbn. discriminate. Qed.

Section StepFacts.
Variable policy : GetTextPolicy.

Lemma assemble_entry_eq p tb st e block nm ats ch :
  pool_ok (doc st) →
  unlinked (doc st) !! tb = Some block →
  node_at (linked (doc st)) p = Some (XMLElement nm ats ch) →
  assemble_entry policy (Linked p) tb st e =
  match disk (world st) !! imagePath e with
  | None => Exits Throw (world st)
  | Some f =>
      match FirstChildElement "Relationships" (loaded_rels (world st)) with
      | None =>
          Exits Undefined
            (mkWorld (disk (world st))
               (<[media_path (relId st) e := f]> (workdir (world st))) (locked (world st)))
      | Some (i, _) =>
          if decide (relId st = INT_MAX)
          then Exits Undefined (world (after_entry policy p block st e f i))
          else Continue (after_entry policy p block st e f i)
      end
  end.
Proof.
  intros Hok Htb Hp. destruct st as [[L U N] w c]. unfold pool_ok in Hok. cbn in *.
  unfold assemble_entry. cbn [doc world relId deref unlinked]. rewrite Htb.
  cbn [nonnull mbind step_bind]. unfold DeepClone, new_node.
  cbn [linked unlinked next_handle].
  unfold update at 3. cbn [linked unlinked next_handle]. rewrite alter_insert_eq.
  unfold update at 2. cbn [linked unlinked next_handle]. rewrite alter_insert_eq.
  unfold update at 1. cbn [linked unlinked next_handle]. rewrite alter_insert_eq.
  fold (stamped policy block c e).
  unfold fs.copy_file. fold (media_path c e).
  destruct (disk w !! imagePath e) as [f|]; [|done].
  unfold update_rels, loaded_rels, rels_of. cbn [workdir].
  rewrite lookup_insert_ne by apply media_path_not_rels.
  fold (rels_of (workdir w)). fold (loaded_rels w).
  destruct (FirstChildElement "Relationships" (loaded_rels w)) as [[i root]|]; [|done].
  cbn [nonnull mbind step_bind].
  erewrite InsertEndChild_linked_new; [|apply Hok; lia|done].
  cbn [nonnull mbind step_bind].
  erewrite append_page_break_linked.
  2:{ intros h Hh. cbn in *. apply Hok. lia. }
  2:{ cbn [linked]. rewrite node_at_alter_at, Hp. done. }
  cbn [mbind step_bind linked unlinked next_handle].
  rewrite alter_at_alter_at.
  assert (alter_at
            (with_children (λ ch0, ch0 ++ [page_break])
             ∘ with_children (λ ch0, ch0 ++ [stamped policy block c e])) p L
          = alter_at (with_children (λ ch0, ch0 ++ [stamped policy block c e; page_break])) p L)
    as ->.
  { apply alter_at_ext. intros n _. destruct n; try done. cbn.
    by rewrite <- app_assoc. }
  unfold after_entry. cbn [doc world relId linked unlinked next_handle disk workdir locked].
  destruct (decide (c = INT_MAX)); done.
Qed.
End StepFacts.

(** ** The loop *)

Lemma loaded_rels_SaveFile l w : loaded_rels (SaveFile relsXml l w) = l.
Proof.
  unfold loaded_rels, rels_of, SaveFile. cbn [workdir]. rewrite lookup_insert_eq.
  by destruct l.
Qed.

Lemma child_nodes_with_children g n :
  ToElement n = true → child_nodes (with_children g n) = g (child_nodes n).
Proof. by destruct n. Qed.

Lemma relationship_table_alter g i root rels :
  FirstChildElement "Relationships" rels = Some (i, root) →
  relationship_table (alter (with_children g) i rels) = Some (g (child_nodes root)).
Proof.
  intros H. unfold relationship_table.
  pose proof (FirstChildElement_Some _ _ _ _ H) as (_ & He & _).
  erewrite FirstChildElement_alter; [|done|by rewrite with_children_ToElement|
                                      by rewrite with_children_Name].
  by rewrite child_nodes_with_children.
Qed.

Section LoopFacts.
Variable policy : GetTextPolicy.
Variable p : list nat.
Variable tb : nat.
Variable block : XMLNode.

Lemma ready_after_entry st e f i :
  ready p tb block st → ready p tb block (after_entry policy p block st e f i).
Proof.
  intros (Hok & Htb & nm & ats & ch & Hp). split; [|split].
  - intros h Hh. cbn in *. apply Hok. lia.
  - done.
  - exists nm, ats, (ch ++ [stamped policy block (relId st) e; page_break]).
    cbn. by rewrite node_at_alter_at, Hp.
Qed.

Lemma loaded_rels_after_entry st e f i :
  loaded_rels (world (after_entry policy p block st e f i))
  = alter (with_children (fun ch => ch ++ expected_rels (relId st) [e])) i
      (loaded_rels (world st)).
Proof.
  unfold after_entry, loaded_rels at 1. unfold rels_of. cbn [world workdir].
  rewrite lookup_insert_eq.
  by destruct (alter _ i (loaded_rels (world st))).
Qed.

(** One iteration that goes on: what it needed and where it leads. *)
Lemma assemble_cons_Continue st e es st' :
  ready p tb block st →
  assemble policy (Linked p) tb st (e :: es) = Continue st' →
  ∃ f i root,
    disk (world st) !! imagePath e = Some f ∧
    FirstChildElement "Relationships" (loaded_rels (world st)) = Some (i, root) ∧
    relId st ≠ INT_MAX ∧
    assemble policy (Linked p) tb (after_entry policy p block st e f i) es = Continue st'.
Proof.
  intros (Hok & Htb & nm & ats & ch & Hp). cbn [assemble].
  erewrite assemble_entry_eq by done.
  destruct (disk (world st) !! imagePath e) as [f|]; [|done].
  destruct (FirstChildElement _ _) as [[i root]|]; [|done].
  destruct (decide (relId st = INT_MAX)); [done|].
  cbn [mbind step_bind]. intros H. by exists f, i, root.
Qed.

Lemma assemble_linked es : ∀ st st',
  ready p tb block st →
  assemble policy (Linked p) tb st es = Continue st' →
  linked (doc st') =
    alter_at (with_children (fun ch => ch ++ expected_pages policy block (relId st) es))
      p (linked (doc st)).
Proof.
  induction es as [|e es IH]; intros st st' Hr H.
  - injection H as <-. symmetry. rewrite <- (alter_at_id p (linked (doc st))) at 2.
    apply alter_at_ext. intros n _. destruct n; try done. cbn. by rewrite app_nil_r.
  - apply assemble_cons_Continue in H as (f & i & root & _ & _ & _ & H); [|done].
    apply IH in H; [|by apply ready_after_entry]. rewrite H. cbn [after_entry doc linked relId].
    rewrite alter_at_alter_at. apply alter_at_ext.
    intros n _. destruct n; try done. cbn. by rewrite <- app_assoc.
Qed.

Lemma assemble_unlinked es : ∀ st st',
  ready p tb block st →
  assemble policy (Linked p) tb st es = Continue st' →
  unlinked (doc st') = unlinked (doc st).
Proof.
  induction es as [|e es IH]; intros st st' Hr H.
  - by injection H as <-.
  - apply assemble_cons_Continue in H as (f & i & root & _ & _ & _ & H); [|done].
    apply IH in H; [|by apply ready_after_entry]. by rewrite H.
Qed.

Lemma assemble_relId es : ∀ st st',
  ready p tb block st →
  assemble policy (Linked p) tb st es = Continue st' →
  relId st' = (relId st + Z.of_nat (length es))%Z ∧
  ((relId st ≤ INT_MAX)%Z → (relId st + Z.of_nat (length es) ≤ INT_MAX)%Z).
Proof.
  induction es as [|e es IH]; intros st st' Hr H.
  - injection H as <-. cbn. lia.
  - apply assemble_cons_Continue in H as (f & i & root & _ & _ & Hc & H); [|done].
    apply IH in H; [|by apply ready_after_entry]. cbn in H |- *. lia.
Qed.

Lemma assemble_disk es : ∀ st st',
  ready p tb block st →
  assemble policy (Linked p) tb st es = Continue st' →
  disk (world st') = disk (world st) ∧ locked (world st') = locked (world st) ∧
  Forall (fun e => is_Some (disk (world st) !! imagePath e)) es.
Proof.
  induction es as [|e es IH]; intros st st' Hr H.
  - by injection H as <-.
  - apply assemble_cons_Continue in H as (f & i & root & Hf & _ & _ & H); [|done].
    apply IH in H as (Hd & Hl & Hall); [|by apply ready_after_entry].
    cbn in Hd, Hl, Hall. split; [done|]. split; [done|].
    constructor; [by exists f|done].
Qed.

Lemma assemble_rels es : ∀ st st',
  ready p tb block st →
  assemble policy (Linked p) tb st es = Continue st' →
  relationship_table (loaded_rels (world st')) =
    (fun t => t ++ expected_rels (relId st) es)
      <$> relationship_table (loaded_rels (world st)).
Proof.
  induction es as [|e es IH]; intros st st' Hr H.
  - injection H as <-. destruct (relationship_table _); [|done].
    cbn. by rewrite app_nil_r.
  - apply assemble_cons_Continue in H as (f & i & root & _ & Hroot & _ & H); [|done].
    apply IH in H; [|by apply ready_after_entry]. rewrite H.
    rewrite loaded_rels_after_entry.
    rewrite (relationship_table_alter _ _ _ _ Hroot).
    unfold relationship_table. rewrite Hroot.
    cbn [fmap option_fmap option_map after_entry relId].
    f_equal. rewrite <- app_assoc. done.
Qed.

Lemma assemble_workdir_frame es : ∀ st st' q,
  ready p tb block st →
  assemble policy (Linked p) tb st es = Continue st' →
  q ≠ relsXml → q ∉ media_paths (relId st) es →
  workdir (world st') !! q = workdir (world st) !! q.
Proof.
  induction es as [|e es IH]; intros st st' q Hr H Hq Hm.
  - by injection H as <-.
  - apply assemble_cons_Continue in H as (f & i & root & _ & _ & _ & H); [|done].
    cbn [media_paths] in Hm. apply not_elem_of_cons in Hm as [Hne Hm].
    erewrite IH; [|by apply ready_after_entry|done|done|done].
    cbn [after_entry world workdir].
    rewrite lookup_insert_ne by done. by rewrite lookup_insert_ne.
Qed.
End LoopFacts.

(** ** Names made from the counter *)

Lemma is_digit_pretty_N_char x : is_digit (pretty_N_char x) = true.
Proof. unfold pretty_N_char. by repeat case_match. Qed.

Lemma all_digits_pretty_N_go x : ∀ s,
  all_digits s = true → all_digits (pretty_N_go x s) = true.
Proof.
  induction (N.lt_wf_0 x) as [x _ IH]; intros s Hs.
  destruct (decide (x = 0)%N) as [->|Hx]; [by rewrite pretty_N_go_0|].
  rewrite pretty_N_go_step by lia. apply IH.
  - apply N.div_lt; lia.
  - cbn [all_digits]. by rewrite is_digit_pretty_N_char, Hs.
Qed.

Lemma all_digits_to_string c : (0 ≤ c)%Z → all_digits (to_string c) = true.
Proof.
  intros Hc. unfold to_string, pretty, pretty_Z. destruct c as [|x|x]; [done| |lia].
  unfold pretty, pretty_positive, pretty, pretty_N.
  case_decide; [done|]. by apply all_digits_pretty_N_go.
Qed.

Lemma extension_no_digit path : starts_with_digit (fs.extension path) = false.
Proof.
  unfold fs.extension. case_match; [done|].
  case_match; [done|]. by case_match.
Qed.

Lemma string_app_nil t : "" +:+ t = t.
Proof. done. Qed.

Lemma string_app_cons c s t : String c s +:+ t = String c (s +:+ t).
Proof. done. Qed.

Lemma digits_prefix_inj s1 : ∀ s2 t1 t2,
  all_digits s1 = true → all_digits s2 = true →
  starts_with_digit t1 = false → starts_with_digit t2 = false →
  s1 +:+ t1 = s2 +:+ t2 → s1 = s2.
Proof.
  induction s1 as [|c s1 IH]; intros [|c' s2] t1 t2 H1 H2 Ht1 Ht2 Heq;
    rewrite ?string_app_nil, ?string_app_cons in Heq;
    cbn [all_digits starts_with_digit] in *.
  - done.
  - subst t1. cbn [starts_with_digit] in Ht1.
    apply andb_true_iff in H2 as [? _]. congruence.
  - subst t2. cbn [starts_with_digit] in Ht2.
    apply andb_true_iff in H1 as [? _]. congruence.
  - injection Heq as -> Heq. f_equal.
    apply andb_true_iff in H1 as [_ ?]. apply andb_true_iff in H2 as [_ ?]. eauto.
Qed.

Lemma counter_suffix_inj c c' path path' :
  (0 ≤ c)%Z → (0 ≤ c')%Z →
  to_string c +:+ fs.extension path = to_string c' +:+ fs.extension path' → c = c'.
Proof.
  intros Hc Hc' Heq.
  apply digits_prefix_inj in Heq;
    auto using all_digits_to_string, extension_no_digit.
  by apply (inj pretty) in Heq.
Qed.

Lemma imgName_inj c c' e e' :
  (0 ≤ c)%Z → (0 ≤ c')%Z → imgName c e = imgName c' e' → c = c'.
Proof.
  intros Hc Hc'. unfold imgName.
  repeat rewrite ?string_app_cons, ?string_app_nil. intros [= Heq].
  rewrite ?string_app_nil in Heq. by apply counter_suffix_inj in Heq.
Qed.

Lemma media_path_inj c c' e e' :
  (0 ≤ c)%Z → (0 ≤ c')%Z → media_path c e = media_path c' e' → c = c'.
Proof.
  intros Hc Hc'. unfold media_path, mediaDir.
  repeat rewrite ?string_app_cons, ?string_app_nil. intros [= Heq].
  rewrite ?string_app_nil in Heq. by apply counter_suffix_inj in Heq.
Qed.

Lemma rId_inj c c' : rId c = rId c' → c = c'.
Proof.
  unfold rId. rewrite !string_app_cons, !string_app_nil.
  intros [= Heq]. by apply (inj pretty) in Heq.
Qed.

Lemma media_path_fresh c e es : ∀ c',
  (0 ≤ c)%Z → (c < c')%Z → media_path c e ∉ media_paths c' es.
Proof.
  induction es as [|e' es IH]; intros c' Hc Hlt; cbn [media_paths].
  - apply not_elem_of_nil.
  - apply not_elem_of_cons. split.
    + intros Heq. apply media_path_inj in Heq; lia.
    + apply IH; lia.
Qed.

Lemma expected_rels_lookup es : ∀ c k,
  expected_rels c es !! k =
  (fun e => XMLElement "Relationship"
              [("Id", rId (c + Z.of_nat k));
               ("Type", image_relationship_type);
               ("Target", "media/" +:+ imgName (c + Z.of_nat k) e)] [])
    <$> es !! k.
Proof.
  induction es as [|e es IH]; intros c k; [done|].
  destruct k as [|k]; cbn [expected_rels lookup list_lookup].
  - cbn. by rewrite Z.add_0_r.
  - rewrite IH. replace (c + 1 + Z.of_nat k)%Z with (c + Z.of_nat (S k))%Z by lia. done.
Qed.

Lemma expected_rels_length c es : length (expected_rels c es) = length es.
Proof. revert c. induction es as [|e es IH]; intros c; cbn; [done|]. by rewrite IH. Qed.

Lemma expected_pages_length policy block c es :
  length (expected_pages policy block c es) = (2 * length es)%nat.
Proof. revert c. induction es as [|e es IH]; intros c; cbn; [done|]. rewrite IH. lia. Qed.

Lemma expected_pages_lookup policy block es : ∀ c k e,
  es !! k = Some e →
  expected_pages policy block c es !! (2 * k)%nat
    = Some (stamped policy block (c + Z.of_nat k) e) ∧
  expected_pages policy block c es !! (2 * k + 1)%nat = Some page_break.
Proof.
  induction es as [|e' es IH]; intros c k e Hk; [done|].
  destruct k as [|k].
  - injection Hk as ->. cbn. by rewrite Z.add_0_r.
  - cbn in Hk. apply (IH (c + 1)%Z) in Hk as [H1 H2].
    replace (2 * S k)%nat with (S (S (2 * k))) by lia.
    replace (c + Z.of_nat (S k))%Z with (c + 1 + Z.of_nat k)%Z by lia.
    cbn [expected_pages]. split; [exact H1|]. exact H2.
Qed.

Section MediaFacts.
Variable policy : GetTextPolicy.
Variable p : list nat.
Variable tb : nat.
Variable block : XMLNode.

Lemma assemble_media es : ∀ st st' k e,
  ready p tb block st →
  assemble policy (Linked p) tb st es = Continue st' →
  (0 ≤ relId st)%Z →
  es !! k = Some e →
  is_Some (disk (world st) !! imagePath e) ∧
  workdir (world st') !! media_path (relId st + Z.of_nat k) e
    = disk (world st) !! imagePath e.
Proof.
  induction es as [|e' es IH]; intros st st' k e Hr H Hc Hk; [done|].
  pose proof (assemble_cons_Continue policy p tb block _ _ _ _ Hr H)
    as (f & i & root & Hf & _ & _ & H').
  destruct k as [|k].
  - injection Hk as ->. rewrite Z.add_0_r. split; [by exists f|].
    erewrite assemble_workdir_frame;
      [|by apply ready_after_entry|done|apply media_path_not_rels|].
    + cbn [after_entry world workdir].
      rewrite lookup_insert_ne by (apply not_eq_sym, media_path_not_rels).
      by rewrite lookup_insert_eq.
    + cbn [after_entry relId]. apply media_path_fresh; lia.
  - cbn in Hk.
    eapply IH in Hk; [|by apply ready_after_entry|done|cbn; lia].
    cbn [after_entry world disk relId] in Hk.
    replace (relId st + Z.of_nat (S k))%Z with (relId st + 1 + Z.of_nat k)%Z by lia.
    done.
Qed.
End MediaFacts.

(** ** A whole run *)

Lemma node_at_body nodes i root j bodyNode :
  FirstChildElement "w:document" nodes = Some (i, root) →
  FirstChildElement "w:body" (child_nodes root) = Some (j, bodyNode) →
  node_at nodes [i; j] = Some bodyNode ∧ ToElement bodyNode = true.
Proof.
  intros (Hi & _ & _)%FirstChildElement_Some (Hj & He & _)%FirstChildElement_Some.
  cbn. by rewrite Hi, Hj.
Qed.

Lemma document_body_alter_at g nodes i root j bodyNode :
  FirstChildElement "w:document" nodes = Some (i, root) →
  FirstChildElement "w:body" (child_nodes root) = Some (j, bodyNode) →
  document_body (alter_at (with_children g) [i; j] nodes) = Some (g (child_nodes bodyNode)).
Proof.
  intros Hi Hj. unfold document_body. cbn [alter_at].
  pose proof (FirstChildElement_Some _ _ _ _ Hi) as (_ & Hre & _).
  pose proof (FirstChildElement_Some _ _ _ _ Hj) as (_ & Hbe & _).
  erewrite FirstChildElement_alter;
    [|done|by rewrite with_children_ToElement|by rewrite with_children_Name].
  rewrite child_nodes_with_children by done.
  erewrite FirstChildElement_alter;
    [|done|by rewrite with_children_ToElement|by rewrite with_children_Name].
  by rewrite child_nodes_with_children.
Qed.

Section RunFacts.
Variable policy : GetTextPolicy.

Lemma open_template_Continue templateDocx w d w0 :
  open_template templateDocx w = Continue (d, w0) →
  ∃ tree nodes,
    disk w !! templateDocx = Some (ZipFile tree) ∧
    LoadFile (tree !! docXml) = Some nodes ∧
    d = mkXMLDocument nodes ∅ 0 ∧ w0 = extracted tree w.
Proof.
  unfold open_template, unzip, fs.remove_all_tmp. cbn [disk locked].
  destruct (disk w !! templateDocx) as [[| |tree]|]; try done.
  cbn [negb workdir]. destruct (LoadFile (tree !! docXml)) as [nodes|] eqn:Hl; [|done].
  intros [= <- <-]. by exists tree, nodes.
Qed.

Lemma capture_template_Continue w d body tb d1 :
  pool_ok d → unlinked d = ∅ →
  capture_template w d = Continue (body, tb, d1) →
  ∃ i root j bodyNode first,
    FirstChildElement "w:document" (linked d) = Some (i, root) ∧
    FirstChildElement "w:body" (child_nodes root) = Some (j, bodyNode) ∧
    FirstChild bodyNode = Some first ∧
    body = Linked [i; j] ∧ tb = next_handle d ∧
    d1 = mkXMLDocument (alter_at (with_children (fun _ => [])) [i; j] (linked d))
           (<[next_handle d := first]> ∅) (S (next_handle d)).
Proof.
  intros Hok HU. unfold capture_template.
  destruct (FirstChildElement "w:document" (linked d)) as [[i root]|] eqn:Hi; [|done].
  cbn [nonnull mbind step_bind].
  destruct (FirstChildElement "w:body" (child_nodes root)) as [[j bodyNode]|] eqn:Hj; [|done].
  destruct (FirstChild bodyNode) as [first|] eqn:Hf; [|done].
  cbn [nonnull mbind step_bind]. unfold DeepClone, new_node.
  destruct (node_at_body _ _ _ _ _ Hi Hj) as [Hp He].
  destruct bodyNode as [nm ats ch| | | |]; try done.
  erewrite delete_all_children_linked by (cbn [linked]; exact Hp).
  intros [= <- <- <-]. exists i, root, j, (XMLElement nm ats ch), first.
  unfold update. cbn [linked unlinked next_handle]. by rewrite HU.
Qed.

(** A run that returns true went through every phase. *)
Lemma generateDocx_true templateDocx outputDocx entries w w' :
  generateDocx policy templateDocx outputDocx entries w = (Return true, w') →
  ∃ tree nodes i root j bodyNode first st',
    disk w !! templateDocx = Some (ZipFile tree) ∧
    LoadFile (tree !! docXml) = Some nodes ∧
    FirstChildElement "w:document" nodes = Some (i, root) ∧
    FirstChildElement "w:body" (child_nodes root) = Some (j, bodyNode) ∧
    FirstChild bodyNode = Some first ∧
    open_template templateDocx w = Continue (mkXMLDocument nodes ∅ 0, extracted tree w) ∧
    capture_template (extracted tree w) (mkXMLDocument nodes ∅ 0)
      = Continue (Linked [i; j], 0%nat, captured nodes i j first) ∧
    assemble policy (Linked [i; j]) 0
      (mkAssembler (captured nodes i j first) (extracted tree w) 10) entries = Continue st' ∧
    w' = (finalize outputDocx st').2.
Proof.
  unfold generateDocx, assembled.
  destruct (open_template templateDocx w) as [[d w0]|x w0] eqn:Ho; cbn [mbind step_bind].
  2:{ intros [= -> _]. unfold open_template in Ho.
      destruct (unzip _ _) as [[] ?]; cbn [negb] in Ho; [|done]. by destruct (LoadFile _). }
  apply open_template_Continue in Ho as Ho'. destruct Ho' as (tree & nodes & Hz & Hl & -> & ->).
  destruct (capture_template _ _) as [[[body tb] d1]|x w1] eqn:Hc; cbn [mbind step_bind].
  2:{ intros [= -> _]. unfold capture_template in Hc.
      destruct (FirstChildElement "w:document" _) as [[i root]|]; [|done].
      cbn [nonnull mbind step_bind] in Hc.
      destruct (FirstChildElement "w:body" _) as [[j bodyNode]|]; [|done].
      destruct (FirstChild bodyNode); [|done].
      cbn [nonnull mbind step_bind] in Hc. by destruct (DeepClone _ _). }
  apply capture_template_Continue in Hc as Hc'; [|by intros h _|done].
  destruct Hc' as (i & root & j & bodyNode & first & Hi & Hj & Hf & -> & -> & ->).
  cbn [linked next_handle] in *.
  destruct (assemble _ _ _ _ _) as [st'|x w1] eqn:Ha.
  - intros Hfin. exists tree, nodes, i, root, j, bodyNode, first, st'.
    repeat split; try done. by rewrite Hfin.
  - intros [= -> _].
    enough (∀ es b t st, assemble policy b t st es ≠ Exits (Return true) w1) as Hn
      by (by apply Hn in Ha).
    clear. induction es as [|e es IH]; intros b t st; [done|].
    cbn [assemble]. destruct (assemble_entry policy b t st e) as [st1|x w2] eqn:He;
      cbn [mbind step_bind]; [apply IH|].
    intros [= -> ->]. unfold assemble_entry in He.
    destruct (deref _ _); [|done]. cbn [nonnull mbind step_bind] in He.
    destruct (DeepClone _ _) as [page d].
    destruct (fs.copy_file _ _ _) as [w3|]; [|done].
    unfold update_rels in He.
    destruct (FirstChildElement "Relationships" _) as [[]|]; [|done].
    cbn [nonnull mbind step_bind] in He.
    destruct (InsertEndChild _ _ _); [|done].
    cbn [nonnull mbind step_bind] in He.
    unfold append_page_break in He.
    repeat match type of He with
           | context [let '(_, _) := ?t in _] => destruct t
           end.
    repeat (match type of He with
            | context [InsertEndChild ?a ?b ?c] => destruct (InsertEndChild a b c)
            end; cbn [nonnull mbind step_bind] in He; try done).
    by destruct (decide _).
Qed.
End RunFacts.

Lemma docXml_not_rels : docXml ≠ relsXml.
Proof. done. Qed.

Lemma captured_ready nodes i root j bodyNode first w c :
  FirstChildElement "w:document" nodes = Some (i, root) →
  FirstChildElement "w:body" (child_nodes root) = Some (j, bodyNode) →
  ready [i; j] 0 first (mkAssembler (captured nodes i j first) w c).
Proof.
  intros Hi Hj. destruct (node_at_body _ _ _ _ _ Hi Hj) as [Hp He].
  split; [|split].
  - intros h Hh. cbn in *. apply lookup_insert_None. split; [done|lia].
  - cbn. by rewrite lookup_insert_eq.
  - destruct bodyNode as [nm ats ch| | | |]; try done.
    exists nm, ats, []. cbn [doc captured linked].
    by rewrite node_at_alter_at, Hp.
Qed.

Lemma finalize_archive outputDocx st :
  outputDocx ∉ locked (world st) →
  archive_at outputDocx (finalize outputDocx st).2
    = Some (<[docXml := XmlFile (linked (doc st))]> (workdir (world st))).
Proof.
  intros Hl. unfold finalize, rezip, SaveFile, archive_at. cbn [locked].
  destruct (decide _) as [|_]; [done|]. cbn. by rewrite lookup_insert_eq.
Qed.

Section Results.
Variable policy : GetTextPolicy.

(** What a run that returns true has done, phase by phase. *)
Lemma generateDocx_run templateDocx outputDocx entries w w' :
  generateDocx policy templateDocx outputDocx entries w = (Return true, w') →
  ∃ tree nodes i j first rest st',
    archive_at templateDocx w = Some tree ∧
    LoadFile (tree !! docXml) = Some nodes ∧
    document_body nodes = Some (first :: rest) ∧
    open_template templateDocx w = Continue (mkXMLDocument nodes ∅ 0, extracted tree w) ∧
    capture_template (extracted tree w) (mkXMLDocument nodes ∅ 0)
      = Continue (Linked [i; j], 0%nat, captured nodes i j first) ∧
    deref (captured nodes i j first) (Unlinked 0) = Some first ∧
    child_nodes <$> deref (captured nodes i j first) (Linked [i; j]) = Some [] ∧
    ready [i; j] 0 first (mkAssembler (captured nodes i j first) (extracted tree w) 10) ∧
    assemble policy (Linked [i; j]) 0
      (mkAssembler (captured nodes i j first) (extracted tree w) 10) entries = Continue st' ∧
    assembled policy templateDocx entries w = Continue st' ∧
    document_body (linked (doc st')) = Some (expected_pages policy first 10 entries) ∧
    w' = (finalize outputDocx st').2.
Proof.
  intros H. apply generateDocx_true in H
    as (tree & nodes & i & root & j & bodyNode & first & st' &
        Hz & Hl & Hi & Hj & Hf & Ho & Hc & Ha & ->).
  destruct (node_at_body _ _ _ _ _ Hi Hj) as [Hp He].
  destruct bodyNode as [nm ats [|x rest]| | | |]; try done.
  injection Hf as ->.
  pose proof (captured_ready nodes i root j _ first (extracted tree w) 10 Hi Hj) as Hr.
  exists tree, nodes, i, j, first, rest, st'.
  split; [by unfold archive_at; rewrite Hz|]. split; [done|].
  split; [by unfold document_body; rewrite Hi, Hj|].
  split; [done|]. split; [done|].
  split; [by cbn; rewrite lookup_insert_eq|].
  split; [by cbn [deref captured linked]; rewrite node_at_alter_at, Hp|].
  split; [done|]. split; [done|].
  split; [by unfold assembled; rewrite Ho; cbn [mbind step_bind]; rewrite Hc|].
  split; [|done].
  rewrite (assemble_linked policy [i; j] 0 first entries _ _ Hr Ha).
  cbn [doc captured linked relId]. rewrite alter_at_alter_at.
  erewrite (alter_at_ext _ (with_children (fun _ => expected_pages policy first 10 entries))).
  - by erewrite document_body_alter_at.
  - intros n _. by destruct n.
Qed.
End Results.

Lemma find_attribute_set_eq name value ats :
  find_attribute name (set_attribute name value ats) = Some value.
Proof.
  induction ats as [|[k v] ats IH]; cbn.
  - by rewrite String.eqb_refl.
  - destruct (String.eqb k name) eqn:Hk; cbn; by rewrite Hk.
Qed.

Lemma find_attribute_set_ne name value a ats :
  a ≠ name → find_attribute a (set_attribute name value ats) = find_attribute a ats.
Proof.
  intros Hne. assert (String.eqb name a = false) as Hna
    by (apply String.eqb_neq; congruence).
  induction ats as [|[k v] ats IH]; cbn.
  - by rewrite Hna.
  - destruct (String.eqb k name) eqn:Hk; cbn.
    + apply String.eqb_eq in Hk as ->. by rewrite Hna.
    + by rewrite IH.
Qed.

Lemma relationship_ids_app t1 t2 :
  relationship_ids (t1 ++ t2) = relationship_ids t1 ++ relationship_ids t2.
Proof. apply omap_app. Qed.

Lemma relationship_ids_expected es : ∀ c,
  relationship_ids (expected_rels c es)
  = (fun k => rId (c + Z.of_nat k)) <$> seq 0 (length es).
Proof.
  induction es as [|e es IH]; intros c; [done|].
  cbn [expected_rels length seq fmap list_fmap relationship_ids omap list_omap Attribute
       find_attribute]. cbn [String.eqb Ascii.eqb]. 
  rewrite Z.add_0_r. f_equal. fold (relationship_ids (expected_rels (c + 1) es)).
  rewrite IH, <- fmap_S_seq, <- list_fmap_compose. apply list_fmap_ext.
  intros _ k _. cbn. f_equal. lia.
Qed.

Lemma NoDup_generated_ids c n :
  NoDup ((fun k => rId (c + Z.of_nat k)) <$> seq 0 n).
Proof.
  apply NoDup_fmap_2_strong; [|apply NoDup_seq].
  intros k k' _ _ Heq. apply rId_inj in Heq. lia.
Qed.

Section Steps.
Variable policy : GetTextPolicy.

Lemma assemble_entry_world body tb st e st' :
  assemble_entry policy body tb st e = Continue st' →
  ∃ w1,
    fs.copy_file (imagePath e) (media_path (relId st) e) (world st) = Some w1 ∧
    update_rels (rId (relId st)) (imgName (relId st) e) w1 = Continue (world st') ∧
    relId st' = (relId st + 1)%Z.
Proof.
  unfold assemble_entry. destruct (deref _ _); [|done].
  cbn [nonnull mbind step_bind]. destruct (DeepClone _ _) as [page d].
  fold (media_path (relId st) e).
  destruct (fs.copy_file _ _ _) as [w1|]; [|done].
  destruct (update_rels _ _ _) as [w2|] eqn:Hu; [|done].
  cbn [mbind step_bind]. destruct (InsertEndChild _ _ _); [|done].
  cbn [nonnull mbind step_bind].
  destruct (append_page_break _ _ _); [|done]. cbn [mbind step_bind].
  destruct (decide _); [done|]. intros [= <-]. by exists w1.
Qed.

Lemma update_rels_table rId imgName w w' :
  update_rels rId imgName w = Continue w' →
  ∃ table,
    relationship_table (loaded_rels w) = Some table ∧
    relationship_table (loaded_rels w') = Some (table ++ [newRel rId imgName]).
Proof.
  unfold update_rels.
  destruct (FirstChildElement "Relationships" (loaded_rels w)) as [[i root]|] eqn:Hr; [|done].
  cbn [nonnull mbind step_bind]. intros [= <-].
  exists (child_nodes root). split; [by unfold relationship_table; rewrite Hr|].
  rewrite loaded_rels_SaveFile.
  by apply (relationship_table_alter (fun ch => ch ++ [newRel rId imgName])).
Qed.

Lemma copy_file_rels from to w w1 :
  to ≠ relsXml → fs.copy_file from to w = Some w1 → loaded_rels w1 = loaded_rels w.
Proof.
  intros Hne. unfold fs.copy_file. destruct (disk w !! from); [|done].
  intros [= <-]. unfold loaded_rels, rels_of. cbn [workdir].
  by rewrite lookup_insert_ne.
Qed.

Variable p : list nat.
Variable tb : nat.
Variable block : XMLNode.

Lemma assemble_ready es : ∀ st st',
  ready p tb block st →
  assemble policy (Linked p) tb st es = Continue st' →
  ready p tb block st'.
Proof.
  induction es as [|e es IH]; intros st st' Hr H.
  - by injection H as <-.
  - pose proof (assemble_cons_Continue policy p tb block _ _ _ _ Hr H)
      as (f & i & root & _ & _ & _ & H').
    eapply IH; [|done]. by apply ready_after_entry.
Qed.

Lemma assemble_app es1 es2 st :
  assemble policy (Linked p) tb st (es1 ++ es2)
  = st1 ← assemble policy (Linked p) tb st es1; assemble policy (Linked p) tb st1 es2.
Proof.
  revert st. induction es1 as [|e es1 IH]; intros st; [done|].
  cbn [app assemble]. destruct (assemble_entry _ _ _ _ _); [|done].
  cbn [mbind step_bind]. apply IH.
Qed.

Lemma assemble_succeeds es : ∀ st,
  ready p tb block st →
  Forall (fun e => is_Some (disk (world st) !! imagePath e)) es →
  (es ≠ [] → is_Some (relationship_table (loaded_rels (world st)))) →
  (relId st + Z.of_nat (length es) ≤ INT_MAX)%Z →
  ∃ st', assemble policy (Linked p) tb st es = Continue st'.
Proof.
  induction es as [|e es IH]; intros st Hr Himg Hrels Hc; [by eexists|].
  destruct Hr as (Hok & Htb & nm & ats & ch & Hp).
  apply Forall_cons in Himg as [[f Hf] Himg].
  destruct Hrels as [table Ht]; [done|]. unfold relationship_table in Ht.
  destruct (FirstChildElement "Relationships" _) as [[i root]|] eqn:Hroot; [|done].
  cbn [assemble]. erewrite assemble_entry_eq by done. rewrite Hf, Hroot.
  cbn [length] in Hc.
  destruct (decide (relId st = INT_MAX)); [lia|]. cbn [mbind step_bind].
  apply IH.
  - apply ready_after_entry. split; [done|]. split; [done|]. by exists nm, ats, ch.
  - done.
  - intros _. rewrite loaded_rels_after_entry.
    erewrite relationship_table_alter by done. by eexists.
  - cbn. lia.
Qed.
End Steps.


Section Output.
Variable policy : GetTextPolicy.

(** The state at the end of the loop of a run that returns true, and what
    the output archive has of it. *)
Lemma generateDocx_package templateDocx outputDocx entries w w' :
  generateDocx policy templateDocx outputDocx entries w = (Return true, w') →
  ∃ tree st',
    archive_at templateDocx w = Some tree ∧
    assembled policy templateDocx entries w = Continue st' ∧
    relId st' = (10 + Z.of_nat (length entries))%Z ∧
    relationship_table (loaded_rels (world st'))
      = (fun t => t ++ expected_rels 10 entries) <$> relationship_table (rels_of tree) ∧
    (∀ (k : nat) e, entries !! k = Some e →
       is_Some (disk w !! imagePath e) ∧
       workdir (world st') !! media_path (10 + Z.of_nat k) e = disk w !! imagePath e) ∧
    (outputDocx ∉ locked w →
     ∃ tree',
       archive_at outputDocx w' = Some tree' ∧
       tree' !! docXml = Some (XmlFile (linked (doc st'))) ∧
       ∀ path, path ≠ docXml → tree' !! path = workdir (world st') !! path).
Proof.
  intros H. apply generateDocx_run in H
    as (tree & nodes & i & j & first & rest & st' &
        Hz & Hl & Hb & Ho & Hc & Htb & Hempty & Hr & Ha & Hasm & Hbody & ->).
  destruct (assemble_disk policy [i; j] 0 first entries _ _ Hr Ha) as (_ & Hlk & _).
  exists tree, st'. split; [done|]. split; [done|].
  split; [apply (assemble_relId policy [i; j] 0 first entries _ _ Hr Ha)|].
  split; [apply (assemble_rels policy [i; j] 0 first entries _ _ Hr Ha)|].
  split.
  - intros k e Hk.
    by apply (assemble_media policy [i; j] 0 first entries _ _ k e Hr Ha).
  - intros Hout. eexists. split; [apply finalize_archive; by rewrite Hlk|].
    split; [by rewrite lookup_insert_eq|].
    intros path Hpath. by rewrite lookup_insert_ne.
Qed.
End Output.

Section Bodies.
Variable policy : GetTextPolicy.

(** The body of the document during the loop that follows [capture_template]. *)
Lemma assemble_body nodes i root j bodyNode first w c entries st' :
  FirstChildElement "w:document" nodes = Some (i, root) →
  FirstChildElement "w:body" (child_nodes root) = Some (j, bodyNode) →
  assemble policy (Linked [i; j]) 0
    (mkAssembler (captured nodes i j first) w c) entries = Continue st' →
  document_body (linked (doc st')) = Some (expected_pages policy first c entries) ∧
  deref (doc st') (Unlinked 0) = Some first.
Proof.
  intros Hi Hj Ha.
  pose proof (captured_ready nodes i root j bodyNode first w c Hi Hj) as Hr.
  split.
  - rewrite (assemble_linked policy [i; j] 0 first entries _ _ Hr Ha).
    cbn [doc captured linked relId]. rewrite alter_at_alter_at.
    erewrite (alter_at_ext _ (with_children (fun _ => expected_pages policy first c entries))).
    + by erewrite document_body_alter_at.
    + intros n _. by destruct n.
  - cbn [deref]. rewrite (assemble_unlinked policy [i; j] 0 first entries _ _ Hr Ha).
    cbn. by rewrite lookup_insert_eq.
Qed.
End Bodies.

Lemma expected_pages_app policy block es1 : ∀ c es2,
  expected_pages policy block c (es1 ++ es2)
  = expected_pages policy block c es1
    ++ expected_pages policy block (c + Z.of_nat (length es1)) es2.
Proof.
  induction es1 as [|e es1 IH]; intros c es2.
  - cbn. by rewrite Z.add_0_r.
  - cbn [app expected_pages length]. rewrite IH.
    replace (c + 1 + Z.of_nat (length es1))%Z with (c + Z.of_nat (S (length es1)))%Z by lia.
    done.
Qed.

(** The counter is an [int]: the iteration that would take it past
    [INT_MAX] ends in undefined behaviour, so no run that returns true has
    gone that far. *)
Lemma counter_overflow_undefined policy p tb st e block nm ats ch f i root :
  pool_ok (doc st) →
  unlinked (doc st) !! tb = Some block →
  node_at (linked (doc st)) p = Some (XMLElement nm ats ch) →
  disk (world st) !! imagePath e = Some f →
  FirstChildElement "Relationships" (loaded_rels (world st)) = Some (i, root) →
  relId st = INT_MAX →
  ∃ w, assemble_entry policy (Linked p) tb st e = Exits Undefined w.
Proof.
  intros Hok Htb Hp Hf Hroot Hmax.
  erewrite assemble_entry_eq by done. rewrite Hf, Hroot.
  destruct (decide (relId st = INT_MAX)); [by eexists|done].
Qed.

(** ** Calls that do not return true *)

Section Failures.
Variable policy : GetTextPolicy.

Lemma update_rels_disk rId imgName w :
  match update_rels rId imgName w with
  | Continue w' | Exits _ w' => disk w' = disk w
  end.
Proof.
  unfold update_rels. by destruct (FirstChildElement _ _) as [[i root]|].
Qed.

Lemma copy_file_disk from to w w' : fs.copy_file from to w = Some w' → disk w' = disk w.
Proof. unfold fs.copy_file. destruct (disk w !! from); [|done]. by intros [= <-]. Qed.

(** Nothing in the loop writes outside the working directory. *)
Lemma assemble_entry_disk body tb st e :
  match assemble_entry policy body tb st e with
  | Continue st' => disk (world st') = disk (world st)
  | Exits _ w' => disk w' = disk (world st)
  end.
Proof.
  unfold assemble_entry. destruct (deref _ _); [|done].
  cbn [nonnull mbind step_bind]. destruct (DeepClone _ _) as [page d].
  destruct (fs.copy_file _ _ _) as [w1|] eqn:Hc; [|done].
  apply copy_file_disk in Hc.
  pose proof (update_rels_disk (rId (relId st)) (imgName (relId st) e) w1) as Hu.
  destruct (update_rels _ _ _) as [w2|x2 w2]; cbn [mbind step_bind]; [|congruence].
  assert (disk w2 = disk (world st)) as Hw2 by congruence.
  destruct (InsertEndChild _ _ _); cbn [nonnull mbind step_bind]; [|done].
  unfold append_page_break.
  repeat match goal with
         | |- context [let '(_, _) := ?t in _] => destruct t
         end.
  repeat (match goal with
          | |- context [InsertEndChild ?a ?b ?c] => destruct (InsertEndChild a b c)
          end; cbn [nonnull mbind step_bind]; try done).
  by destruct (decide _).
Qed.

Lemma assemble_disk_any body tb entries : ∀ st,
  match assemble policy body tb st entries with
  | Continue st' => disk (world st') = disk (world st)
  | Exits _ w' => disk w' = disk (world st)
  end.
Proof.
  induction entries as [|e entries IH]; intros st; [done|].
  cbn [assemble]. pose proof (assemble_entry_disk body tb st e) as He.
  destruct (assemble_entry _ _ _ _ _) as [st1|x w1]; cbn [mbind step_bind]; [|done].
  specialize (IH st1). destruct (assemble _ _ _ _ _); congruence.
Qed.

Lemma assembled_disk templateDocx entries w :
  match assembled policy templateDocx entries w with
  | Continue st' => disk (world st') = disk w
  | Exits _ w' => disk w' = disk w
  end.
Proof.
  unfold assembled, open_template, unzip, fs.remove_all_tmp. cbn [disk locked].
  destruct (disk w !! templateDocx) as [[| |tree]|]; try done.
  cbn [negb workdir]. destruct (LoadFile _); [|done]. cbn [mbind step_bind].
  unfold capture_template.
  destruct (FirstChildElement "w:document" _) as [[i root]|]; [|done].
  cbn [nonnull mbind step_bind].
  destruct (FirstChildElement "w:body" _) as [[j bodyNode]|]; [|done].
  destruct (FirstChild bodyNode); [|done].
  cbn [nonnull mbind step_bind]. destruct (DeepClone _ _) as [tb d].
  cbn [mbind step_bind].
  apply (assemble_disk_any (Linked [i; j]) tb entries
           (mkAssembler _ (mkWorld (disk w) tree (locked w)) 10)).
Qed.

(** Unless the call returns true, no file outside the working directory is
    written: there is no output, partial or whole. *)
Lemma no_output_unless_true templateDocx outputDocx entries w :
  (generateDocx policy templateDocx outputDocx entries w).1 ≠ Return true →
  disk (generateDocx policy templateDocx outputDocx entries w).2 = disk w.
Proof.
  unfold generateDocx. pose proof (assembled_disk templateDocx entries w) as H.
  destruct (assembled _ _ _ _) as [st'|x w']; [|done].
  unfold finalize. destruct (rezip _ _). done.
Qed.

(** The failures that the code does report. *)
Lemma unreadable_template_false templateDocx outputDocx entries w :
  archive_at templateDocx w = None →
  (generateDocx policy templateDocx outputDocx entries w).1 = Return false.
Proof.
  unfold archive_at, generateDocx, assembled, open_template, unzip, fs.remove_all_tmp.
  cbn [disk locked]. by destruct (disk w !! templateDocx) as [[| |tree]|].
Qed.

Lemma unparsable_document_false templateDocx outputDocx entries w tree :
  archive_at templateDocx w = Some tree →
  LoadFile (tree !! docXml) = None →
  (generateDocx policy templateDocx outputDocx entries w).1 = Return false.
Proof.
  unfold archive_at, generateDocx, assembled, open_template, unzip, fs.remove_all_tmp.
  cbn [disk locked]. destruct (disk w !! templateDocx) as [[| |tree0]|]; try done.
  intros [= ->] Hl. cbn [negb workdir]. by rewrite Hl.
Qed.

Lemma missing_body_false templateDocx outputDocx entries w tree nodes i root :
  archive_at templateDocx w = Some tree →
  LoadFile (tree !! docXml) = Some nodes →
  FirstChildElement "w:document" nodes = Some (i, root) →
  FirstChildElement "w:body" (child_nodes root) = None →
  (generateDocx policy templateDocx outputDocx entries w).1 = Return false.
Proof.
  unfold archive_at, generateDocx, assembled, open_template, unzip, fs.remove_all_tmp.
  cbn [disk locked]. destruct (disk w !! templateDocx) as [[| |tree0]|]; try done.
  intros [= ->] Hl Hi Hj. cbn [negb workdir]. rewrite Hl. cbn [mbind step_bind].
  unfold capture_template. cbn [linked]. rewrite Hi. cbn [nonnull mbind step_bind].
  by rewrite Hj.
Qed.
End Failures.

(** ** The blocks of the entries, in the words of the specification *)

Lemma leaf_texts_rewire_images r page :
  leaf_texts (rewire_images r page) = leaf_texts page.
Proof.
  destruct page as [nm ats ch| | | |]; try done.
  cbn [rewire_images with_children leaf_texts].
  induction ch as [|e ch IH]; [done|].
  cbn [map flat_map]. rewrite IH. f_equal.
  destruct (ToElement e && contains "a:blip" (Name e)); [|done].
  by destruct e as [nm' ats' ch'| | | |].
Qed.

Lemma rewire_images_spec r page :
  rewire_images r page =
  match page with
  | XMLElement nm ats ch => XMLElement nm ats (map (with_image_reference r) ch)
  | n => n
  end.
Proof.
  destruct page as [nm ats ch| | | |]; try done.
  cbn [rewire_images with_children]. f_equal. apply map_ext. intros e2.
  by destruct e2 as [nm2 ats2 ch2| | | |].
Qed.

(** Where the template block has no stray hit for either token, the block
    the code makes for an entry is the block of the specification. *)
Lemma stamped_substituted_clone policy block c e :
  has_stray_hit policy "{{HEADER}}" block = false →
  has_stray_hit policy "{{DESCRIPTION}}" block = false →
  stamped policy block c e = substituted_clone block c e.
Proof.
  intros Hh Hd. unfold stamped, substituted_clone.
  rewrite (replaceTokens_substituted policy _ (header e) block Hh).
  rewrite replaceTokens_substituted by (by rewrite has_stray_hit_substituted).
  rewrite rewire_images_spec. by destruct (substituted "{{DESCRIPTION}}" _ _).
Qed.

Lemma expected_pages_expected_body policy block entries : ∀ c,
  has_stray_hit policy "{{HEADER}}" block = false →
  has_stray_hit policy "{{DESCRIPTION}}" block = false →
  expected_pages policy block c entries = expected_body block c entries.
Proof.
  induction entries as [|e entries IH]; intros c Hh Hd; [done|].
  cbn [expected_pages expected_body].
  by rewrite stamped_substituted_clone, IH.
Qed.

(** The texts of the block of an entry: the two substitutions, one after
    the other. *)
Lemma leaf_texts_stamped policy block c e :
  leaf_texts (stamped policy block c e)
  = map (fun s => subst_string "{{DESCRIPTION}}" (description e)
                    (subst_string "{{HEADER}}" (header e) s))
        (leaf_texts block).
Proof.
  unfold stamped.
  by rewrite leaf_texts_rewire_images, !leaf_texts_replaceTokens, map_map.
Qed.

(** Every child element of the block of an entry that has [a:blip] in its
    name refers to the identifier of the entry. *)
Lemma stamped_embed policy block c e (k : nat) e2 :
  child_nodes (stamped policy block c e) !! k = Some e2 →
  ToElement e2 = true → contains "a:blip" (Name e2) = true →
  Attribute "r:embed" e2 = Some ("rId" +:+ to_string c).
Proof.
  unfold stamped. rewrite rewire_images_spec.
  destruct (replaceTokens policy "{{DESCRIPTION}}" _ _) as [nm ats ch| | | |]; try done.
  cbn [child_nodes]. change (map ?f ch) with (f <$> ch).
  rewrite list_lookup_fmap. destruct (ch !! k) as [e0|]; [|done].
  intros [= <-]. destruct e0 as [nm0 ats0 ch0| | | |]; try done. cbn.
  destruct (contains "a:blip" nm0) eqn:Hc; cbn; intros _.
  - intros _. apply find_attribute_set_eq.
  - congruence.
Qed.

(** ** The claims about generateDocx *)

(** C1.  Whenever [generateDocx] returns true, the template's body had at
    least one child, [first]; after the template block was captured the body
    had no child left (so every child the body had before is gone before the
    first entry is processed); and at the end of the loop the body of the
    document that is saved holds twice as many blocks as there are entries:
    for the entry at position [i], the block at position [2i] is the clone
    of [first] made for that entry under counter [10+i], and the block at
    position [2i+1] is a paragraph holding one page break; there is nothing
    else.  Of the clone of an entry: the texts of its text-bearing leaves
    are those of [first] with the header token replaced by the header and
    then the description token by the description, and every child element
    with [a:blip] in its name refers to ["rId" + (10+i)]; and where no [w:t]
    element of [first] holds a comment before a token, the whole body is
    the body the specification describes ([expected_body]), block by block.
    Where the output can be written, that document is the main document of
    the output archive. *)
Theorem generateDocx_body policy templateDocx outputDocx entries w w' :
  generateDocx policy templateDocx outputDocx entries w = (Return true, w') →
  ∃ tree nodes first rest d0 w0 body templateBlock d1 st' blocks,
    archive_at templateDocx w = Some tree ∧
    LoadFile (tree !! docXml) = Some nodes ∧
    document_body nodes = Some (first :: rest) ∧
    open_template templateDocx w = Continue (d0, w0) ∧
    capture_template w0 d0 = Continue (body, templateBlock, d1) ∧
    deref d1 (Unlinked templateBlock) = Some first ∧
    child_nodes <$> deref d1 body = Some [] ∧
    assemble policy body templateBlock (mkAssembler d1 w0 10) entries = Continue st' ∧
    document_body (linked (doc st')) = Some blocks ∧
    blocks = expected_pages policy first 10 entries ∧
    (has_stray_hit policy "{{HEADER}}" first = false →
     has_stray_hit policy "{{DESCRIPTION}}" first = false →
     blocks = expected_body first 10 entries) ∧
    length blocks = (2 * length entries)%nat ∧
    (∀ (i : nat) e, entries !! i = Some e →
       ∃ clone,
         blocks !! (2 * i)%nat = Some clone ∧
         blocks !! (2 * i + 1)%nat
           = Some (XMLElement "w:p" []
                     [XMLElement "w:r" [] [XMLElement "w:br" [("w:type", "page")] []]]) ∧
         leaf_texts clone
           = map (fun s =>
                    if String.eqb "{{HEADER}}" s then
                      if String.eqb "{{DESCRIPTION}}" (header e)
                      then description e else header e
                    else if String.eqb "{{DESCRIPTION}}" s then description e
                    else s)
               (leaf_texts first) ∧
         ∀ (k : nat) e2,
           child_nodes clone !! k = Some e2 →
           ToElement e2 = true → contains "a:blip" (Name e2) = true →
           Attribute "r:embed" e2 = Some ("rId" +:+ to_string (10 + Z.of_nat i))) ∧
    (outputDocx ∉ locked w →
     ∃ tree', archive_at outputDocx w' = Some tree' ∧
              tree' !! docXml = Some (XmlFile (linked (doc st')))).
Proof.
  intros H. apply generateDocx_run in H
    as (tree & nodes & i & j & first & rest & st' &
        Hz & Hl & Hb & Ho & Hc & Htb & Hempty & Hr & Ha & Hasm & Hbody & ->).
  exists tree, nodes, first, rest, (mkXMLDocument nodes ∅ 0), (extracted tree w),
    (Linked [i; j]), 0%nat, (captured nodes i j first), st',
    (expected_pages policy first 10 entries).
  repeat (split; [done|]).
  split; [intros Hh Hd; by apply expected_pages_expected_body|].
  split; [apply expected_pages_length|].
  split.
  - intros k e Hk.
    destruct (expected_pages_lookup policy first entries 10 k e Hk) as [Hblk Hbrk].
    exists (stamped policy first (10 + Z.of_nat k) e).
    split; [done|]. split; [done|]. split.
    + rewrite leaf_texts_stamped. apply map_ext. intros s. unfold subst_string.
      by destruct (String.eqb "{{HEADER}}" s).
    + apply stamped_embed.
  - intros Hl'.
    destruct (assemble_disk policy [i; j] 0 first entries _ _ Hr Ha) as (_ & Hlk & _).
    eexists. split.
    + apply finalize_archive. by rewrite Hlk.
    + by rewrite lookup_insert_eq.
Qed.

Lemma generateDocx_body_witness :
  generateDocx SkipLeadingComments "template.docx" "out.docx" sample.entries
    sample.scenario = (Return true, sample.outcome.2) ∧
  ∃ tree nodes first rest d0 w0 body templateBlock d1 st' blocks,
    archive_at "template.docx" sample.scenario = Some tree ∧
    LoadFile (tree !! docXml) = Some nodes ∧
    document_body nodes = Some (first :: rest) ∧
    open_template "template.docx" sample.scenario = Continue (d0, w0) ∧
    capture_template w0 d0 = Continue (body, templateBlock, d1) ∧
    deref d1 (Unlinked templateBlock) = Some first ∧
    child_nodes <$> deref d1 body = Some [] ∧
    assemble SkipLeadingComments body templateBlock (mkAssembler d1 w0 10)
      sample.entries = Continue st' ∧
    document_body (linked (doc st')) = Some blocks ∧
    blocks = expected_pages SkipLeadingComments first 10 sample.entries ∧
    (has_stray_hit SkipLeadingComments "{{HEADER}}" first = false →
     has_stray_hit SkipLeadingComments "{{DESCRIPTION}}" first = false →
     blocks = expected_body first 10 sample.entries) ∧
    length blocks = (2 * length sample.entries)%nat ∧
    (∀ (i : nat) e, sample.entries !! i = Some e →
       ∃ clone,
         blocks !! (2 * i)%nat = Some clone ∧
         blocks !! (2 * i + 1)%nat
           = Some (XMLElement "w:p" []
                     [XMLElement "w:r" [] [XMLElement "w:br" [("w:type", "page")] []]]) ∧
         leaf_texts clone
           = map (fun s =>
                    if String.eqb "{{HEADER}}" s then
                      if String.eqb "{{DESCRIPTION}}" (header e)
                      then description e else header e
                    else if String.eqb "{{DESCRIPTION}}" s then description e
                    else s)
               (leaf_texts first) ∧
         ∀ (k : nat) e2,
           child_nodes clone !! k = Some e2 →
           ToElement e2 = true → contains "a:blip" (Name e2) = true →
           Attribute "r:embed" e2 = Some ("rId" +:+ to_string (10 + Z.of_nat i))) ∧
    ("out.docx" ∉ locked sample.scenario →
     ∃ tree', archive_at "out.docx" sample.outcome.2 = Some tree' ∧
              tree' !! docXml = Some (XmlFile (linked (doc st')))).
Proof.
  assert (generateDocx SkipLeadingComments "template.docx" "out.docx" sample.entries
            sample.scenario = (Return true, sample.outcome.2)) as Hrun
    by (vm_compute; reflexivity).
  split; [exact Hrun|].
  exact (generateDocx_body _ _ _ _ _ _ Hrun).
Defined.

(** The body of the scenario in the words of the specification: the two
    pages of its example, each followed by a page break. *)
Lemma scenario_body :
  expected_body sample.block 10 sample.entries
  = [XMLElement "w:p" [] [sample.run "A"; sample.run "d1"; sample.blip "rId10"];
     page_break;
     XMLElement "w:p" [] [sample.run "B"; sample.run "d2"; sample.blip "rId11"];
     page_break].
Proof. vm_compute. done. Qed.

(** The run of the scenario, spelled out: the two pages of the
    specification's example. *)
Lemma scenario_pages :
  expected_pages SkipLeadingComments sample.block 10 sample.entries
  = [XMLElement "w:p" [] [sample.run "A"; sample.run "d1"; sample.blip "rId10"];
     page_break;
     XMLElement "w:p" [] [sample.run "B"; sample.run "d2"; sample.blip "rId11"];
     page_break].
Proof. vm_compute. done. Qed.

(** C2.  Whenever [generateDocx] returns true, at the end of the loop the
    counter is 10 plus the number of entries, and for every position [i] of
    the entry list the image of the [i]-th entry is in the working
    directory under ["word/media/image" + (10+i) + extension of the source
    path]; the relationship table is the table of the template followed by
    one record per entry, in order, and the record of the [i]-th entry has
    Id ["rId" + (10+i)], the image relationship type and Target
    ["media/image" + (10+i) + extension]: the counter starts at 10 and grows
    by one per entry.  Where the output can be written, the archive holds
    these files of the working directory. *)
Theorem generateDocx_media_and_relationships policy templateDocx outputDocx entries w w' :
  generateDocx policy templateDocx outputDocx entries w = (Return true, w') →
  ∃ tree st',
    archive_at templateDocx w = Some tree ∧
    assembled policy templateDocx entries w = Continue st' ∧
    relId st' = (10 + Z.of_nat (length entries))%Z ∧
    (∀ (i : nat) e, entries !! i = Some e →
       ∃ image,
         disk w !! imagePath e = Some image ∧
         workdir (world st') !! ("word/media/image" +:+ to_string (10 + Z.of_nat i)
                                   +:+ fs.extension (imagePath e)) = Some image) ∧
    relationship_table (loaded_rels (world st'))
      = (fun t => t ++ expected_rels 10 entries) <$> relationship_table (rels_of tree) ∧
    length (expected_rels 10 entries) = length entries ∧
    (∀ (i : nat) e, entries !! i = Some e →
       expected_rels 10 entries !! i =
       Some (XMLElement "Relationship"
               [("Id", "rId" +:+ to_string (10 + Z.of_nat i));
                ("Type",
                 "http://schemas.openxmlformats.org/officeDocument/2006/relationships/image");
                ("Target", "media/image" +:+ to_string (10 + Z.of_nat i)
                             +:+ fs.extension (imagePath e))] [])) ∧
    (outputDocx ∉ locked w →
     ∃ tree',
       archive_at outputDocx w' = Some tree' ∧
       ∀ path, path ≠ docXml → tree' !! path = workdir (world st') !! path).
Proof.
  intros H.
  destruct (generateDocx_package policy _ _ _ _ _ H)
    as (tree & st' & Hz & Hasm & Hc & Hrels & Hmedia & Hout).
  exists tree, st'. split; [done|]. split; [done|]. split; [done|].
  split; [|split; [done|split; [|split]]].
  - intros i e Hi. destruct (Hmedia i e Hi) as [[image Himg] Ht].
    exists image. split; [done|]. rewrite <- Himg, <- Ht. done.
  - apply expected_rels_length.
  - intros i e Hi. rewrite expected_rels_lookup, Hi. done.
  - intros Hl. destruct (Hout Hl) as (tree' & Hz' & _ & Hrest). by exists tree'.
Qed.

Lemma generateDocx_media_and_relationships_witness :
  generateDocx SkipLeadingComments "template.docx" "out.docx" sample.entries
    sample.scenario = (Return true, sample.outcome.2) ∧
  ∃ tree st',
    archive_at "template.docx" sample.scenario = Some tree ∧
    assembled SkipLeadingComments "template.docx" sample.entries sample.scenario
      = Continue st' ∧
    relId st' = (10 + Z.of_nat (length sample.entries))%Z ∧
    (∀ (i : nat) e, sample.entries !! i = Some e →
       ∃ image,
         disk sample.scenario !! imagePath e = Some image ∧
         workdir (world st') !! ("word/media/image" +:+ to_string (10 + Z.of_nat i)
                                   +:+ fs.extension (imagePath e)) = Some image) ∧
    relationship_table (loaded_rels (world st'))
      = (fun t => t ++ expected_rels 10 sample.entries)
          <$> relationship_table (rels_of tree) ∧
    length (expected_rels 10 sample.entries) = length sample.entries ∧
    (∀ (i : nat) e, sample.entries !! i = Some e →
       expected_rels 10 sample.entries !! i =
       Some (XMLElement "Relationship"
               [("Id", "rId" +:+ to_string (10 + Z.of_nat i));
                ("Type",
                 "http://schemas.openxmlformats.org/officeDocument/2006/relationships/image");
                ("Target", "media/image" +:+ to_string (10 + Z.of_nat i)
                             +:+ fs.extension (imagePath e))] [])) ∧
    ("out.docx" ∉ locked sample.scenario →
     ∃ tree',
       archive_at "out.docx" sample.outcome.2 = Some tree' ∧
       ∀ path, path ≠ docXml → tree' !! path = workdir (world st') !! path).
Proof.
  assert (generateDocx SkipLeadingComments "template.docx" "out.docx" sample.entries
            sample.scenario = (Return true, sample.outcome.2)) as Hrun
    by (vm_compute; reflexivity).
  split; [exact Hrun|].
  exact (generateDocx_media_and_relationships _ _ _ _ _ _ Hrun).
Defined.

(** The run of the scenario, spelled out: the files and records of the
    specification's example. *)
Lemma scenario_output :
  (archive_at "out.docx" sample.outcome.2 ≫= fun tree' =>
     Some (tree' !! "word/media/image10.png", tree' !! "word/media/image11.jpg",
           relationship_table (rels_of tree')))
  = Some (Some (Blob "A"), Some (Blob "B"),
          Some [sample.relationship "rId5" "media/image1.png";
                sample.relationship "rId10" "media/image10.png";
                sample.relationship "rId11" "media/image11.jpg"]).
Proof. vm_compute. done. Qed.

(** C6 (as amended).  Whenever [generateDocx] returns true, the relationship
    table at the end of the loop (the one the output archive gets) is the
    table of the template followed by the generated records; the generated
    identifiers are "rId10", "rId11", ... in entry order, one more per
    entry, and are pairwise distinct; and the identifiers of the whole table
    are pairwise distinct provided those of the template are and none of
    them is one of the generated ones. *)
Theorem generated_ids_unique policy templateDocx outputDocx entries w w' :
  generateDocx policy templateDocx outputDocx entries w = (Return true, w') →
  ∃ tree st',
    archive_at templateDocx w = Some tree ∧
    assembled policy templateDocx entries w = Continue st' ∧
    relationship_table (loaded_rels (world st'))
      = (fun t => t ++ expected_rels 10 entries) <$> relationship_table (rels_of tree) ∧
    (outputDocx ∉ locked w →
     ∃ tree', archive_at outputDocx w' = Some tree' ∧
              rels_of tree' = loaded_rels (world st')) ∧
    relationship_ids (expected_rels 10 entries)
      = (fun i : nat => "rId" +:+ to_string (10 + Z.of_nat i)) <$> seq 0 (length entries) ∧
    NoDup (relationship_ids (expected_rels 10 entries)) ∧
    ∀ table,
      relationship_table (rels_of tree) = Some table →
      NoDup (relationship_ids table) →
      (∀ i : nat, (i < length entries)%nat →
         "rId" +:+ to_string (10 + Z.of_nat i) ∉ relationship_ids table) →
      NoDup (relationship_ids (table ++ expected_rels 10 entries)).
Proof.
  intros H.
  destruct (generateDocx_package policy _ _ _ _ _ H)
    as (tree & st' & Hz & Hasm & _ & Hrels & _ & Hout).
  exists tree, st'. split; [done|]. split; [done|]. split; [done|]. split.
  { intros Hl. destruct (Hout Hl) as (tree' & Hz' & _ & Hrest).
    exists tree'. split; [done|]. unfold loaded_rels, rels_of.
    by rewrite Hrest by (apply not_eq_sym, docXml_not_rels). }
  split; [apply relationship_ids_expected|].
  split; [rewrite relationship_ids_expected; apply NoDup_generated_ids|].
  intros table _ Hnd Hfresh. rewrite relationship_ids_app. apply NoDup_app.
  split; [done|]. split; [|rewrite relationship_ids_expected; apply NoDup_generated_ids].
  intros id Hid. rewrite relationship_ids_expected.
  intros Hgen. apply list_elem_of_fmap in Hgen as (i & -> & Hi).
  apply elem_of_seq in Hi. apply (Hfresh i); [lia|done].
Qed.

Lemma generated_ids_unique_witness :
  generateDocx SkipLeadingComments "template.docx" "out.docx" sample.entries
    sample.scenario = (Return true, sample.outcome.2) ∧
  ∃ tree st',
    archive_at "template.docx" sample.scenario = Some tree ∧
    assembled SkipLeadingComments "template.docx" sample.entries sample.scenario
      = Continue st' ∧
    relationship_table (loaded_rels (world st'))
      = (fun t => t ++ expected_rels 10 sample.entries)
          <$> relationship_table (rels_of tree) ∧
    ("out.docx" ∉ locked sample.scenario →
     ∃ tree', archive_at "out.docx" sample.outcome.2 = Some tree' ∧
              rels_of tree' = loaded_rels (world st')) ∧
    relationship_ids (expected_rels 10 sample.entries)
      = (fun i : nat => "rId" +:+ to_string (10 + Z.of_nat i))
          <$> seq 0 (length sample.entries) ∧
    NoDup (relationship_ids (expected_rels 10 sample.entries)) ∧
    ∀ table,
      relationship_table (rels_of tree) = Some table →
      NoDup (relationship_ids table) →
      (∀ i : nat, (i < length sample.entries)%nat →
         "rId" +:+ to_string (10 + Z.of_nat i) ∉ relationship_ids table) →
      NoDup (relationship_ids (table ++ expected_rels 10 sample.entries)).
Proof.
  assert (generateDocx SkipLeadingComments "template.docx" "out.docx" sample.entries
            sample.scenario = (Return true, sample.outcome.2)) as Hrun
    by (vm_compute; reflexivity).
  split; [exact Hrun|].
  exact (generated_ids_unique _ _ _ _ _ _ Hrun).
Defined.

(** C6, counterexample.  The template already has a relationship "rId10";
    the run for one entry returns true, and the relationship table at the
    end of the loop, which is the one in the output archive, holds the
    identifier "rId10" twice. *)
Lemma duplicate_relationship_id :
  (generateDocx SkipLeadingComments "template.docx" "out.docx"
     [mkEntry "A" "d1" "a.png"] sample.clash).1 = Return true ∧
  relationship_ids <$>
    match
      assembled SkipLeadingComments "template.docx" [mkEntry "A" "d1" "a.png"] sample.clash
    with
    | Continue st' => relationship_table (loaded_rels (world st'))
    | Exits _ _ => None
    end
  = Some ["rId5"; "rId10"; "rId10"] ∧
  relationship_ids <$>
    (archive_at "out.docx"
       (generateDocx SkipLeadingComments "template.docx" "out.docx"
          [mkEntry "A" "d1" "a.png"] sample.clash).2
     ≫= fun tree' => relationship_table (rels_of tree'))
  = Some ["rId5"; "rId10"; "rId10"] ∧
  ¬ NoDup ["rId5"; "rId10"; "rId10"].
Proof.
  split; [vm_compute; done|]. split; [vm_compute; done|]. split; [vm_compute; done|].
  intros Hnd. apply NoDup_cons in Hnd as [_ Hnd]. apply NoDup_cons in Hnd as [Hin _].
  apply Hin. apply list_elem_of_here.
Qed.

(** C8.  Whenever [generateDocx] returns true: the template block that
    [capture_template] put into the pool is still there, unchanged, after
    all entries were processed, and at every point in between; the block of
    each entry in the final body is the stamp of that unchanged block for
    that entry alone; and the blocks appended for the first entries are
    still, unchanged, the beginning of the body after the later ones were
    processed. *)
Theorem template_block_untouched policy templateDocx outputDocx entries w w' :
  generateDocx policy templateDocx outputDocx entries w = (Return true, w') →
  ∃ d0 w0 body templateBlock d1 block st',
    open_template templateDocx w = Continue (d0, w0) ∧
    capture_template w0 d0 = Continue (body, templateBlock, d1) ∧
    deref d1 (Unlinked templateBlock) = Some block ∧
    assemble policy body templateBlock (mkAssembler d1 w0 10) entries = Continue st' ∧
    deref (doc st') (Unlinked templateBlock) = Some block ∧
    (∀ (i : nat) e, entries !! i = Some e →
       document_body (linked (doc st')) ≫= (fun blocks => blocks !! (2 * i)%nat)
       = Some (stamped policy block (10 + Z.of_nat i) e)) ∧
    (∀ done todo, entries = done ++ todo →
       ∃ st blocks,
         assemble policy body templateBlock (mkAssembler d1 w0 10) done = Continue st ∧
         deref (doc st) (Unlinked templateBlock) = Some block ∧
         document_body (linked (doc st)) = Some blocks ∧
         document_body (linked (doc st'))
           = Some (blocks ++ expected_pages policy block (10 + Z.of_nat (length done)) todo)).
Proof.
  intros H. apply generateDocx_true in H
    as (tree & nodes & i & root & j & bodyNode & first & st' &
        Hz & Hl & Hi & Hj & Hf & Ho & Hc & Ha & ->).
  exists (mkXMLDocument nodes ∅ 0), (extracted tree w), (Linked [i; j]), 0%nat,
    (captured nodes i j first), first, st'.
  destruct (assemble_body policy _ _ _ _ _ _ _ _ _ _ Hi Hj Ha) as [Hbody Htb].
  split; [done|]. split; [done|].
  split; [by cbn; rewrite lookup_insert_eq|]. split; [done|]. split; [done|]. split.
  - intros k e Hk. rewrite Hbody. cbn [mbind option_bind].
    by apply expected_pages_lookup.
  - intros es1 es2 ->. rewrite assemble_app in Ha.
    destruct (assemble policy (Linked [i; j]) 0 _ es1) as [st|x w1] eqn:H1; [|done].
    cbn [mbind step_bind] in Ha.
    destruct (assemble_body policy _ _ _ _ _ _ _ _ _ _ Hi Hj H1) as [Hbody1 Htb1].
    exists st, (expected_pages policy first 10 es1).
    split; [done|]. split; [done|]. split; [done|].
    by rewrite Hbody, expected_pages_app.
Qed.

Lemma template_block_untouched_witness :
  generateDocx SkipLeadingComments "template.docx" "out.docx" sample.entries
    sample.scenario = (Return true, sample.outcome.2) ∧
  ∃ d0 w0 body templateBlock d1 block st',
    open_template "template.docx" sample.scenario = Continue (d0, w0) ∧
    capture_template w0 d0 = Continue (body, templateBlock, d1) ∧
    deref d1 (Unlinked templateBlock) = Some block ∧
    assemble SkipLeadingComments body templateBlock (mkAssembler d1 w0 10)
      sample.entries = Continue st' ∧
    deref (doc st') (Unlinked templateBlock) = Some block ∧
    (∀ (i : nat) e, sample.entries !! i = Some e →
       document_body (linked (doc st')) ≫= (fun blocks => blocks !! (2 * i)%nat)
       = Some (stamped SkipLeadingComments block (10 + Z.of_nat i) e)) ∧
    (∀ done todo, sample.entries = done ++ todo →
       ∃ st blocks,
         assemble SkipLeadingComments body templateBlock (mkAssembler d1 w0 10) done
           = Continue st ∧
         deref (doc st) (Unlinked templateBlock) = Some block ∧
         document_body (linked (doc st)) = Some blocks ∧
         document_body (linked (doc st'))
           = Some (blocks ++ expected_pages SkipLeadingComments block
                               (10 + Z.of_nat (length done)) todo)).
Proof.
  assert (generateDocx SkipLeadingComments "template.docx" "out.docx" sample.entries
            sample.scenario = (Return true, sample.outcome.2)) as Hrun
    by (vm_compute; reflexivity).
  split; [exact Hrun|].
  exact (template_block_untouched _ _ _ _ _ _ Hrun).
Defined.

(** C9.  Every iteration of the loop that goes on found a relationship table
    and left it with exactly one record more, at the end: every record that
    was in the table before the update is in it afterwards, unmodified and
    at the same position. *)
Theorem relationship_update_appends policy body templateBlock st e st' :
  assemble_entry policy body templateBlock st e = Continue st' →
  ∃ table,
    relationship_table (loaded_rels (world st)) = Some table ∧
    relationship_table (loaded_rels (world st'))
      = Some (table ++ [newRel (rId (relId st)) (imgName (relId st) e)]) ∧
    ∀ (i : nat) record, table !! i = Some record →
      (relationship_table (loaded_rels (world st')) ≫= fun table' => table' !! i)
      = Some record.
Proof.
  intros H. apply assemble_entry_world in H as (w1 & Hcopy & Hup & _).
  apply update_rels_table in Hup as (table & Ht & Ht').
  rewrite (copy_file_rels _ _ _ _ (media_path_not_rels _ _) Hcopy) in Ht.
  exists table. split; [done|]. split; [done|].
  intros i record Hi. rewrite Ht'. cbn [mbind option_bind].
  by apply lookup_app_l_Some.
Qed.

Lemma relationship_update_appends_witness :
  assemble_entry SkipLeadingComments (Linked [1; 0]%nat) 0 sample.scenario_state
    (mkEntry "A" "d1" "a.png") = Continue sample.scenario_next ∧
  ∃ table,
    relationship_table (loaded_rels (world sample.scenario_state)) = Some table ∧
    relationship_table (loaded_rels (world sample.scenario_next))
      = Some (table ++ [newRel (rId (relId sample.scenario_state))
                          (imgName (relId sample.scenario_state)
                             (mkEntry "A" "d1" "a.png"))]) ∧
    ∀ (i : nat) record, table !! i = Some record →
      (relationship_table (loaded_rels (world sample.scenario_next))
         ≫= fun table' => table' !! i)
      = Some record.
Proof.
  assert (assemble_entry SkipLeadingComments (Linked [1; 0]%nat) 0 sample.scenario_state
            (mkEntry "A" "d1" "a.png") = Continue sample.scenario_next) as Hstep
    by (vm_compute; reflexivity).
  split; [exact Hstep|].
  exact (relationship_update_appends _ _ _ _ _ _ Hstep).
Defined.

(** C3 (as amended).  For every entry, every child element of the clone
    whose name contains "a:blip" has its [r:embed] attribute set to
    ["rId" + counter] in the block that is appended; its name, its children
    and its other attributes stay.  This holds for each such child, not
    only for the first. *)
Theorem image_references_rewired policy block c e (i : nat) e2 :
  child_nodes (replaceTokens policy "{{DESCRIPTION}}" (description e)
                 (replaceTokens policy "{{HEADER}}" (header e) block)) !! i = Some e2 →
  ToElement e2 = true →
  contains "a:blip" (Name e2) = true →
  ∃ e2',
    child_nodes (stamped policy block c e) !! i = Some e2' ∧
    Attribute "r:embed" e2' = Some ("rId" +:+ to_string c) ∧
    Name e2' = Name e2 ∧
    child_nodes e2' = child_nodes e2 ∧
    ∀ a, a ≠ "r:embed" → Attribute a e2' = Attribute a e2.
Proof.
  unfold stamped.
  generalize (replaceTokens policy "{{DESCRIPTION}}" (description e)
                (replaceTokens policy "{{HEADER}}" (header e) block)).
  intros page Hi He Hn. destruct page as [nm ats ch| | | |]; try done.
  cbn [child_nodes rewire_images with_children] in *.
  exists (SetAttribute "r:embed" (rId c) e2). split.
  - match goal with |- map ?f ch !! i = _ => change (map f ch) with (f <$> ch) end.
    rewrite list_lookup_fmap, Hi. cbn. by rewrite He, Hn.
  - destruct e2 as [enm eats ech| | | |]; try done. cbn.
    split; [apply find_attribute_set_eq|]. split; [done|]. split; [done|].
    intros a Ha. by apply find_attribute_set_ne.
Qed.

Lemma image_references_rewired_witness :
  child_nodes (replaceTokens SkipLeadingComments "{{DESCRIPTION}}" "d1"
                 (replaceTokens SkipLeadingComments "{{HEADER}}" "A"
                    sample.two_image_block)) !! 2%nat = Some (sample.blip "rId6") ∧
  ToElement (sample.blip "rId6") = true ∧
  contains "a:blip" (Name (sample.blip "rId6")) = true ∧
  ∃ e2',
    child_nodes (stamped SkipLeadingComments sample.two_image_block 10
                   (mkEntry "A" "d1" "a.png")) !! 2%nat = Some e2' ∧
    Attribute "r:embed" e2' = Some ("rId" +:+ to_string 10) ∧
    Name e2' = Name (sample.blip "rId6") ∧
    child_nodes e2' = child_nodes (sample.blip "rId6") ∧
    ∀ a, a ≠ "r:embed" → Attribute a e2' = Attribute a (sample.blip "rId6").
Proof.
  split; [reflexivity|]. split; [reflexivity|]. split; [reflexivity|].
  apply (image_references_rewired SkipLeadingComments sample.two_image_block 10
           (mkEntry "A" "d1" "a.png") 2 (sample.blip "rId6")); reflexivity.
Defined.

(** C3, counterexample.  A block with two image references among its
    children: the second one, which referred to "rId6", refers to "rId10"
    in the block of the entry, like the first. *)
Lemma second_image_reference_rewired :
  child_nodes sample.two_image_block !! 2%nat = Some (sample.blip "rId6") ∧
  child_nodes (stamped SkipLeadingComments sample.two_image_block 10 (mkEntry "A" "d1" "a.png"))
    !! 1%nat = Some (sample.blip "rId10") ∧
  child_nodes (stamped SkipLeadingComments sample.two_image_block 10 (mkEntry "A" "d1" "a.png"))
    !! 2%nat = Some (sample.blip "rId10").
Proof. vm_compute. done. Qed.

(** The loop of lines 120-124 looks at the children of the block only: an
    image reference below them, where a drawing has it, keeps its old
    identifier. *)
Lemma image_reference_in_drawing_kept policy :
  stamped policy sample.drawing_block 10 (mkEntry "A" "d1" "a.png")
  = XMLElement "w:p" []
      [sample.run "A"; XMLElement "w:r" [] [XMLElement "w:drawing" [] [sample.blip "rId5"]]].
Proof. destruct policy; vm_compute; done. Qed.

(** C4.  The template's body element exists and has no child:
    [body->FirstChild()] is null and line 84 calls [DeepClone] through it.
    The call does not return false; it has undefined behaviour, with or
    without entries.  (No output file is written.) *)
Theorem empty_body_is_dereferenced policy :
  (generateDocx policy "template.docx" "out.docx" sample.entries sample.empty_body).1
    = Undefined ∧
  (generateDocx policy "template.docx" "out.docx" [] sample.empty_body).1 = Undefined ∧
  archive_at "out.docx"
    (generateDocx policy "template.docx" "out.docx" sample.entries sample.empty_body).2
    = None.
Proof. destruct policy; vm_compute; done. Qed.

(** Any template whose body has no child ends this way. *)
Lemma empty_body_undefined policy templateDocx outputDocx entries w tree nodes :
  archive_at templateDocx w = Some tree →
  LoadFile (tree !! docXml) = Some nodes →
  document_body nodes = Some [] →
  (generateDocx policy templateDocx outputDocx entries w).1 = Undefined.
Proof.
  intros Hz Hl Hb. unfold archive_at in Hz.
  destruct (disk w !! templateDocx) as [[| |tree0]|] eqn:Hd; try done.
  injection Hz as ->. unfold document_body in Hb.
  destruct (FirstChildElement "w:document" nodes) as [[i root]|] eqn:Hi; [|done].
  destruct (FirstChildElement "w:body" (child_nodes root)) as [[j bodyNode]|] eqn:Hj; [|done].
  injection Hb as Hb.
  unfold generateDocx, assembled, open_template, unzip, fs.remove_all_tmp.
  cbn [disk locked].
  rewrite Hd. cbn [negb workdir]. rewrite Hl. cbn [mbind step_bind].
  unfold capture_template. cbn [linked]. rewrite Hi. cbn [nonnull mbind step_bind].
  rewrite Hj. unfold FirstChild. rewrite Hb. done.
Qed.

(** C5.  Failures that are not reported by a false result: [rezip] fails
    (the output cannot be created) and the call returns true although no
    output was written; a missing image makes [fs::copy_file] throw out of
    the call; a template without relationship file leaves [root] null and
    the call has undefined behaviour. *)
Theorem failures_are_not_reported policy :
  (rezip "out.docx" sample.locked_output).1 = false ∧
  (generateDocx policy "template.docx" "out.docx" sample.entries sample.locked_output).1
    = Return true ∧
  archive_at "out.docx"
    (generateDocx policy "template.docx" "out.docx" sample.entries sample.locked_output).2
    = None ∧
  (generateDocx policy "template.docx" "out.docx" [mkEntry "C" "d3" "missing.png"]
     sample.scenario).1 = Throw ∧
  (generateDocx policy "template.docx" "out.docx" sample.entries
     sample.no_relationships).1 = Undefined.
Proof. destruct policy; vm_compute; done. Qed.

(** * Further properties

    Properties of the code beyond the claims above: how the two functions
    of [docx_report.cpp] behave at their edges and what they leave alone,
    and the string and path functions of the image tool. *)

(** ** replaceTokens, once more *)

(** X1.  Substituting a token a second time changes nothing, provided the
    value is not the token itself: after one call no [w:t] element reads as
    the token any more, whichever way [GetText] treats leading comments. *)
Theorem replaceTokens_idempotent policy key val subtree :
  val ≠ key →
  replaceTokens policy key val (replaceTokens policy key val subtree)
  = replaceTokens policy key val subtree.
Proof.
  intros Hne. apply replaceTokens_no_hit. rewrite run_texts_replaceTokens.
  change (map (subst_text key val) (run_texts policy subtree))
    with (subst_text key val <$> run_texts policy subtree).
  intros (t & Ht & _)%list_elem_of_fmap.
  destruct t as [s|]; cbn in Ht; [|done].
  destruct (String.eqb key s) eqn:E.
  - by injection Ht.
  - injection Ht as <-. by rewrite String.eqb_refl in E.
Qed.

Lemma replaceTokens_idempotent_witness :
  "A" ≠ "{{HEADER}}" ∧
  replaceTokens SkipLeadingComments "{{HEADER}}" "A"
    (replaceTokens SkipLeadingComments "{{HEADER}}" "A" sample.commented_run)
  = replaceTokens SkipLeadingComments "{{HEADER}}" "A" sample.commented_run.
Proof.
  assert ("A" ≠ "{{HEADER}}") as Hne by discriminate.
  split; [exact Hne|]. exact (replaceTokens_idempotent _ _ _ _ Hne).
Defined.

(** X2.  [replaceTokens] never rewrites the node it is called on: the loop
    starts at the children, so the start node keeps its kind, its name, its
    attributes, the text [GetText] reads from it and the number of its
    children.  In particular a start node that is itself a [w:t] element
    holding the token still holds it after the call. *)
Theorem replaceTokens_keeps_start_node policy key val node :
  ToElement (replaceTokens policy key val node) = ToElement node ∧
  Name (replaceTokens policy key val node) = Name node ∧
  GetText policy (replaceTokens policy key val node) = GetText policy node ∧
  token_hit policy key (replaceTokens policy key val node) = token_hit policy key node ∧
  (∀ a, Attribute a (replaceTokens policy key val node) = Attribute a node) ∧
  length (child_nodes (replaceTokens policy key val node)) = length (child_nodes node).
Proof.
  split; [apply replaceTokens_ToElement|]. split; [apply replaceTokens_Name|].
  split; [apply GetText_replaceTokens|].
  split; [by unfold token_hit; rewrite replaceTokens_Name, GetText_replaceTokens|].
  split; [by destruct node|].
  destruct node; try done. cbn. by rewrite length_map.
Qed.

(** X3.  The two substitutions of an entry (lines 94-95) run one after the
    other, not at once: the texts of the text-bearing leaves of an entry's
    block are those of the template block with [{{HEADER}}] replaced by the
    header and then [{{DESCRIPTION}}] replaced by the description.  So a
    header that reads [{{DESCRIPTION}}] comes out as the description; the
    rewriting of the image references changes no text. *)
Theorem stamped_texts policy block c e :
  leaf_texts (stamped policy block c e)
  = map (fun s =>
           if String.eqb "{{HEADER}}" s then
             if String.eqb "{{DESCRIPTION}}" (header e) then description e else header e
           else if String.eqb "{{DESCRIPTION}}" s then description e
           else s)
        (leaf_texts block).
Proof.
  unfold stamped. rewrite leaf_texts_rewire_images, !leaf_texts_replaceTokens, map_map.
  apply map_ext. intros s. unfold subst_string.
  by destruct (String.eqb "{{HEADER}}" s).
Qed.

(** ** generateDocx: outcomes and files *)

Section OutcomeFacts.
Variable policy : GetTextPolicy.

(** The run up to the loop, for a template that passes the checks. *)
Lemma assembled_loop templateDocx entries w tree nodes first rest :
  archive_at templateDocx w = Some tree →
  LoadFile (tree !! docXml) = Some nodes →
  document_body nodes = Some (first :: rest) →
  ∃ i root j bodyNode,
    FirstChildElement "w:document" nodes = Some (i, root) ∧
    FirstChildElement "w:body" (child_nodes root) = Some (j, bodyNode) ∧
    ready [i; j] 0 first (mkAssembler (captured nodes i j first) (extracted tree w) 10) ∧
    assembled policy templateDocx entries w
    = assemble policy (Linked [i; j]) 0
        (mkAssembler (captured nodes i j first) (extracted tree w) 10) entries.
Proof.
  intros Hz Hl Hb. unfold archive_at in Hz.
  destruct (disk w !! templateDocx) as [[| |tree0]|] eqn:Hd; try done.
  injection Hz as ->. unfold document_body in Hb.
  destruct (FirstChildElement "w:document" nodes) as [[i root]|] eqn:Hi; [|done].
  destruct (FirstChildElement "w:body" (child_nodes root)) as [[j bodyNode]|] eqn:Hj; [|done].
  injection Hb as Hb.
  destruct (node_at_body _ _ _ _ _ Hi Hj) as [Hp He].
  destruct bodyNode as [nm ats ch| | | |]; try done. cbn in Hb. subst ch.
  exists i, root, j, (XMLElement nm ats (first :: rest)).
  split; [done|]. split; [done|]. split; [by eapply captured_ready|].
  unfold assembled, open_template, unzip, fs.remove_all_tmp.
  cbn [disk locked].
  rewrite Hd. cbn [negb workdir]. rewrite Hl. cbn [mbind step_bind].
  unfold capture_template. cbn [linked]. rewrite Hi. cbn [nonnull mbind step_bind].
  rewrite Hj. cbn [FirstChild child_nodes head nonnull mbind step_bind].
  unfold DeepClone, new_node.
  erewrite delete_all_children_linked by (cbn [linked]; exact Hp).
  done.
Qed.

(** The loop ends a call only by an exception or by undefined behaviour. *)
Lemma assemble_entry_exit body tb st e x w' :
  assemble_entry policy body tb st e = Exits x w' → x = Throw ∨ x = Undefined.
Proof.
  unfold assemble_entry. destruct (deref _ _); cbn [nonnull mbind step_bind];
    [|intros [= <- _]; by right].
  destruct (DeepClone _ _) as [page d].
  destruct (fs.copy_file _ _ _) as [w1|]; [|intros [= <- _]; by left].
  unfold update_rels.
  destruct (FirstChildElement _ _) as [[i root]|]; cbn [nonnull mbind step_bind];
    [|intros [= <- _]; by right].
  destruct (InsertEndChild _ _ _); cbn [nonnull mbind step_bind];
    [|intros [= <- _]; by right].
  unfold append_page_break.
  repeat match goal with
         | |- context [let '(_, _) := ?t in _] => destruct t
         end.
  repeat (match goal with
          | |- context [InsertEndChild ?a ?b ?c] => destruct (InsertEndChild a b c)
          end; cbn [nonnull mbind step_bind]; [|intros [= <- _]; by right]).
  destruct (decide _); [intros [= <- _]; by right|done].
Qed.

Lemma assemble_exit body tb entries : ∀ st x w',
  assemble policy body tb st entries = Exits x w' → x = Throw ∨ x = Undefined.
Proof.
  induction entries as [|e entries IH]; intros st x w'; [done|].
  cbn [assemble]. destruct (assemble_entry _ _ _ _ _) as [st1|x1 w1] eqn:He;
    cbn [mbind step_bind].
  - apply IH.
  - intros [= <- <-]. by eapply assemble_entry_exit.
Qed.

End OutcomeFacts.


(** X5.  [generateDocx] returns false in exactly three cases: the template
    cannot be unzipped, its [word/document.xml] cannot be parsed, or the
    document has a [w:document] element without a [w:body] element.  Every
    other failure ends the call by an exception or in undefined behaviour,
    or goes unnoticed. *)
Theorem generateDocx_returns_false_iff policy templateDocx outputDocx entries w :
  (generateDocx policy templateDocx outputDocx entries w).1 = Return false ↔
  archive_at templateDocx w = None ∨
  ∃ tree,
    archive_at templateDocx w = Some tree ∧
    (LoadFile (tree !! docXml) = None ∨
     ∃ nodes i root,
       LoadFile (tree !! docXml) = Some nodes ∧
       FirstChildElement "w:document" nodes = Some (i, root) ∧
       FirstChildElement "w:body" (child_nodes root) = None).
Proof.
  split.
  - destruct (archive_at templateDocx w) as [tree|] eqn:Hz; [|by left].
    intros H. right. exists tree. split; [done|].
    destruct (LoadFile (tree !! docXml)) as [nodes|] eqn:Hl; [|by left].
    right. exists nodes.
    revert H. unfold archive_at in Hz.
    destruct (disk w !! templateDocx) as [[| |tree0]|] eqn:Hd; try done.
    injection Hz as ->.
    unfold generateDocx, assembled, open_template, unzip, fs.remove_all_tmp.
    cbn [disk locked]. rewrite Hd. cbn [negb workdir]. rewrite Hl.
    cbn [mbind step_bind]. unfold capture_template. cbn [linked].
    destruct (FirstChildElement "w:document" nodes) as [[i root]|] eqn:Hi; [|done].
    cbn [nonnull mbind step_bind].
    destruct (FirstChildElement "w:body" (child_nodes root)) as [[j bodyNode]|] eqn:Hj;
      [|intros _; by exists i, root].
    destruct (FirstChild bodyNode); [|done]. cbn [nonnull mbind step_bind].
    destruct (DeepClone _ _) as [tb d]. cbn [mbind step_bind].
    destruct (assemble _ _ _ _ _) as [st'|x2 w'] eqn:Ha.
    + unfold finalize. by destruct (rezip _ _).
    + cbn. intros ->. by apply assemble_exit in Ha as [|].
  - intros [Hz|(tree & Hz & [Hl|(nodes & i & root & Hl & Hi & Hj)])].
    + by apply unreadable_template_false.
    + by eapply unparsable_document_false.
    + by eapply missing_body_false.
Qed.

(** X6.  The working directory is removed only on the way to [return true]
    (line 142): a call that returns true leaves none, a call that returns
    false leaves it as it is at that point, that is, empty when the template
    could not be unzipped and holding the extracted template otherwise. *)
Theorem working_directory_after_return policy templateDocx outputDocx entries w b w' :
  generateDocx policy templateDocx outputDocx entries w = (Return b, w') →
  workdir w' = if b then ∅ else default ∅ (archive_at templateDocx w).
Proof.
  unfold generateDocx, assembled, open_template, unzip, fs.remove_all_tmp, archive_at.
  cbn [disk locked].
  destruct (disk w !! templateDocx) as [[| |tree]|]; cbn [negb mbind step_bind];
    try by intros [= <- <-].
  cbn [workdir]. destruct (LoadFile _) as [nodes|]; cbn [mbind step_bind];
    [|by intros [= <- <-]].
  unfold capture_template.
  destruct (FirstChildElement "w:document" _) as [[i root]|]; [|done].
  cbn [nonnull mbind step_bind].
  destruct (FirstChildElement "w:body" _) as [[j bodyNode]|]; [|by intros [= <- <-]].
  destruct (FirstChild bodyNode); [|done].
  cbn [nonnull mbind step_bind]. destruct (DeepClone _ _) as [tb d].
  cbn [mbind step_bind].
  destruct (assemble _ _ _ _ _) as [st'|x1 w1] eqn:Ha.
  - unfold finalize. destruct (rezip _ _). by intros [= <- <-].
  - intros [= -> _]. by apply assemble_exit in Ha as [|].
Qed.

Lemma working_directory_after_return_witness :
  generateDocx SkipLeadingComments "template.docx" "out.docx" sample.entries sample.no_body
  = (Return false,
     (generateDocx SkipLeadingComments "template.docx" "out.docx" sample.entries
        sample.no_body).2) ∧
  workdir (generateDocx SkipLeadingComments "template.docx" "out.docx" sample.entries
             sample.no_body).2
  = default ∅ (archive_at "template.docx" sample.no_body).
Proof.
  assert (generateDocx SkipLeadingComments "template.docx" "out.docx" sample.entries
            sample.no_body
          = (Return false,
             (generateDocx SkipLeadingComments "template.docx" "out.docx" sample.entries
                sample.no_body).2)) as Hrun
    by (vm_compute; reflexivity).
  split; [exact Hrun|].
  exact (working_directory_after_return _ _ _ _ _ _ _ Hrun).
Defined.

(** X7.  When the main document has no element named [w:document] at top
    level, line 80 calls [FirstChildElement] through the null pointer that
    the first lookup returned: the call is undefined behaviour, not a
    [return false], whatever the entries are; nothing is written outside
    the working directory. *)
Theorem missing_document_element_undefined policy templateDocx outputDocx entries w tree nodes :
  archive_at templateDocx w = Some tree →
  LoadFile (tree !! docXml) = Some nodes →
  FirstChildElement "w:document" nodes = None →
  (generateDocx policy templateDocx outputDocx entries w).1 = Undefined ∧
  disk (generateDocx policy templateDocx outputDocx entries w).2 = disk w.
Proof.
  intros Hz Hl Hi.
  assert ((generateDocx policy templateDocx outputDocx entries w).1 = Undefined) as H.
  { revert Hz. unfold archive_at, generateDocx, assembled, open_template, unzip,
      fs.remove_all_tmp.
    cbn [disk locked]. destruct (disk w !! templateDocx) as [[| |tree0]|]; try done.
    intros [= ->]. cbn [negb workdir]. rewrite Hl. cbn [mbind step_bind].
    unfold capture_template. cbn [linked]. by rewrite Hi. }
  split; [done|]. apply no_output_unless_true. by rewrite H.
Qed.

Lemma missing_document_element_undefined_witness :
  archive_at "template.docx" sample.no_document
    = Some (<[docXml := XmlFile [XMLElement "html" [] []]]> ∅) ∧
  LoadFile ((<[docXml := XmlFile [XMLElement "html" [] []]]> ∅ : gmap string file) !! docXml)
    = Some [XMLElement "html" [] []] ∧
  FirstChildElement "w:document" [XMLElement "html" [] []] = None ∧
  (generateDocx SkipLeadingComments "template.docx" "out.docx" sample.entries
     sample.no_document).1 = Undefined ∧
  disk (generateDocx SkipLeadingComments "template.docx" "out.docx" sample.entries
          sample.no_document).2 = disk sample.no_document.
Proof.
  assert (archive_at "template.docx" sample.no_document
          = Some (<[docXml := XmlFile [XMLElement "html" [] []]]> ∅)) as Hz
    by (vm_compute; reflexivity).
  assert (LoadFile ((<[docXml := XmlFile [XMLElement "html" [] []]]> ∅
                     : gmap string file) !! docXml)
          = Some [XMLElement "html" [] []]) as Hl by (vm_compute; reflexivity).
  assert (FirstChildElement "w:document" [XMLElement "html" [] []] = None) as Hi
    by reflexivity.
  split; [exact Hz|]. split; [exact Hl|]. split; [exact Hi|].
  exact (missing_document_element_undefined SkipLeadingComments "template.docx" "out.docx"
           sample.entries sample.no_document _ _ Hz Hl Hi).
Defined.

(** X8.  With a template that passes the checks, the first entry whose
    image file does not exist makes [fs::copy_file] (line 102) throw out of
    [generateDocx], after the entries before it were processed; the entries
    after it play no part, and nothing is written outside the working
    directory. *)
Theorem missing_image_throws policy templateDocx outputDocx done e todo w tree nodes
    first rest :
  archive_at templateDocx w = Some tree →
  LoadFile (tree !! docXml) = Some nodes →
  document_body nodes = Some (first :: rest) →
  (done ≠ [] → is_Some (relationship_table (rels_of tree))) →
  Forall (fun e => is_Some (disk w !! imagePath e)) done →
  (10 + Z.of_nat (length done) ≤ INT_MAX)%Z →
  disk w !! imagePath e = None →
  (generateDocx policy templateDocx outputDocx (done ++ e :: todo) w).1 = Throw ∧
  disk (generateDocx policy templateDocx outputDocx (done ++ e :: todo) w).2 = disk w.
Proof.
  intros Hz Hl Hb Hrels Himg Hc He.
  assert ((generateDocx policy templateDocx outputDocx (done ++ e :: todo) w).1 = Throw)
    as H.
  { destruct (assembled_loop policy templateDocx (done ++ e :: todo) w _ _ _ _ Hz Hl Hb)
      as (i & root & j & bodyNode & Hi & Hj & Hr & Heq).
    unfold generateDocx. rewrite Heq, assemble_app.
    destruct (assemble_succeeds policy [i; j] 0 first done _ Hr Himg Hrels Hc)
      as [st1 H1].
    rewrite H1. cbn [mbind step_bind assemble].
    pose proof (assemble_ready policy _ _ _ _ _ _ Hr H1) as (Hok & Htb & nm & ats & ch & Hp).
    destruct (assemble_disk policy _ _ _ _ _ _ Hr H1) as (Hd & _ & _).
    erewrite assemble_entry_eq by done. rewrite Hd. cbn [world extracted disk].
    by rewrite He. }
  split; [done|]. apply no_output_unless_true. by rewrite H.
Qed.


(** X10.  Whatever the outcome of the call, every file outside the working
    directory other than the output path is left as it was: the template
    and the images are only read. *)
Theorem generateDocx_disk_frame policy templateDocx outputDocx entries w path :
  path ≠ outputDocx →
  disk (generateDocx policy templateDocx outputDocx entries w).2 !! path = disk w !! path.
Proof.
  intros Hne. unfold generateDocx.
  pose proof (assembled_disk policy templateDocx entries w) as H.
  destruct (assembled _ _ _ _) as [st'|x1 w']; [|by cbn; rewrite H].
  unfold finalize, rezip, SaveFile. cbn [locked disk].
  destruct (decide _); cbn; [by rewrite H|].
  by rewrite lookup_insert_ne, H.
Qed.

(** X11.  In a run that returns true and can write its output, every part
    of the template other than the main document, the relationship file and
    the media files of the entries is in the output archive unchanged (and
    a path the template does not have is not in the output either). *)
Theorem generateDocx_keeps_other_parts policy templateDocx outputDocx entries w w' path :
  generateDocx policy templateDocx outputDocx entries w = (Return true, w') →
  outputDocx ∉ locked w →
  path ≠ docXml → path ≠ relsXml → path ∉ media_paths 10 entries →
  ∃ tree tree',
    archive_at templateDocx w = Some tree ∧
    archive_at outputDocx w' = Some tree' ∧
    tree' !! path = tree !! path.
Proof.
  intros H Hout Hdoc Hrels Hmedia. apply generateDocx_run in H
    as (tree & nodes & i & j & first & rest & st' &
        Hz & Hl & Hb & _ & _ & _ & _ & Hr & Ha & _ & _ & ->).
  destruct (assemble_disk policy [i; j] 0 first entries _ _ Hr Ha) as (_ & Hlk & _).
  exists tree. eexists. split; [done|].
  split; [apply finalize_archive; by rewrite Hlk|].
  rewrite lookup_insert_ne by done.
  by rewrite (assemble_workdir_frame policy [i; j] 0 first entries _ _ path Hr Ha).
Qed.

Lemma alter_as_insert {A} (g : A → A) (l : list A) (i : nat) x :
  l !! i = Some x → alter g i l = <[i := g x]> l.
Proof.
  revert i. induction l as [|y l IH]; intros [|i] H; try done.
  - by injection H as ->.
  - cbn. f_equal. by apply IH.
Qed.

(** X12.  With an empty entry list and a template that passes the checks,
    the call returns true and, where the output can be written, the only
    change is the new output file: the archive of the template in which the
    main document is the template's document with the children of its body
    removed, that is, with the first [w:body] element of the first
    [w:document] element replaced by the same element without children and
    every other node as it was.  The relationship file and the images are
    not looked at, and the working directory is removed. *)
Theorem generateDocx_no_entries policy templateDocx outputDocx w tree nodes first rest :
  archive_at templateDocx w = Some tree →
  LoadFile (tree !! docXml) = Some nodes →
  document_body nodes = Some (first :: rest) →
  outputDocx ∉ locked w →
  ∃ (i j : nat) ra rch ba,
    FirstChildElement "w:document" nodes = Some (i, XMLElement "w:document" ra rch) ∧
    FirstChildElement "w:body" rch = Some (j, XMLElement "w:body" ba (first :: rest)) ∧
    nodes !! i = Some (XMLElement "w:document" ra rch) ∧
    rch !! j = Some (XMLElement "w:body" ba (first :: rest)) ∧
    generateDocx policy templateDocx outputDocx [] w
    = (Return true,
       mkWorld
         (<[outputDocx :=
              ZipFile
                (<[docXml :=
                     XmlFile
                       (<[i := XMLElement "w:document" ra
                                 (<[j := XMLElement "w:body" ba []]> rch)]> nodes)]>
                   tree)]>
            (disk w))
         ∅ (locked w)).
Proof.
  intros Hz Hl Hb Hout.
  destruct (assembled_loop policy templateDocx [] w _ _ _ _ Hz Hl Hb)
    as (i & root & j & bodyNode & Hi & Hj & Hr & Heq).
  unfold document_body in Hb. rewrite Hi, Hj in Hb. injection Hb as Hb.
  destruct (FirstChildElement_Some _ _ _ _ Hi) as (Hli & Hei & Hni).
  destruct (FirstChildElement_Some _ _ _ _ Hj) as (Hlj & Hej & Hnj).
  destruct root as [rn ra rch| | | |]; try done.
  destruct bodyNode as [bn ba bch| | | |]; try done.
  cbn in Hni, Hnj, Hb, Hlj, Hj. subst rn bn bch.
  exists i, j, ra, rch, ba. repeat (split; [done|]).
  unfold generateDocx. rewrite Heq. cbn [assemble].
  unfold finalize, rezip, SaveFile, fs.remove_all_tmp, extracted, captured.
  cbn [world doc linked locked disk workdir].
  destruct (decide _); [done|]. cbn [alter_at].
  rewrite (alter_as_insert _ _ _ _ Hli). cbn [with_children].
  by rewrite (alter_as_insert _ _ _ _ Hlj).
Qed.

Lemma rewire_images_no_match r page :
  Forall (fun e2 => ToElement e2 && contains "a:blip" (Name e2) = false) (child_nodes page) →
  rewire_images r page = page.
Proof.
  destruct page as [nm ats ch| | | |]; try done.
  cbn [child_nodes rewire_images with_children]. intros H. f_equal.
  induction H as [|e ch He _ IH]; [done|]. cbn [map]. by rewrite He, IH.
Qed.

Lemma replaceTokens_child_names policy key val n :
  map (fun e => (ToElement e, Name e)) (child_nodes (replaceTokens policy key val n))
  = map (fun e => (ToElement e, Name e)) (child_nodes n).
Proof.
  destruct n as [nm ats ch| | | |]; try done.
  cbn [replaceTokens child_nodes]. rewrite map_map. apply map_ext. intros e.
  destruct (ToElement e) eqn:He; [|by rewrite He].
  destruct (token_hit policy key e);
    by rewrite ?SetText_ToElement, ?SetText_Name, replaceTokens_ToElement,
         replaceTokens_Name, He.
Qed.

(** X13.  The loop of lines 120-124 looks at the children of the cloned
    block and no deeper: for a block none of whose children is an element
    with [a:blip] in its name, such as a paragraph whose image reference
    lies inside a run and a drawing, the block of an entry is the template
    block with the two tokens substituted and nothing else, the same for
    every value of the counter. *)
Theorem nested_image_references_kept policy block c e :
  Forall (fun e2 => ToElement e2 && contains "a:blip" (Name e2) = false) (child_nodes block) →
  stamped policy block c e
  = replaceTokens policy "{{DESCRIPTION}}" (description e)
      (replaceTokens policy "{{HEADER}}" (header e) block).
Proof.
  intros H. unfold stamped. apply rewire_images_no_match.
  apply Forall_forall. intros e2 He2.
  apply (list_elem_of_fmap_2 (fun e => (ToElement e, Name e))) in He2.
  change (list_fmap _ _ ?f ?l) with (map f l) in He2.
  rewrite !replaceTokens_child_names in He2.
  change (map ?f ?l) with (f <$> l) in He2.
  apply list_elem_of_fmap in He2 as (e0 & [= -> ->] & He0).
  by eapply Forall_forall in H.
Qed.

Lemma nested_image_references_kept_witness :
  Forall (fun e2 => ToElement e2 && contains "a:blip" (Name e2) = false)
    (child_nodes sample.drawing_block) ∧
  stamped SkipLeadingComments sample.drawing_block 10 (mkEntry "A" "d1" "a.png")
  = replaceTokens SkipLeadingComments "{{DESCRIPTION}}" "d1"
      (replaceTokens SkipLeadingComments "{{HEADER}}" "A" sample.drawing_block).
Proof.
  assert (Forall (fun e2 => ToElement e2 && contains "a:blip" (Name e2) = false)
            (child_nodes sample.drawing_block)) as H
    by (repeat constructor).
  split; [exact H|].
  exact (nested_image_references_kept SkipLeadingComments _ 10 (mkEntry "A" "d1" "a.png") H).
Defined.

Lemma missing_image_throws_witness :
  archive_at "template.docx" sample.scenario
    = Some (sample.template [sample.block; XMLElement "w:sectPr" [] []]
              [sample.relationship "rId5" "media/image1.png"]) ∧
  LoadFile (sample.template [sample.block; XMLElement "w:sectPr" [] []]
              [sample.relationship "rId5" "media/image1.png"] !! docXml)
    = Some (sample.document [sample.block; XMLElement "w:sectPr" [] []]) ∧
  document_body (sample.document [sample.block; XMLElement "w:sectPr" [] []])
    = Some [sample.block; XMLElement "w:sectPr" [] []] ∧
  Forall (fun e => is_Some (disk sample.scenario !! imagePath e)) [mkEntry "A" "d1" "a.png"] ∧
  (10 + Z.of_nat (length [mkEntry "A" "d1" "a.png"]) ≤ INT_MAX)%Z ∧
  disk sample.scenario !! imagePath (mkEntry "C" "d3" "missing.png") = None ∧
  (generateDocx SkipLeadingComments "template.docx" "out.docx"
     ([mkEntry "A" "d1" "a.png"] ++ mkEntry "C" "d3" "missing.png" :: [mkEntry "B" "d2" "b.jpg"])
     sample.scenario).1 = Throw ∧
  disk (generateDocx SkipLeadingComments "template.docx" "out.docx"
          ([mkEntry "A" "d1" "a.png"] ++ mkEntry "C" "d3" "missing.png"
             :: [mkEntry "B" "d2" "b.jpg"])
          sample.scenario).2 = disk sample.scenario.
Proof.
  assert (archive_at "template.docx" sample.scenario
          = Some (sample.template [sample.block; XMLElement "w:sectPr" [] []]
                    [sample.relationship "rId5" "media/image1.png"])) as Hz
    by (vm_compute; reflexivity).
  assert (LoadFile (sample.template [sample.block; XMLElement "w:sectPr" [] []]
                      [sample.relationship "rId5" "media/image1.png"] !! docXml)
          = Some (sample.document [sample.block; XMLElement "w:sectPr" [] []])) as Hl
    by (vm_compute; reflexivity).
  assert (document_body (sample.document [sample.block; XMLElement "w:sectPr" [] []])
          = Some [sample.block; XMLElement "w:sectPr" [] []]) as Hb
    by (vm_compute; reflexivity).
  assert ([mkEntry "A" "d1" "a.png"] ≠ [] →
          is_Some (relationship_table
                     (rels_of (sample.template [sample.block; XMLElement "w:sectPr" [] []]
                                 [sample.relationship "rId5" "media/image1.png"])))) as Hrels
    by (intros _; eexists; vm_compute; reflexivity).
  assert (Forall (fun e => is_Some (disk sample.scenario !! imagePath e))
            [mkEntry "A" "d1" "a.png"]) as Himg
    by (repeat constructor; eexists; vm_compute; reflexivity).
  assert (10 + Z.of_nat (length [mkEntry "A" "d1" "a.png"]) ≤ INT_MAX)%Z as Hc
    by (vm_compute; discriminate).
  assert (disk sample.scenario !! imagePath (mkEntry "C" "d3" "missing.png") = None) as He
    by (vm_compute; reflexivity).
  split; [exact Hz|]. split; [exact Hl|]. split; [exact Hb|]. split; [exact Himg|].
  split; [exact Hc|]. split; [exact He|].
  exact (missing_image_throws SkipLeadingComments "template.docx" "out.docx" _ _
           [mkEntry "B" "d2" "b.jpg"] _ _ _ _ _ Hz Hl Hb Hrels Himg Hc He).
Defined.


Lemma generateDocx_disk_frame_witness :
  "template.docx" ≠ "out.docx" ∧
  disk (generateDocx SkipLeadingComments "template.docx" "out.docx" sample.entries
          sample.scenario).2 !! "template.docx"
  = disk sample.scenario !! "template.docx".
Proof.
  assert ("template.docx" ≠ "out.docx") as H by discriminate.
  split; [exact H|].
  exact (generateDocx_disk_frame SkipLeadingComments "template.docx" "out.docx"
           sample.entries sample.scenario "template.docx" H).
Defined.

Lemma generateDocx_keeps_other_parts_witness :
  generateDocx SkipLeadingComments "template.docx" "out.docx" sample.entries sample.styled
  = (Return true,
     (generateDocx SkipLeadingComments "template.docx" "out.docx" sample.entries
        sample.styled).2) ∧
  ("out.docx" ∉ locked sample.styled) ∧
  "word/styles.xml" ≠ docXml ∧ "word/styles.xml" ≠ relsXml ∧
  ("word/styles.xml" ∉ media_paths 10 sample.entries) ∧
  ∃ tree tree',
    archive_at "template.docx" sample.styled = Some tree ∧
    archive_at "out.docx"
      (generateDocx SkipLeadingComments "template.docx" "out.docx" sample.entries
         sample.styled).2 = Some tree' ∧
    tree' !! "word/styles.xml" = tree !! "word/styles.xml".
Proof.
  assert (generateDocx SkipLeadingComments "template.docx" "out.docx" sample.entries
            sample.styled
          = (Return true,
             (generateDocx SkipLeadingComments "template.docx" "out.docx" sample.entries
                sample.styled).2)) as Hrun by (vm_compute; reflexivity).
  assert ("out.docx" ∉ locked sample.styled) as Hout by apply not_elem_of_empty.
  assert ("word/styles.xml" ≠ docXml) as Hdoc by discriminate.
  assert ("word/styles.xml" ≠ relsXml) as Hrels by discriminate.
  assert ("word/styles.xml" ∉ media_paths 10 sample.entries) as Hmedia.
  { intros H. vm_compute in H.
    repeat (apply elem_of_cons in H as [H|H]; [discriminate H|]).
    by apply elem_of_nil in H. }
  split; [exact Hrun|]. split; [exact Hout|]. split; [exact Hdoc|]. split; [exact Hrels|].
  split; [exact Hmedia|].
  exact (generateDocx_keeps_other_parts _ _ _ _ _ _ _ Hrun Hout Hdoc Hrels Hmedia).
Defined.

Lemma generateDocx_no_entries_witness :
  archive_at "template.docx" sample.scenario
    = Some (sample.template [sample.block; XMLElement "w:sectPr" [] []]
              [sample.relationship "rId5" "media/image1.png"]) ∧
  LoadFile (sample.template [sample.block; XMLElement "w:sectPr" [] []]
              [sample.relationship "rId5" "media/image1.png"] !! docXml)
    = Some (sample.document [sample.block; XMLElement "w:sectPr" [] []]) ∧
  document_body (sample.document [sample.block; XMLElement "w:sectPr" [] []])
    = Some [sample.block; XMLElement "w:sectPr" [] []] ∧
  ("out.docx" ∉ locked sample.scenario) ∧
  ∃ (i j : nat) ra rch ba,
    FirstChildElement "w:document"
      (sample.document [sample.block; XMLElement "w:sectPr" [] []])
      = Some (i, XMLElement "w:document" ra rch) ∧
    FirstChildElement "w:body" rch
      = Some (j, XMLElement "w:body" ba [sample.block; XMLElement "w:sectPr" [] []]) ∧
    sample.document [sample.block; XMLElement "w:sectPr" [] []] !! i
      = Some (XMLElement "w:document" ra rch) ∧
    rch !! j = Some (XMLElement "w:body" ba [sample.block; XMLElement "w:sectPr" [] []]) ∧
    generateDocx SkipLeadingComments "template.docx" "out.docx" [] sample.scenario
    = (Return true,
       mkWorld
         (<["out.docx" :=
              ZipFile
                (<[docXml :=
                     XmlFile
                       (<[i := XMLElement "w:document" ra
                                 (<[j := XMLElement "w:body" ba []]> rch)]>
                          (sample.document [sample.block; XMLElement "w:sectPr" [] []]))]>
                   (sample.template [sample.block; XMLElement "w:sectPr" [] []]
                      [sample.relationship "rId5" "media/image1.png"]))]>
            (disk sample.scenario))
         ∅ (locked sample.scenario)).
Proof.
  assert (archive_at "template.docx" sample.scenario
          = Some (sample.template [sample.block; XMLElement "w:sectPr" [] []]
                    [sample.relationship "rId5" "media/image1.png"])) as Hz
    by (vm_compute; reflexivity).
  assert (LoadFile (sample.template [sample.block; XMLElement "w:sectPr" [] []]
                      [sample.relationship "rId5" "media/image1.png"] !! docXml)
          = Some (sample.document [sample.block; XMLElement "w:sectPr" [] []])) as Hl
    by (vm_compute; reflexivity).
  assert (document_body (sample.document [sample.block; XMLElement "w:sectPr" [] []])
          = Some [sample.block; XMLElement "w:sectPr" [] []]) as Hb
    by (vm_compute; reflexivity).
  assert ("out.docx" ∉ locked sample.scenario) as Hout by apply not_elem_of_empty.
  split; [exact Hz|]. split; [exact Hl|]. split; [exact Hb|]. split; [exact Hout|].
  exact (generateDocx_no_entries SkipLeadingComments "template.docx" "out.docx"
           sample.scenario _ _ _ _ Hz Hl Hb Hout).
Defined.

(** ** Paths and file names *)

Lemma string_app_nil_r s : s +:+ "" = s.
Proof. induction s as [|c s IH]; [done|]. by rewrite string_app_cons, IH. Qed.

Lemma string_app_assoc s t u : (s +:+ t) +:+ u = s +:+ (t +:+ u).
Proof. induction s as [|c s IH]; [done|]. by rewrite !string_app_cons, IH. Qed.

Lemma string_length_app s t :
  String.length (s +:+ t) = (String.length s + String.length t)%nat.
Proof. induction s as [|c s IH]; [done|]. rewrite string_app_cons. cbn. by rewrite IH. Qed.

Section LastOccurrence.
Variable p : ascii → bool.
Implicit Types (s t r : string).

Lemma free_of_app s t : free_of p (s +:+ t) = free_of p s && free_of p t.
Proof.
  induction s as [|c s IH]; [done|].
  rewrite string_app_cons. cbn [free_of]. rewrite IH. by destruct (p c).
Qed.

Lemma after_last_None s : fs.after_last p s = None ↔ free_of p s = true.
Proof.
  induction s as [|c s IH]; [done|]. cbn [fs.after_last free_of].
  destruct (fs.after_last p s) as [r|].
  - split; [done|]. intros [_ H]%andb_true_iff. by apply IH in H.
  - destruct (p c); [done|]. cbn. split; [intros _; by apply IH|done].
Qed.

Lemma after_last_free s r : fs.after_last p s = Some r → free_of p r = true.
Proof.
  revert r. induction s as [|c s IH]; intros r; [done|]. cbn [fs.after_last].
  destruct (fs.after_last p s) as [r'|] eqn:E.
  - intros [= <-]. by apply IH.
  - destruct (p c); [|done]. intros [= <-]. by apply after_last_None.
Qed.

Lemma after_last_app_Some s t r :
  fs.after_last p t = Some r → fs.after_last p (s +:+ t) = Some r.
Proof.
  intros H. induction s as [|c s IH]; [done|].
  rewrite string_app_cons. cbn [fs.after_last]. by rewrite IH.
Qed.

Lemma after_last_app_free s t :
  free_of p t = true →
  fs.after_last p (s +:+ t) = (fun r => r +:+ t) <$> fs.after_last p s.
Proof.
  intros H. induction s as [|c s IH].
  - rewrite string_app_nil. by apply after_last_None.
  - rewrite string_app_cons. cbn [fs.after_last]. rewrite IH.
    destruct (fs.after_last p s); [done|]. cbn. by destruct (p c).
Qed.

Lemma up_to_last_None s : fs.up_to_last p s = None ↔ free_of p s = true.
Proof.
  induction s as [|c s IH]; [done|]. cbn [fs.up_to_last free_of].
  destruct (fs.up_to_last p s) as [r|].
  - split; [done|]. intros [_ H]%andb_true_iff. by apply IH in H.
  - destruct (p c); [done|]. cbn. split; [intros _; by apply IH|done].
Qed.

Lemma up_to_last_app_free s t :
  free_of p t = true →
  fs.up_to_last p (s +:+ t) = fs.up_to_last p s.
Proof.
  intros H. induction s as [|c s IH].
  - rewrite string_app_nil. by apply up_to_last_None.
  - rewrite string_app_cons. cbn [fs.up_to_last]. by rewrite IH.
Qed.

(** What [up_to_last] returns ends with its last character that satisfies [p]. *)
Lemma up_to_last_ends s d :
  fs.up_to_last p s = Some d →
  fs.after_last p d = Some "" ∧ fs.up_to_last p d = Some d.
Proof.
  revert d. induction s as [|c s IH]; intros d; [done|]. cbn [fs.up_to_last].
  destruct (fs.up_to_last p s) as [d'|] eqn:E.
  - intros [= <-]. destruct (IH d' eq_refl) as [H1 H2].
    cbn [fs.after_last fs.up_to_last]. by rewrite H1, H2.
  - destruct (p c) eqn:Hc; [|done]. intros [= <-]. cbn. by rewrite Hc.
Qed.

Lemma split_at_last s :
  s = default "" (fs.up_to_last p s) +:+ default s (fs.after_last p s).
Proof.
  induction s as [|c s IH]; [done|]. cbn [fs.up_to_last fs.after_last].
  destruct (fs.up_to_last p s) as [d|] eqn:E1;
    destruct (fs.after_last p s) as [r|] eqn:E2; cbn in *.
  - rewrite string_app_cons. by f_equal.
  - apply after_last_None, up_to_last_None in E2. congruence.
  - apply up_to_last_None, after_last_None in E1. congruence.
  - by destruct (p c).
Qed.

Lemma before_last_None s : fs.before_last p s = None ↔ free_of p s = true.
Proof.
  induction s as [|c s IH]; [done|]. cbn [fs.before_last free_of].
  destruct (fs.before_last p s) as [r|].
  - split; [done|]. intros [_ H]%andb_true_iff. by apply IH in H.
  - destruct (p c); [done|]. cbn. split; [intros _; by apply IH|done].
Qed.

(** A string splits at its last character that satisfies [p]. *)
Lemma split_around_last s r :
  fs.after_last p s = Some r →
  ∃ b c, fs.before_last p s = Some b ∧ p c = true ∧ s = b +:+ String c r.
Proof.
  revert r. induction s as [|c s IH]; intros r; [done|].
  cbn [fs.after_last fs.before_last].
  destruct (fs.after_last p s) as [r'|] eqn:E.
  - intros [= <-]. destruct (IH r' eq_refl) as (b & c' & -> & Hc & ->).
    by exists (String c b), c'.
  - apply after_last_None, before_last_None in E. rewrite E.
    destruct (p c) eqn:Hc; [|done]. intros [= <-]. by exists "", c.
Qed.

Lemma before_last_app s c r :
  p c = true → free_of p r = true →
  fs.before_last p (s +:+ String c r) = Some s ∧
  fs.after_last p (s +:+ String c r) = Some r.
Proof.
  intros Hc Hr. induction s as [|c' s [IH1 IH2]].
  - rewrite string_app_nil. cbn.
    apply before_last_None in Hr as Hr1. apply after_last_None in Hr as Hr2.
    by rewrite Hr1, Hr2, Hc.
  - rewrite string_app_cons. cbn. by rewrite IH1, IH2.
Qed.

End LastOccurrence.

Lemma free_of_after_last p q s r :
  free_of q s = true → fs.after_last p s = Some r → free_of q r = true.
Proof.
  intros Hq (b & c & _ & _ & ->)%split_around_last.
  rewrite free_of_app in Hq. cbn in Hq. by repeat apply andb_true_iff in Hq as [? Hq].
Qed.

Lemma free_of_before_last p q s b :
  free_of q s = true → fs.before_last p s = Some b → free_of q b = true.
Proof.
  intros Hq Hb. destruct (fs.after_last p s) as [r|] eqn:E.
  - apply split_around_last in E as (b' & c & Hb' & _ & ->).
    rewrite free_of_app in Hq. apply andb_true_iff in Hq as [Hq _]. congruence.
  - apply after_last_None, before_last_None in E. congruence.
Qed.

Lemma filename_free path : free_of fs.is_separator (fs.filename path) = true.
Proof.
  unfold fs.filename. destruct (fs.after_last _ path) as [f|] eqn:E.
  - by eapply after_last_free.
  - by apply after_last_None.
Qed.

Lemma filename_of_name f : free_of fs.is_separator f = true → fs.filename f = f.
Proof. intros H. unfold fs.filename. apply after_last_None in H. by rewrite H. Qed.

Lemma remove_filename_filename path :
  path = fs.remove_filename path +:+ fs.filename path.
Proof. apply split_at_last. Qed.

Lemma replace_filename_parts path r :
  free_of fs.is_separator r = true →
  fs.filename (fs.replace_filename path r) = r ∧
  fs.remove_filename (fs.replace_filename path r) = fs.remove_filename path.
Proof.
  intros Hr. unfold fs.replace_filename, fs.remove_filename, fs.filename.
  rewrite after_last_app_free, up_to_last_app_free by done.
  destruct (fs.up_to_last fs.is_separator path) as [d|] eqn:E; cbn [default id].
  - apply up_to_last_ends in E as [-> ->]. done.
  - done.
Qed.

Lemma extension_of_filename path : fs.extension path = fs.extension (fs.filename path).
Proof. unfold fs.extension. by rewrite (filename_of_name _ (filename_free path)). Qed.

Lemma stem_of_filename path : fs.stem path = fs.stem (fs.filename path).
Proof. unfold fs.stem. by rewrite (filename_of_name _ (filename_free path)). Qed.

(** The extension is empty or a period followed by characters other than
    the period. *)
Lemma extension_shape path :
  fs.extension path = "" ∨
  ∃ r, fs.extension path = String "." r ∧ free_of fs.is_period r = true.
Proof.
  unfold fs.extension. destruct (_ || _); [by left|].
  destruct (fs.filename path) as [|c rest]; [by left|].
  destruct (fs.after_last fs.is_period rest) as [r|] eqn:E; [|by left].
  right. exists r. split; [done|]. by eapply after_last_free.
Qed.

Lemma is_period_eq c : fs.is_period c = true → c = "."%char.
Proof. unfold fs.is_period. by intros ->%Ascii.eqb_eq. Qed.

Lemma stem_extension path : fs.filename path = fs.stem path +:+ fs.extension path.
Proof.
  unfold fs.stem, fs.extension.
  destruct (_ || _); [by rewrite string_app_nil_r|].
  destruct (fs.filename path) as [|c rest]; [done|].
  destruct (fs.after_last fs.is_period rest) as [r|] eqn:E.
  - apply split_around_last in E as (b & c' & -> & ->%is_period_eq & ->).
    by rewrite string_app_cons.
  - apply after_last_None, before_last_None in E. rewrite E.
    by rewrite string_app_nil_r.
Qed.

(** A name that has a character other than the period is neither "." nor
    "..". *)
Lemma not_dots a sfx b :
  sfx ≠ "" → free_of fs.is_period sfx = true →
  String.eqb (a +:+ sfx +:+ b) "." || String.eqb (a +:+ sfx +:+ b) ".." = false.
Proof.
  intros Hne Hfree.
  assert (free_of (fun c => negb (fs.is_period c)) (a +:+ sfx +:+ b) = false) as H.
  { rewrite !free_of_app. destruct sfx as [|c sfx]; [done|]. cbn in *.
    apply andb_true_iff in Hfree as [Hc _]. apply negb_true_iff in Hc. rewrite Hc.
    cbn. by rewrite andb_false_r. }
  destruct (String.eqb _ ".") eqn:E1; [apply String.eqb_eq in E1; by rewrite E1 in H|].
  destruct (String.eqb _ "..") eqn:E2; [apply String.eqb_eq in E2; by rewrite E2 in H|].
  done.
Qed.

(** Stem and extension of a file name of a given form. *)
Lemma parts_without_period c rest :
  free_of fs.is_separator (String c rest) = true →
  String.eqb (String c rest) "." || String.eqb (String c rest) ".." = false →
  free_of fs.is_period rest = true →
  fs.stem (String c rest) = String c rest ∧ fs.extension (String c rest) = "".
Proof.
  intros Hsep Hdots Hfree. unfold fs.stem, fs.extension.
  rewrite (filename_of_name _ Hsep), Hdots.
  apply before_last_None in Hfree as H1. apply after_last_None in Hfree as H2.
  by rewrite H1, H2.
Qed.

Lemma parts_with_period c b r :
  free_of fs.is_separator (String c (b +:+ String "." r)) = true →
  String.eqb (String c (b +:+ String "." r)) "."
    || String.eqb (String c (b +:+ String "." r)) ".." = false →
  free_of fs.is_period r = true →
  fs.stem (String c (b +:+ String "." r)) = String c b ∧
  fs.extension (String c (b +:+ String "." r)) = String "." r.
Proof.
  intros Hsep Hdots Hfree. unfold fs.stem, fs.extension.
  rewrite (filename_of_name _ Hsep), Hdots.
  destruct (before_last_app fs.is_period b "."%char r eq_refl Hfree) as [-> ->]. done.
Qed.

(** Stem and extension of a path whose file name is not "..". *)
Lemma parts_cases path :
  fs.filename path ≠ ".." →
  (fs.stem path = "" ∧ fs.extension path = "") ∨
  (∃ c b r, fs.stem path = String c b ∧ fs.extension path = String "." r ∧
            free_of fs.is_period r = true) ∨
  (∃ c rest, fs.stem path = String c rest ∧ fs.extension path = "" ∧
             free_of fs.is_period rest = true).
Proof.
  intros Hdd. unfold fs.stem, fs.extension.
  destruct (String.eqb (fs.filename path) "." || String.eqb (fs.filename path) "..") eqn:Hd.
  - apply orb_true_iff in Hd as [Hd|Hd]; apply String.eqb_eq in Hd; [|done].
    right. right. exists "."%char, "". by rewrite Hd.
  - destruct (fs.filename path) as [|c rest]; [by left|]. right.
    destruct (fs.after_last fs.is_period rest) as [r|] eqn:E.
    + apply split_around_last in E as Hs.
      destruct Hs as (b & c' & -> & _ & _).
      left. exists c, b, r. split; [done|]. split; [done|]. by eapply after_last_free.
    + apply after_last_None in E as E'. apply before_last_None in E' as ->.
      right. exists c, rest. split; [done|]. split; [done|]. by apply after_last_None.
Qed.

(** The file name [<stem><suffix><extension>], as [output_grey_name] and
    [output_scaled_name] build it: it has the extension of the name it was
    made from, and the stem with the suffix. *)
Lemma suffixed_name_parts path sfx :
  fs.filename path ≠ ".." →
  sfx ≠ "" → free_of fs.is_period sfx = true → free_of fs.is_separator sfx = true →
  free_of fs.is_separator (fs.stem path +:+ sfx +:+ fs.extension path) = true ∧
  fs.stem (fs.stem path +:+ sfx +:+ fs.extension path) = fs.stem path +:+ sfx ∧
  fs.extension (fs.stem path +:+ sfx +:+ fs.extension path) = fs.extension path.
Proof.
  intros Hdd Hne Hper Hsep.
  pose proof (filename_free path) as Hf.
  pose proof (not_dots (fs.stem path) sfx (fs.extension path) Hne Hper) as Hnd.
  assert (free_of fs.is_separator (fs.stem path +:+ sfx +:+ fs.extension path) = true)
    as Hfree.
  { rewrite (stem_extension path), free_of_app in Hf.
    apply andb_true_iff in Hf as [H1 H2]. by rewrite !free_of_app, H1, H2, Hsep. }
  split; [done|]. revert Hnd Hfree.
  destruct (parts_cases path Hdd)
    as [[-> ->]|[(c & b & r & -> & -> & Hr)|(c & rest & -> & -> & Hrest)]].
  - rewrite string_app_nil, string_app_nil_r. destruct sfx as [|c0 sfx]; [done|].
    intros Hnd Hfree. apply parts_without_period; try done.
    cbn in Hper. by apply andb_true_iff in Hper as [_ ?].
  - rewrite string_app_cons, <- string_app_assoc. intros Hnd Hfree.
    by apply parts_with_period.
  - rewrite string_app_nil_r, string_app_cons. intros Hnd Hfree.
    apply parts_without_period; try done. by rewrite free_of_app, Hrest, Hper.
Qed.

(** ** The image tool *)

Import img_modulate_tool.

Lemma prefix_app sub t : String.prefix sub (sub +:+ t) = true.
Proof.
  induction sub as [|c sub IH]; [by destruct t|].
  rewrite string_app_cons. cbn. by destruct (Ascii.ascii_dec c c).
Qed.

Lemma contains_app a sub b : contains sub (a +:+ sub +:+ b) = true.
Proof.
  induction a as [|c a IH].
  - rewrite string_app_nil. destruct (sub +:+ b) eqn:E; cbn [contains];
      by rewrite <- E, prefix_app.
  - rewrite string_app_cons. cbn [contains]. rewrite IH. apply orb_true_r.
Qed.

Lemma has_png_ext_not_dotdot p : has_png_ext p = true → fs.filename p ≠ "..".
Proof.
  unfold has_png_ext, fs.extension. intros H Hd. by rewrite Hd in H.
Qed.

Lemma has_png_ext_stem p : has_png_ext p = true → fs.stem p ≠ "".
Proof.
  intros H. pose proof (has_png_ext_not_dotdot p H) as Hd. unfold has_png_ext in H.
  destruct (parts_cases p Hd)
    as [[_ He]|[(c & b & r & -> & _)|(c & rest & -> & _)]]; [|done..].
  by rewrite He in H.
Qed.

Lemma output_name_parts p sfx :
  fs.filename p ≠ ".." →
  sfx ≠ "" → free_of fs.is_period sfx = true → free_of fs.is_separator sfx = true →
  fs.remove_filename (fs.replace_filename p (fs.stem p +:+ sfx +:+ fs.extension p))
    = fs.remove_filename p ∧
  fs.filename (fs.replace_filename p (fs.stem p +:+ sfx +:+ fs.extension p))
    = fs.stem p +:+ sfx +:+ fs.extension p ∧
  fs.stem (fs.replace_filename p (fs.stem p +:+ sfx +:+ fs.extension p))
    = fs.stem p +:+ sfx ∧
  fs.extension (fs.replace_filename p (fs.stem p +:+ sfx +:+ fs.extension p))
    = fs.extension p.
Proof.
  intros Hd Hne Hper Hsep.
  destruct (suffixed_name_parts p sfx Hd Hne Hper Hsep) as (Hfree & Hstem & Hext).
  destruct (replace_filename_parts p _ Hfree) as [Hf Hr].
  split; [done|]. split; [done|].
  by rewrite (stem_of_filename (fs.replace_filename _ _)),
    (extension_of_filename (fs.replace_filename _ _)), Hf.
Qed.

(** The parts of the path that [output_grey_name] returns. *)
Lemma grey_name_parts p :
  fs.filename p ≠ ".." →
  fs.remove_filename (output_grey_name p) = fs.remove_filename p ∧
  fs.stem (output_grey_name p) = fs.stem p +:+ "_GreyFilter" ∧
  fs.extension (output_grey_name p) = fs.extension p ∧
  has_png_ext (output_grey_name p) = has_png_ext p.
Proof.
  intros Hd.
  destruct (output_name_parts p "_GreyFilter" Hd) as (Hr & Hf & Hs & He); [done..|].
  fold (output_grey_name p) in *.
  split; [done|]. split; [done|]. split; [done|].
  by unfold has_png_ext; rewrite He.
Qed.

(** X15.  [output_grey_name] keeps the folder and the extension of a path
    and appends [_GreyFilter] to its stem, so the result is a PNG file
    exactly when the source is one; and [output_scaled_name] of it is the
    source with [_GreyFilter_WithScale] appended to the stem.  (The file name
    [..], which has neither stem nor extension of its own, is excepted.) *)
Theorem output_grey_name_parts p :
  fs.filename p ≠ ".." →
  fs.remove_filename (output_grey_name p) = fs.remove_filename p ∧
  fs.stem (output_grey_name p) = fs.stem p +:+ "_GreyFilter" ∧
  fs.extension (output_grey_name p) = fs.extension p ∧
  has_png_ext (output_grey_name p) = has_png_ext p ∧
  output_scaled_name (output_grey_name p)
  = fs.remove_filename p +:+ fs.stem p +:+ "_GreyFilter" +:+ "_WithScale" +:+ fs.extension p.
Proof.
  intros Hd. destruct (grey_name_parts p Hd) as (Hr & Hs & He & Hpng).
  split; [done|]. split; [done|]. split; [done|]. split; [done|].
  unfold output_scaled_name, fs.replace_filename. rewrite Hr, Hs, He.
  by rewrite !string_app_assoc.
Qed.

Lemma output_grey_name_parts_witness :
  fs.filename "C:\scans\site A\plot.PNG" ≠ ".." ∧
  fs.remove_filename (output_grey_name "C:\scans\site A\plot.PNG")
    = fs.remove_filename "C:\scans\site A\plot.PNG" ∧
  fs.stem (output_grey_name "C:\scans\site A\plot.PNG")
    = fs.stem "C:\scans\site A\plot.PNG" +:+ "_GreyFilter" ∧
  fs.extension (output_grey_name "C:\scans\site A\plot.PNG")
    = fs.extension "C:\scans\site A\plot.PNG" ∧
  has_png_ext (output_grey_name "C:\scans\site A\plot.PNG")
    = has_png_ext "C:\scans\site A\plot.PNG" ∧
  output_scaled_name (output_grey_name "C:\scans\site A\plot.PNG")
  = fs.remove_filename "C:\scans\site A\plot.PNG" +:+ fs.stem "C:\scans\site A\plot.PNG"
      +:+ "_GreyFilter" +:+ "_WithScale" +:+ fs.extension "C:\scans\site A\plot.PNG".
Proof.
  assert (fs.filename "C:\scans\site A\plot.PNG" ≠ "..") as H by (vm_compute; discriminate).
  split; [exact H|]. exact (output_grey_name_parts _ H).
Defined.

(** What the two revisions list, by membership. *)
Lemma v1_listed files : ∀ pngs q,
  q ∈ v1.list_folders_and_pngs files pngs ↔
  q ∈ pngs ∨ (q ∈ files ∧ has_png_ext q = true).
Proof.
  induction files as [|p files IH]; intros pngs q; cbn [v1.list_folders_and_pngs].
  - split; [by left|]. intros [H|[H _]]; [done|]. by apply elem_of_nil in H.
  - destruct (has_png_ext p) eqn:Hp; split.
    + intros [[H|H%list_elem_of_singleton]%elem_of_app|[H ?]]%IH.
      * by left.
      * subst q. right. split; [apply list_elem_of_here|done].
      * right. split; [by apply list_elem_of_further|done].
    + intros [H|[[->|H]%elem_of_cons ?]]; apply IH.
      * left. apply elem_of_app. by left.
      * left. apply elem_of_app. right. by apply list_elem_of_singleton.
      * by right.
    + intros [H|[H ?]]%IH; [by left|]. right. split; [by apply list_elem_of_further|done].
    + intros [H|[[->|H]%elem_of_cons ?]]; [apply IH; by left|congruence|].
      apply IH. by right.
Qed.

Lemma v2_listed files : ∀ pngs q,
  q ∈ v2.list_folders_and_pngs files pngs ↔
  q ∈ pngs ∨
  (q ∈ files ∧ has_png_ext q = true ∧
   contains "_GreyFilter" (fs.stem q) || contains "_WithScale" (fs.stem q) = false).
Proof.
  induction files as [|p files IH]; intros pngs q; cbn [v2.list_folders_and_pngs].
  - split; [by left|]. intros [H|[H _]]; [done|]. by apply elem_of_nil in H.
  - destruct (has_png_ext p) eqn:Hp; cbn [negb];
      [destruct (contains "_GreyFilter" (fs.stem p) || contains "_WithScale" (fs.stem p))
         eqn:Hs|]; split.
    + intros [H|[H ?]]%IH; [by left|]. right. split; [by apply list_elem_of_further|done].
    + intros [H|[[->|H]%elem_of_cons [? ?]]]; [apply IH; by left|congruence|].
      apply IH. by right.
    + intros [[H|H%list_elem_of_singleton]%elem_of_app|[H ?]]%IH.
      * by left.
      * subst q. right. split; [apply list_elem_of_here|done].
      * right. split; [by apply list_elem_of_further|done].
    + intros [H|[[->|H]%elem_of_cons ?]]; apply IH.
      * left. apply elem_of_app. by left.
      * left. apply elem_of_app. right. by apply list_elem_of_singleton.
      * by right.
    + intros [H|[H ?]]%IH; [by left|]. right. split; [by apply list_elem_of_further|done].
    + intros [H|[[->|H]%elem_of_cons [? ?]]]; [apply IH; by left|congruence|].
      apply IH. by right.
Qed.

(** X16.  The first program lists every file with a PNG extension, so a
    filtered copy that an earlier run wrote into the folder is listed again
    and would be filtered a second time, into a file whose stem carries the
    suffix twice. *)
Theorem v1_lists_its_own_output files p :
  has_png_ext p = true →
  output_grey_name p ∈ files →
  output_grey_name p ∈ v1.list_folders_and_pngs files [] ∧
  fs.stem (output_grey_name (output_grey_name p))
  = fs.stem p +:+ "_GreyFilter" +:+ "_GreyFilter".
Proof.
  intros Hp Hin. pose proof (has_png_ext_not_dotdot p Hp) as Hd.
  destruct (grey_name_parts p Hd) as (_ & Hs & _ & Hpng).
  rewrite Hp in Hpng. split; [apply v1_listed; by right|].
  destruct (grey_name_parts _ (has_png_ext_not_dotdot _ Hpng)) as (_ & -> & _).
  by rewrite Hs, string_app_assoc.
Qed.

Lemma v1_lists_its_own_output_witness :
  has_png_ext "C:\scans\plot.png" = true ∧
  output_grey_name "C:\scans\plot.png"
    ∈ ["C:\scans\plot.png"; "C:\scans\plot_GreyFilter.png"] ∧
  output_grey_name "C:\scans\plot.png"
    ∈ v1.list_folders_and_pngs ["C:\scans\plot.png"; "C:\scans\plot_GreyFilter.png"] [] ∧
  fs.stem (output_grey_name (output_grey_name "C:\scans\plot.png"))
  = fs.stem "C:\scans\plot.png" +:+ "_GreyFilter" +:+ "_GreyFilter".
Proof.
  assert (has_png_ext "C:\scans\plot.png" = true) as Hp by (vm_compute; reflexivity).
  assert (output_grey_name "C:\scans\plot.png"
            ∈ ["C:\scans\plot.png"; "C:\scans\plot_GreyFilter.png"]) as Hin
    by (apply list_elem_of_further; vm_compute; apply list_elem_of_here).
  split; [exact Hp|]. split; [exact Hin|].
  exact (v1_lists_its_own_output _ _ Hp Hin).
Defined.

Lemma output_name_not_selected p sfx :
  sfx ≠ "" → free_of fs.is_period sfx = true → free_of fs.is_separator sfx = true →
  String.eqb (lower (fs.extension (".." +:+ sfx))) ".png" = false →
  has_png_ext (fs.replace_filename p (fs.stem p +:+ sfx +:+ fs.extension p)) = true →
  contains sfx (fs.stem (fs.replace_filename p (fs.stem p +:+ sfx +:+ fs.extension p)))
  = true.
Proof.
  intros Hne Hper Hsep Hdots Hpng.
  destruct (decide (fs.filename p = "..")) as [Hd|Hd].
  - exfalso. revert Hpng. unfold has_png_ext.
    assert (fs.stem p = ".." ∧ fs.extension p = "") as [Hs He]
      by (unfold fs.stem, fs.extension; by rewrite Hd).
    rewrite Hs, He, string_app_nil_r.
    assert (free_of fs.is_separator (".." +:+ sfx) = true) as Hfree
      by (by rewrite free_of_app, Hsep).
    destruct (replace_filename_parts p _ Hfree) as [Hf _].
    by rewrite extension_of_filename, Hf, Hdots.
  - destruct (output_name_parts p sfx Hd Hne Hper Hsep) as (_ & _ & -> & _).
    rewrite <- (string_app_nil_r (fs.stem p +:+ sfx)), string_app_assoc.
    apply contains_app.
Qed.

(** X17.  The later revision never lists a file it could have written:
    whatever the folder holds, no path of the form [output_grey_name p] or
    [output_scaled_name p] is among the listed files. *)
Theorem v2_never_lists_an_output files p :
  (output_grey_name p ∉ v2.list_folders_and_pngs files []) ∧
  (output_scaled_name p ∉ v2.list_folders_and_pngs files []).
Proof.
  split; intros H; apply v2_listed in H as [H|(_ & Hpng & Hs)];
    try (by apply elem_of_nil in H); apply orb_false_iff in Hs as [H1 H2].
  - apply (output_name_not_selected p "_GreyFilter") in Hpng; [|done..].
    unfold output_grey_name in H1. congruence.
  - apply (output_name_not_selected p "_WithScale") in Hpng; [|done..].
    unfold output_scaled_name in H2. congruence.
Qed.

Lemma rfind_GreyFilter st :
  v2.rfind "_GreyFilter" (st +:+ "_GreyFilter") = Some (String.length st).
Proof.
  induction st as [|c st IH]; [done|].
  rewrite string_app_cons. cbn [v2.rfind String.length]. by rewrite IH.
Qed.

Lemma substring_app st t : String.substring 0 (String.length st) (st +:+ t) = st.
Proof.
  induction st as [|c st IH]; [by destruct t|].
  rewrite string_app_cons. cbn. by rewrite IH.
Qed.

(** X18.  The legend pass of the later revision (lines 463-468) recovers the
    stem of the source from the stem of its filtered copy: for a PNG file
    [p], stripping the suffix from the stem of [output_grey_name p] gives
    the stem of [p]. *)
Theorem baseStem_of_output_grey_name p :
  has_png_ext p = true →
  v2.baseStem (fs.stem (output_grey_name p)) = fs.stem p.
Proof.
  intros Hp. pose proof (has_png_ext_not_dotdot p Hp) as Hd.
  pose proof (has_png_ext_stem p Hp) as Hs.
  destruct (grey_name_parts p Hd) as (_ & -> & _).
  unfold v2.baseStem. rewrite rfind_GreyFilter, string_length_app.
  replace (String.length (fs.stem p) + String.length "_GreyFilter"
           - String.length "_GreyFilter")%nat with (String.length (fs.stem p)) by lia.
  rewrite bool_decide_eq_true_2 by done.
  destruct (fs.stem p) as [|c st] eqn:E; [done|].
  replace (String.length "_GreyFilter"
           <? (String.length (String c st) + String.length "_GreyFilter"))%nat
    with true by (symmetry; apply Nat.ltb_lt; cbn; lia).
  cbn [andb]. apply substring_app.
Qed.

Lemma baseStem_of_output_grey_name_witness :
  has_png_ext "C:\scans\plot.PNG" = true ∧
  v2.baseStem (fs.stem (output_grey_name "C:\scans\plot.PNG")) = fs.stem "C:\scans\plot.PNG".
Proof.
  assert (has_png_ext "C:\scans\plot.PNG" = true) as Hp by (vm_compute; reflexivity).
  split; [exact Hp|]. exact (baseStem_of_output_grey_name _ Hp).
Defined.

(** X19.  [iequals] holds exactly when the two strings are equal after
    [std::tolower] on every character, so it is the comparison that
    [has_png_ext] makes by transforming the extension: [has_png_ext p] is
    [iequals] of the extension and [.png]. *)
Theorem iequals_lower a b p :
  iequals a b = String.eqb (lower a) (lower b) ∧
  has_png_ext p = iequals (fs.extension p) ".png".
Proof.
  assert (∀ a b, iequals a b = String.eqb (lower a) (lower b)) as H.
  { clear. induction a as [|x a IH]; intros [|y b]; try done.
    specialize (IH b). unfold iequals in *. cbn [String.length lower same_lower String.eqb].
    change (S (String.length a) =? S (String.length b))%nat
      with (String.length a =? String.length b)%nat.
    rewrite <- IH. by destruct (negb _), (Ascii.eqb _ _). }
  split; [apply H|]. by rewrite H.
Qed.

(** X20.  The answer of [yesno] depends on the first character of the line
    alone: an empty line gives the default, a line starting with [y], [Y] or
    [1] gives true and every other line false.  The third test of line 95,
    [iequals(line, "yes")], never decides anything. *)
Theorem yesno_first_character prompt def c :
  (yesno prompt def c).1 =
  match hd "" (cin c) with
  | EmptyString => def
  | String c0 _ => Ascii.eqb (tolower c0) "y" || Ascii.eqb (tolower c0) "1"
  end.
Proof.
  unfold yesno, ask. cbn [fst]. destruct (hd "" (cin c)) as [|c0 line]; [done|].
  destruct (Ascii.eqb (tolower c0) "y") eqn:E; [done|]. cbn [orb].
  unfold iequals. destruct (negb _); [by rewrite orb_false_r|].
  cbn [same_lower]. change (tolower "y") with "y"%char. rewrite E. by rewrite orb_false_r.
Qed.

(** X21.  [short_path] keeps the file name: for a path with a separator in
    it, shortened or not, what follows the last separator of the result is
    what follows the last separator of the path. *)
Theorem short_path_filename s :
  free_of fs.is_separator s = false →
  fs.filename (v2.short_path s) = fs.filename s.
Proof.
  intros Hs. unfold v2.short_path. destruct (_ <=? _)%nat; [done|].
  unfold fs.filename at 2.
  destruct (fs.after_last fs.is_separator s) as [name|] eqn:E.
  - unfold fs.filename. rewrite after_last_app_free by (by eapply after_last_free). done.
  - apply after_last_None in E. congruence.
Qed.

Lemma short_path_filename_witness :
  free_of fs.is_separator
    "C:\Users\scout\Documents\Motorola\reports\2024\site A\plots\plot 17.png" = false ∧
  fs.filename
    (v2.short_path "C:\Users\scout\Documents\Motorola\reports\2024\site A\plots\plot 17.png")
  = fs.filename "C:\Users\scout\Documents\Motorola\reports\2024\site A\plots\plot 17.png".
Proof.
  assert (free_of fs.is_separator
            "C:\Users\scout\Documents\Motorola\reports\2024\site A\plots\plot 17.png" = false)
    as H by (vm_compute; reflexivity).
  split; [exact H|]. exact (short_path_filename _ H).
Defined.

(** A size below 2^(bits-1) is its own cast. *)
Lemma to_ssize_t_small bits n :
  (0 ≤ n < 2 ^ (bits - 1))%Z → v1.to_ssize_t bits n = n.
Proof.
  intros [H0 Hn]. unfold v1.to_ssize_t.
  assert (0 ≤ bits - 1)%Z as Hb.
  { destruct (Z.lt_ge_cases (bits - 1) 0) as [Hneg|]; [|done].
    rewrite (Z.pow_neg_r 2 (bits - 1) Hneg) in Hn. lia. }
  assert (2 ^ bits = 2 * 2 ^ (bits - 1))%Z as ->
    by (rewrite <- Z.pow_succ_r by done; f_equal; lia).
  rewrite Z.mod_small by lia. lia.
Qed.

(** X22.  Where [composite_scale_on_edge] puts the overlay (lines 196-221):
    for an overlay that fits the canvas with the padding of 10 pixels in
    both directions, the offsets are computed without overflow, the overlay
    lies inside the canvas, exactly 10 pixels from the chosen edge, and
    centred along that edge up to the pixel lost in halving. *)
Theorem overlay_offset_inside bits edge bW bH sW sH :
  (0 ≤ sW)%Z → (0 ≤ sH)%Z → (sW + 10 ≤ bW)%Z → (sH + 10 ≤ bH)%Z →
  (bW < 2 ^ (bits - 1))%Z → (bH < 2 ^ (bits - 1))%Z →
  ∃ x y,
    v1.overlay_offset bits edge bW bH sW sH = Some (x, y) ∧
    (0 ≤ x ∧ x + sW ≤ bW ∧ 0 ≤ y ∧ y + sH ≤ bH)%Z ∧
    match edge with
    | v1.Right => (x + sW = bW - 10 ∧ 0 ≤ bH - sH - 2 * y ≤ 1)%Z
    | v1.Left => (x = 10 ∧ 0 ≤ bH - sH - 2 * y ≤ 1)%Z
    | v1.Top => (y = 10 ∧ 0 ≤ bW - sW - 2 * x ≤ 1)%Z
    | v1.Bottom => (y + sH = bH - 10 ∧ 0 ≤ bW - sW - 2 * x ≤ 1)%Z
    end.
Proof.
  intros HsW HsH HW HH HbW HbH.
  assert (∀ b s, (0 ≤ s)%Z → (s + 10 ≤ b)%Z → (b < 2 ^ (bits - 1))%Z →
            v1.ssize_t bits (b - s) = Some (b - s)%Z ∧
            v1.ssize_t bits (b - s - 10) = Some (b - s - 10)%Z ∧
            v1.max0 (b - s - 10) = (b - s - 10)%Z ∧
            (0 ≤ v1.max0 (Z.quot (b - s) 2) ∧
             0 ≤ b - s - 2 * v1.max0 (Z.quot (b - s) 2) ≤ 1)%Z) as Hax.
  { intros b s H1 H2 H3. unfold v1.ssize_t, v1.max0.
    rewrite !decide_True by lia. split; [done|]. split; [done|]. split; [lia|].
    rewrite Z.quot_div_nonneg by lia.
    pose proof (Z.div_mod (b - s) 2 ltac:(lia)).
    pose proof (Z.mod_pos_bound (b - s) 2 ltac:(lia)). lia. }
  destruct (Hax bW sW HsW HW HbW) as (Hx1 & Hx2 & Hx3 & Hx4 & Hx5).
  destruct (Hax bH sH HsH HH HbH) as (Hy1 & Hy2 & Hy3 & Hy4 & Hy5).
  destruct edge; unfold v1.overlay_offset; rewrite !to_ssize_t_small by lia;
    rewrite ?Hx1, ?Hy1; cbn [mbind option_bind];
    rewrite ?Hx2, ?Hy2; cbn [mbind option_bind]; rewrite ?Hx3, ?Hy3;
    eexists _, _; (split; [reflexivity|]); lia.
Qed.

Lemma overlay_offset_inside_witness :
  (0 ≤ 300)%Z ∧ (0 ≤ 121)%Z ∧ (300 + 10 ≤ 1920)%Z ∧ (121 + 10 ≤ 1080)%Z ∧
  (1920 < 2 ^ (64 - 1))%Z ∧ (1080 < 2 ^ (64 - 1))%Z ∧
  ∃ x y,
    v1.overlay_offset 64 v1.Right 1920 1080 300 121 = Some (x, y) ∧
    (0 ≤ x ∧ x + 300 ≤ 1920 ∧ 0 ≤ y ∧ y + 121 ≤ 1080)%Z ∧
    (x + 300 = 1920 - 10 ∧ 0 ≤ 1080 - 121 - 2 * y ≤ 1)%Z.
Proof.
  assert (0 ≤ 300)%Z as H1 by lia. assert (0 ≤ 121)%Z as H2 by lia.
  assert (300 + 10 ≤ 1920)%Z as H3 by lia. assert (121 + 10 ≤ 1080)%Z as H4 by lia.
  assert (1920 < 2 ^ (64 - 1))%Z as H5 by lia.
  assert (1080 < 2 ^ (64 - 1))%Z as H6 by lia.
  split; [exact H1|]. split; [exact H2|]. split; [exact H3|]. split; [exact H4|].
  split; [exact H5|]. split; [exact H6|].
  exact (overlay_offset_inside 64 v1.Right 1920 1080 300 121 H1 H2 H3 H4 H5 H6).
Defined.

Lemma all_digits_free p s :
  (∀ c, is_digit c = true → p c = false) →
  all_digits s = true → free_of p s = true.
Proof.
  intros Hp. induction s as [|c s IH]; [done|]. cbn.
  intros [Hc Hs]%andb_true_iff. by rewrite (Hp c Hc), IH.
Qed.

Lemma is_digit_not_separator c : is_digit c = true → fs.is_separator c = false.
Proof. by destruct c as [[] [] [] [] [] [] [] []]. Qed.

Lemma is_digit_not_period c : is_digit c = true → fs.is_period c = false.
Proof. by destruct c as [[] [] [] [] [] [] [] []]. Qed.

Lemma extension_free path : free_of fs.is_separator (fs.extension path) = true.
Proof.
  pose proof (filename_free path) as H. rewrite (stem_extension path), free_of_app in H.
  by apply andb_true_iff in H as [_ ?].
Qed.

(** X14.  The copy of an image lies directly in [word/media]: its file name
    is the generated name, with no separator in it whatever the path of the
    source is; its stem is [image] followed by the counter and its extension
    is the extension of the source, as written there. *)
Theorem media_file_name c e :
  (0 ≤ c)%Z →
  fs.remove_filename (media_path c e) = "word/media/" ∧
  fs.filename (media_path c e) = imgName c e ∧
  fs.stem (media_path c e) = "image" +:+ to_string c ∧
  fs.extension (media_path c e) = fs.extension (imagePath e).
Proof.
  intros Hc. pose proof (all_digits_to_string c Hc) as Hd.
  pose proof (all_digits_free _ _ is_digit_not_separator Hd) as Hd1.
  pose proof (all_digits_free _ _ is_digit_not_period Hd) as Hd2.
  pose proof (extension_free (imagePath e)) as He.
  assert (free_of fs.is_separator (imgName c e) = true) as Hfree.
  { unfold imgName. by rewrite !free_of_app, Hd1, He. }
  assert (media_path c e = fs.replace_filename "word/media/" (imgName c e)) as -> by done.
  destruct (replace_filename_parts "word/media/" _ Hfree) as [Hf Hr].
  split; [done|]. split; [done|].
  rewrite (stem_of_filename (fs.replace_filename _ _)),
    (extension_of_filename (fs.replace_filename _ _)), Hf.
  pose proof (not_dots "" "image" (to_string c +:+ fs.extension (imagePath e))
                ltac:(done) eq_refl) as Hnd.
  rewrite string_app_nil in Hnd. revert Hfree Hnd. unfold imgName.
  destruct (extension_shape (imagePath e)) as [->|(r & -> & Hr')].
  - rewrite string_app_nil_r, !string_app_cons, string_app_nil. intros Hfree Hnd.
    by apply parts_without_period.
  - rewrite !string_app_cons, !string_app_nil.
    replace (String "i" (String "m" (String "a" (String "g" (String "e"
               (to_string c +:+ String "." r))))))
      with (String "i" (("mage" +:+ to_string c) +:+ String "." r))
      by (by rewrite string_app_assoc).
    intros Hfree Hnd. by apply parts_with_period.
Qed.

Lemma media_file_name_witness :
  (0 ≤ 10)%Z ∧
  fs.remove_filename (media_path 10 (mkEntry "A" "d1" "C:\shots\a.b.PNG")) = "word/media/" ∧
  fs.filename (media_path 10 (mkEntry "A" "d1" "C:\shots\a.b.PNG"))
    = imgName 10 (mkEntry "A" "d1" "C:\shots\a.b.PNG") ∧
  fs.stem (media_path 10 (mkEntry "A" "d1" "C:\shots\a.b.PNG")) = "image" +:+ to_string 10 ∧
  fs.extension (media_path 10 (mkEntry "A" "d1" "C:\shots\a.b.PNG"))
    = fs.extension (imagePath (mkEntry "A" "d1" "C:\shots\a.b.PNG")).
Proof.
  assert (0 ≤ 10)%Z as H by lia.
  split; [exact H|]. exact (media_file_name 10 _ H).
Defined.
